(** * PhishGuard backend: dispatch, tracking and statistics

    A shallow embedding of the Express handlers of [backend/server.js]
    (the build with a simulated transporter) and of its SMTP twin (the
    build with real delivery and the [/track] routes).

    Conventions.
    - A JavaScript string is a [string] whose characters are code units
      below 256.
    - An [ObjectId] is a 96-bit number; [oidString] is its 24-digit
      lowercase hexadecimal rendering.  The routes [trackRoute],
      [trackPhishingRoute] and [downloadRoute] take their ids as they
      arrive, castable or not; every other handler is given ids that
      Mongoose casts.
    - A stored user has a name and an e-mail address; the department is
      optional.
    - A collection is the list of its documents in insertion order, the
      order in which [find()] returns them.
    - Reads and writes of the store succeed, except the insertion of a
      document whose [_id] is already taken.
    - A handler is a function of the request, the store and whatever it
      draws from its surroundings (clock, random bytes, transporter). *)

From Stdlib Require Import String Ascii List Bool Arith NArith ZArith Lia.
From Stdlib Require Import Floats DecimalString.
Import ListNotations.

Open Scope string_scope.

(** ** JavaScript primitives used by the handlers *)

Module JS.

(** [WhiteSpace] and [LineTerminator] code points below 256: TAB, LF,
    VT, FF, CR, SP and NBSP. *)
Definition isWhiteSpace (c : ascii) : bool :=
  let n := nat_of_ascii c in
  (((9 <=? n) && (n <=? 13)) || (n =? 32) || (n =? 160))%nat.

Fixpoint trimStart (s : string) : string :=
  match s with
  | EmptyString => EmptyString
  | String c r => if isWhiteSpace c then trimStart r else s
  end.

Fixpoint trimEnd (s : string) : string :=
  match s with
  | EmptyString => EmptyString
  | String c r =>
      match trimEnd r with
      | EmptyString => if isWhiteSpace c then EmptyString else String c EmptyString
      | r' => String c r'
      end
  end.

(** [String.prototype.trim] *)
Definition trim (s : string) : string := trimEnd (trimStart s).

(** Truthiness of a string value: only the empty string is falsy. *)
Definition truthy (s : string) : bool := negb (s =? "").

(** Truthiness of a possibly [undefined] string. *)
Definition truthyOpt (v : option string) : bool :=
  match v with
  | Some s => truthy s
  | None => false
  end.

(** [v || d] on a possibly [undefined] string. *)
Definition orElse (v : option string) (d : string) : string :=
  if truthyOpt v then match v with Some s => s | None => d end else d.

Fixpoint drop (n : nat) (s : string) : string :=
  match n, s with
  | S k, String _ r => drop k r
  | _, _ => s
  end.

(** The text before and after the first occurrence of [pat] in [s]. *)
Fixpoint splitFirst (pat s : string) : option (string * string) :=
  if prefix pat s then Some ("", drop (String.length pat) s)
  else
    match s with
    | EmptyString => None
    | String c r =>
        match splitFirst pat r with
        | Some (before, after) => Some (String c before, after)
        | None => None
        end
    end.

(** [GetSubstitution] for a string pattern: there are no captures, so
    only [$$], [$&], [$`] and [$'] are special in the replacement. *)
Fixpoint getSubstitution (matched before after template : string) : string :=
  match template with
  | EmptyString => EmptyString
  | String c r =>
      if (c =? "$")%char then
        match r with
        | EmptyString => String c EmptyString
        | String d r' =>
            if (d =? "$")%char then
              String "$" (getSubstitution matched before after r')
            else if (d =? "&")%char then
              matched ++ getSubstitution matched before after r'
            else if (d =? "`")%char then
              before ++ getSubstitution matched before after r'
            else if (d =? "'")%char then
              after ++ getSubstitution matched before after r'
            else String c (getSubstitution matched before after r)
        end
      else String c (getSubstitution matched before after r)
  end.

(** [s.replace(pat, template)] with a string pattern: the first
    occurrence only. *)
Definition replace (pat template s : string) : string :=
  match splitFirst pat s with
  | Some (before, after) =>
      before ++ getSubstitution pat before after template ++ after
  | None => s
  end.

Definition LF : ascii := ascii_of_nat 10.

(** [s.replace(/\n/g, '<br>')] *)
Fixpoint replaceNewlines (s : string) : string :=
  match s with
  | EmptyString => EmptyString
  | String c r =>
      if (c =? LF)%char then "<br>" ++ replaceNewlines r
      else String c (replaceNewlines r)
  end.

(** Decimal rendering of a count, as in a template literal. *)
Definition natString (n : nat) : string :=
  NilEmpty.string_of_uint (Nat.to_uint n).

Definition decString (z : Z) : string :=
  NilEmpty.string_of_uint (N.to_uint (Z.to_N z)).

Definition hexDigit (n : N) : ascii :=
  ascii_of_N (if (n <? 10)%N then 48 + n else 87 + n)%N.

Fixpoint hexString (digits : nat) (n : N) : string :=
  match digits with
  | O => EmptyString
  | S d => hexString d (n / 16)%N ++ String (hexDigit (n mod 16)%N) EmptyString
  end.

(** A count held in a Number (exact below 2^53). *)
Definition ofCount (n : nat) : float :=
  PrimFloat.of_uint63 (Uint63.of_Z (Z.of_nat n)).

(** [x.toFixed(1)].  With [x = m * 2^e] the digits are those of the
    integer [n] nearest to [10 * x], the larger one on a tie.  A
    finite value of magnitude [10^21] or more is rendered by
    [Number::toString], which is left out: the result is [None]. *)
Definition toFixed1 (x : float) : option string :=
  match Prim2SF x with
  | S754_nan => Some "NaN"
  | S754_infinity s => Some (if s then "-Infinity" else "Infinity")
  | S754_zero _ => Some "0.0"
  | S754_finite s m e =>
      let big :=
        if (0 <=? e)%Z then (10 ^ 21 <=? Z.pos m * 2 ^ e)%Z
        else (10 ^ 21 * 2 ^ (- e) <=? Z.pos m)%Z in
      if big then None
      else
        let num := (Z.pos m * 10)%Z in
        let n :=
          if (0 <=? e)%Z then (num * 2 ^ e)%Z
          else
            let d := (2 ^ (- e))%Z in
            if (d <=? 2 * (num mod d))%Z then (num / d + 1)%Z else (num / d)%Z in
        Some ((if s then "-" else "") ++ decString (n / 10) ++ "." ++ decString (n mod 10))
  end.

(** [(a / b) * 100] on Numbers. *)
Definition percent (a b : nat) : float :=
  PrimFloat.mul (PrimFloat.div (ofCount a) (ofCount b)) (ofCount 100).

(** A value that is either a Number or a String. *)
Inductive value : Type :=
| Num (x : float)
| Str (s : string).

(** Names every object inherits from [Object.prototype]: looked up
    on a fresh [{}] they are truthy without being own keys. *)
Definition inheritedKeys : list string :=
  [ "constructor"; "__defineGetter__"; "__defineSetter__"; "hasOwnProperty";
    "__lookupGetter__"; "__lookupSetter__"; "isPrototypeOf";
    "propertyIsEnumerable"; "toString"; "valueOf"; "__proto__";
    "toLocaleString" ].

Definition inherited (k : string) : bool :=
  existsb (String.eqb k) inheritedKeys.

End JS.

(** Characters the literals of the source need. *)
Definition dquote : string := String (ascii_of_nat 34) EmptyString.
Definition n_tilde : string := String (ascii_of_nat 241) EmptyString.
Definition a_acute : string := String (ascii_of_nat 225) EmptyString.
Definition o_acute : string := String (ascii_of_nat 243) EmptyString.
Definition newline : string := String JS.LF EmptyString.

(** ** Data model: the Mongoose schemas *)

Definition ObjectId := N.
Bind Scope N_scope with ObjectId.

(** [`${id}`]: the hexadecimal rendering of an id. *)
Definition oidString (id : ObjectId) : string := JS.hexString 24 id.

Definition oidIn (id : ObjectId) (ids : list ObjectId) : bool :=
  existsb (N.eqb id) ids.

Record User := mkUser {
  user_id : ObjectId;
  user_name : string;
  user_email : string;
  user_department : option string
}.

Record Campaign := mkCampaign {
  campaign_id : ObjectId;
  campaign_name : string;
  templateId : option ObjectId;
  customSubject : string;
  customBody : string;
  targetUsers : list ObjectId;
  status : string;
  clicks : nat;
  credentials : nat;
  sentAt : nat
}.

Record Click := mkClick {
  click_campaignId : ObjectId;
  click_userId : ObjectId;
  click_token : option string;
  ipAddress : option string;
  userAgent : option string;
  click_timestamp : nat
}.

(** A Credential has no field for the submitted e-mail or password. *)
Record Credential := mkCredential {
  cred_campaignId : ObjectId;
  cred_userId : ObjectId;
  attempted : bool;
  cred_timestamp : nat
}.

(** The collections the handlers below read or write. *)
Record Db := mkDb {
  Users : list User;
  Campaigns : list Campaign;
  Clicks : list Click;
  Credentials : list Credential
}.

(** [Model.findById] *)
Definition findUser (id : ObjectId) (db : Db) : option User :=
  find (fun u => N.eqb (user_id u) id) (Users db).

Definition findCampaign (id : ObjectId) (db : Db) : option Campaign :=
  find (fun c => N.eqb (campaign_id c) id) (Campaigns db).

(** [User.find({ _id: { $in: ids } })] *)
Definition findUsersIn (ids : list ObjectId) (db : Db) : list User :=
  filter (fun u => oidIn (user_id u) ids) (Users db).

(** [Campaign.findByIdAndUpdate(id, { $inc: ... })]: the first document
    with that id is updated, none when there is no such document. *)
Fixpoint updateFirst (id : ObjectId) (f : Campaign -> Campaign)
    (cs : list Campaign) : list Campaign :=
  match cs with
  | [] => []
  | c :: rest =>
      if N.eqb (campaign_id c) id then f c :: rest
      else c :: updateFirst id f rest
  end.

Definition incClicks (c : Campaign) : Campaign :=
  mkCampaign (campaign_id c) (campaign_name c) (templateId c) (customSubject c)
    (customBody c) (targetUsers c) (status c) (clicks c + 1) (credentials c)
    (sentAt c).

Definition incCredentials (c : Campaign) : Campaign :=
  mkCampaign (campaign_id c) (campaign_name c) (templateId c) (customSubject c)
    (customBody c) (targetUsers c) (status c) (clicks c) (credentials c + 1)
    (sentAt c).

Definition saveClick (k : Click) (db : Db) : Db :=
  mkDb (Users db) (Campaigns db) (Clicks db ++ [k])%list (Credentials db).

Definition saveCredential (k : Credential) (db : Db) : Db :=
  mkDb (Users db) (Campaigns db) (Clicks db) (Credentials db ++ [k])%list.

Definition updateCampaign (id : ObjectId) (f : Campaign -> Campaign) (db : Db) : Db :=
  mkDb (Users db) (updateFirst id f (Campaigns db)) (Clicks db) (Credentials db).

(** ** Responses *)

(** What a handler caught and reports as [error.message]. *)
Inductive Exception : Type :=
| DuplicateKey (id : ObjectId).

Inductive Body : Type :=
| ErrorJson (error : string)
| ExceptionJson (e : Exception)
| Text (s : string)
| Redirect (url : string)
| CampaignCreated (campaign : Campaign) (message : string)
    (emailsSent emailsFailed : nat)
| SuccessJson (message : string) (redirect : option string).

Record Response := mkResponse {
  statusCode : nat;
  body : Body
}.

(** ** POST /api/campaigns *)

Record MailOptions := mkMail {
  mail_from : string;
  mail_to : string;
  mail_subject : string;
  mail_text : string;
  mail_html : string
}.

(** What differs between the two builds of the handler. *)
Record Build := mkBuild {
  baseUrl : string;
  fromHeader : string;
  htmlOf : string -> string;
  noneSentNote : string
}.

(** [backend/server.js] *)
Definition simulated : Build :=
  mkBuild "http://localhost:3000"
    (dquote ++ "PhishGuard Test" ++ dquote ++ " <phishing@test.com>")
    (fun inner => "<p>" ++ inner ++ "</p>")
    (" email(s) fallaron (modo sandbox - esto es normal si no hay configuraci"
       ++ o_acute ++ "n de email)").

(** The process environment the SMTP build reads. *)
Record ProcessEnv := mkProcessEnv {
  BASE_URL : option string;
  PORT : option string;
  FROM_EMAIL : option string;
  FROM_NAME : option string
}.

Definition spaces (n : nat) : string :=
  string_of_list_ascii (repeat " "%char n).

(** The SMTP build. *)
Definition smtp (env : ProcessEnv) : Build :=
  mkBuild
    (JS.orElse (BASE_URL env) ("http://localhost:" ++ JS.orElse (PORT env) "5000"))
    (dquote ++ JS.orElse (FROM_NAME env) "PhishGuard Test" ++ dquote ++ " <"
       ++ JS.orElse (FROM_EMAIL env) "phishing@test.com" ++ ">")
    (fun inner =>
       "<div style=" ++ dquote
         ++ "font-family: Arial, sans-serif; max-width: 600px; margin: 0 auto;"
         ++ dquote ++ ">" ++ newline ++ spaces 14 ++ inner ++ newline
         ++ spaces 12 ++ "</div>")
    (" email(s) fallaron. Verifica tu configuraci" ++ o_acute
       ++ "n SMTP en el archivo .env").

(** What one run of the handler draws from outside the store: the clock,
    the id the driver gives the new document, [crypto.randomBytes(16)]
    rendered in hexadecimal for the recipient at each position ([None]
    when it throws), and whether [transporter.sendMail] resolves for the
    message handed to it at each position. *)
Record Outside := mkOutside {
  now : nat;
  newId : ObjectId;
  randomHex : nat -> option string;
  sendMail : nat -> MailOptions -> bool
}.

(** The JSON body of the request.  It is handed whole to the Campaign
    constructor, which takes every path of the schema that it finds
    there; a path that is absent is [None]. *)
Record CampaignRequest := mkCampaignRequest {
  req_id : option ObjectId;
  req_name : option string;
  req_templateId : option ObjectId;
  req_customSubject : option string;
  req_customBody : option string;
  req_targetUsers : option (list ObjectId);
  req_status : option string;
  req_clicks : option nat;
  req_credentials : option nat;
  req_sentAt : option nat
}.

(** [!v || !v.trim()] *)
Definition blank (v : option string) : bool :=
  match v with
  | None => true
  | Some s => negb (JS.truthy s) || negb (JS.truthy (JS.trim s))
  end.

(** [!v || v.length === 0] *)
Definition noTargets (v : option (list ObjectId)) : bool :=
  match v with
  | None => true
  | Some ids => Nat.eqb (List.length ids) 0
  end.

Definition getOr {A : Type} (d : A) (v : option A) : A :=
  match v with
  | Some a => a
  | None => d
  end.

(** [new Campaign(req.body)]: the paths of the body, and for an absent
    path the default of the schema (for [_id], the id the driver makes). *)
Definition newCampaign (out : Outside) (req : CampaignRequest) : Campaign :=
  mkCampaign (getOr (newId out) (req_id req)) (getOr "" (req_name req))
    (req_templateId req) (getOr "" (req_customSubject req))
    (getOr "" (req_customBody req)) (getOr [] (req_targetUsers req))
    (getOr "active" (req_status req)) (getOr 0 (req_clicks req))
    (getOr 0 (req_credentials req)) (getOr (now out) (req_sentAt req)).

(** The counters and the messages handed to the transporter so far. *)
Record Tally := mkTally {
  emailsSent : nat;
  emailsFailed : nat;
  outbox : list MailOptions
}.

Definition trackingUrl (b : Build) (c : Campaign) (u : User) (token : string) : string :=
  baseUrl b ++ "/track/" ++ oidString (campaign_id c) ++ "/"
    ++ oidString (user_id u) ++ "/" ++ token.

Definition emailFor (b : Build) (c : Campaign) (u : User) (token : string) : MailOptions :=
  let emailBody := JS.replace "[LINK]" (trackingUrl b c u token) (customBody c) in
  mkMail (fromHeader b) (user_email u) (customSubject c) emailBody
    (htmlOf b (JS.replaceNewlines emailBody)).

(** The body of the [for] loop, for the recipient at position [i]. *)
Definition sendOne (b : Build) (out : Outside) (c : Campaign) (i : nat)
    (u : User) (t : Tally) : Tally :=
  match randomHex out i with
  | None => mkTally (emailsSent t) (emailsFailed t + 1) (outbox t)
  | Some token =>
      let mail := emailFor b c u token in
      if sendMail out i mail
      then mkTally (emailsSent t + 1) (emailsFailed t) (outbox t ++ [mail])%list
      else mkTally (emailsSent t) (emailsFailed t + 1) (outbox t ++ [mail])%list
  end.

Fixpoint sendAll (b : Build) (out : Outside) (c : Campaign) (i : nat)
    (us : list User) (t : Tally) : Tally :=
  match us with
  | [] => t
  | u :: rest => sendAll b out c (S i) rest (sendOne b out c i u t)
  end.

Definition summary (b : Build) (t : Tally) : string :=
  if (0 <? emailsSent t)%nat
  then "Campa" ++ n_tilde ++ "a creada. " ++ JS.natString (emailsSent t)
         ++ " email(s) enviado(s)"
         ++ (if (0 <? emailsFailed t)%nat
             then ", " ++ JS.natString (emailsFailed t) ++ " fallido(s)"
             else "")
  else "Campa" ++ n_tilde ++ "a creada. " ++ JS.natString (emailsFailed t)
         ++ noneSentNote b.

Definition insertCampaign (c : Campaign) (db : Db) : Db :=
  mkDb (Users db) (Campaigns db ++ [c])%list (Clicks db) (Credentials db).

(** The handler: the response, the store afterwards and the messages
    handed to the transporter. *)
Definition createCampaign (b : Build) (out : Outside) (req : CampaignRequest)
    (db : Db) : Response * Db * list MailOptions :=
  if blank (req_name req) then
    (mkResponse 400 (ErrorJson ("El nombre de la campa" ++ n_tilde ++ "a es requerido")),
     db, [])
  else if blank (req_customSubject req) then
    (mkResponse 400 (ErrorJson "El asunto del email es requerido"), db, [])
  else if blank (req_customBody req) then
    (mkResponse 400 (ErrorJson "El cuerpo del email es requerido"), db, [])
  else if noTargets (req_targetUsers req) then
    (mkResponse 400 (ErrorJson "Debes seleccionar al menos un usuario objetivo"),
     db, [])
  else
    let campaign := newCampaign out req in
    match findCampaign (campaign_id campaign) db with
    | Some _ =>
        (mkResponse 400 (ExceptionJson (DuplicateKey (campaign_id campaign))), db, [])
    | None =>
        let db' := insertCampaign campaign db in
        let users := findUsersIn (getOr [] (req_targetUsers req)) db' in
        let t := sendAll b out campaign 0 users (mkTally 0 0 []) in
        (mkResponse 201
           (CampaignCreated campaign (summary b t) (emailsSent t) (emailsFailed t)),
         db', outbox t)
    end.

(** ** Tracking *)

(** GET /track/:campaignId/:userId/:token (SMTP build): the request
    once both route parameters are cast to ids.  [trackClick] is the
    [try] block of the handler; [trackRoute] below is the whole
    handler, with the parameters as they arrive and the [catch]. *)
Record TrackRequest := mkTrackRequest {
  param_campaignId : ObjectId;
  param_userId : ObjectId;
  param_token : string;
  req_ip : option string;
  remoteAddress : option string;
  xForwardedFor : option string;
  userAgentHeader : option string
}.

(** [req.ip || req.connection.remoteAddress || req.headers['x-forwarded-for'] || 'unknown'] *)
Definition requesterIp (r : TrackRequest) : string :=
  if JS.truthyOpt (req_ip r) then getOr "" (req_ip r)
  else if JS.truthyOpt (remoteAddress r) then getOr "" (remoteAddress r)
  else JS.orElse (xForwardedFor r) "unknown".

Definition trackClick (clock : nat) (r : TrackRequest) (db : Db) : Response * Db :=
  let campaignId := param_campaignId r in
  let userId := param_userId r in
  let ip := requesterIp r in
  let agent := JS.orElse (userAgentHeader r) "unknown" in
  match findCampaign campaignId db, findUser userId db with
  | Some _, Some _ =>
      let click :=
        mkClick campaignId userId (Some (param_token r)) (Some ip) (Some agent) clock in
      (mkResponse 302
         (Redirect ("/phishing/" ++ oidString campaignId ++ "/" ++ oidString userId)),
       updateCampaign campaignId incClicks (saveClick click db))
  | _, _ => (mkResponse 404 (Text ("P" ++ a_acute ++ "gina no encontrada")), db)
  end.

(** POST /track/phishing (SMTP build): the body once the ids it
    carries are cast.  [trackPhishing] is the [try] block of the
    handler; [trackPhishingRoute] below is the whole handler. *)
Record PhishingRequest := mkPhishingRequest {
  ph_campaignId : option ObjectId;
  ph_userId : option ObjectId;
  ph_email : option string;
  ph_password : option string
}.

(** The lines the handler writes to the console. *)
Inductive LogLine : Type :=
| CredentialsCaptured (campaignId : ObjectId) (userEmail : string)
| AttemptedEmail (email : string).

Definition trackPhishing (clock : nat) (r : PhishingRequest) (db : Db)
    : Response * Db * list LogLine :=
  match ph_campaignId r, ph_userId r with
  | Some campaignId, Some userId =>
      match findCampaign campaignId db, findUser userId db with
      | Some _, Some user =>
          let credential := mkCredential campaignId userId true clock in
          (mkResponse 200 (SuccessJson "Credenciales registradas" (Some "/phishing/success")),
           updateCampaign campaignId incCredentials (saveCredential credential db),
           [ CredentialsCaptured campaignId (user_email user);
             AttemptedEmail (JS.orElse (ph_email r) "N/A") ])
      | _, _ =>
          (mkResponse 404 (ErrorJson ("Campa" ++ n_tilde ++ "a o usuario no encontrado")),
           db, [])
      end
  | _, _ =>
      (mkResponse 400 (ErrorJson ("Faltan par" ++ a_acute ++ "metros requeridos")), db, [])
  end.

(** POST /api/track/click (both builds).  The body carries both ids:
    what [findByIdAndUpdate] does with an absent id is left out. *)
Record ClickRequest := mkClickRequest {
  cr_campaignId : ObjectId;
  cr_userId : ObjectId;
  cr_token : option string;
  cr_ipAddress : option string;
  cr_userAgent : option string
}.

Definition apiTrackClick (clock : nat) (r : ClickRequest) (db : Db) : Response * Db :=
  let click :=
    mkClick (cr_campaignId r) (cr_userId r) (cr_token r) (cr_ipAddress r)
      (cr_userAgent r) clock in
  (mkResponse 200 (SuccessJson "Click registrado" None),
   updateCampaign (cr_campaignId r) incClicks (saveClick click db)).

(** POST /api/track/credentials (both builds) *)
Record CredentialRequest := mkCredentialRequest {
  cq_campaignId : ObjectId;
  cq_userId : ObjectId
}.

Definition apiTrackCredentials (clock : nat) (r : CredentialRequest) (db : Db)
    : Response * Db :=
  let credential := mkCredential (cq_campaignId r) (cq_userId r) true clock in
  (mkResponse 200 (SuccessJson "Intento de credenciales registrado" None),
   updateCampaign (cq_campaignId r) incCredentials (saveCredential credential db)).

(** *** Ids as they arrive

    A route parameter or a field of a JSON body is free text.  When a
    query uses it as an [_id], Mongoose casts it to an ObjectId; when it
    cannot, the query rejects with a CastError and the [catch] of the
    handler answers.  A value that casts is given by its id and is
    written, where a handler echoes it, as the 24 digits of
    [oidString]; a value that does not cast is given by its text. *)
Inductive IdParam : Type :=
| Castable (id : ObjectId)
| Uncastable (text : string).

Definition internalError : string := "Error interno del servidor".

Record TrackParams := mkTrackParams {
  tp_campaignId : IdParam;
  tp_userId : IdParam;
  tp_token : string;
  tp_ip : option string;
  tp_remoteAddress : option string;
  tp_xForwardedFor : option string;
  tp_userAgent : option string
}.

(** GET /track/:campaignId/:userId/:token, the whole handler: both
    [findById] calls are awaited before anything is checked or written,
    so a parameter that cannot be cast ends in the [catch]. *)
Definition trackRoute (clock : nat) (r : TrackParams) (db : Db) : Response * Db :=
  match tp_campaignId r, tp_userId r with
  | Castable campaignId, Castable userId =>
      trackClick clock
        (mkTrackRequest campaignId userId (tp_token r) (tp_ip r) (tp_remoteAddress r)
           (tp_xForwardedFor r) (tp_userAgent r))
        db
  | _, _ => (mkResponse 500 (Text internalError), db)
  end.

(** The JSON body of POST /track/phishing.  [None] is a field that is
    absent (or [null]). *)
Record PhishingBody := mkPhishingBody {
  pb_campaignId : option IdParam;
  pb_userId : option IdParam;
  pb_email : option string;
  pb_password : option string
}.

(** Truthiness of an id of the body: an absent one and the empty string
    are falsy. *)
Definition given (v : option IdParam) : bool :=
  match v with
  | None => false
  | Some (Castable _) => true
  | Some (Uncastable text) => JS.truthy text
  end.

(** POST /track/phishing, the whole handler. *)
Definition trackPhishingRoute (clock : nat) (r : PhishingBody) (db : Db)
    : Response * Db * list LogLine :=
  if negb (given (pb_campaignId r)) || negb (given (pb_userId r)) then
    (mkResponse 400 (ErrorJson ("Faltan par" ++ a_acute ++ "metros requeridos")), db, [])
  else
    match pb_campaignId r, pb_userId r with
    | Some (Castable campaignId), Some (Castable userId) =>
        trackPhishing clock
          (mkPhishingRequest (Some campaignId) (Some userId) (pb_email r) (pb_password r))
          db
    | _, _ => (mkResponse 500 (ErrorJson internalError), db, [])
    end.

(** ** Statistics *)

(** GET /api/statistics/departments *)

Record DeptCount := mkDeptCount {
  dept_total : nat;
  dept_clicked : nat
}.

(** The object [departments]: its own keys in the order they were
    added (the order of [Object.keys] for keys that are not array
    indices). *)
Definition Departments := list (string * DeptCount).

Fixpoint ownKey (k : string) (d : Departments) : bool :=
  match d with
  | [] => false
  | (k', _) :: rest => (k' =? k) || ownKey k rest
  end.

Fixpoint updateKey (k : string) (f : DeptCount -> DeptCount) (d : Departments)
    : Departments :=
  match d with
  | [] => []
  | (k', v) :: rest =>
      if k' =? k then (k', f v) :: rest else (k', v) :: updateKey k f rest
  end.

(** The property key an optional department is turned into. *)
Definition deptKey (v : option string) : string := getOr "undefined" v.

(** [departments[k]] is truthy: an own entry, or an inherited name. *)
Definition hasDept (k : string) (d : Departments) : bool :=
  ownKey k d || JS.inherited k.

Definition addTotal (v : DeptCount) : DeptCount :=
  mkDeptCount (dept_total v + 1) (dept_clicked v).

Definition addClicked (v : DeptCount) : DeptCount :=
  mkDeptCount (dept_total v) (dept_clicked v + 1).

(** First [forEach]: an entry is created for a department not seen
    before, then its [total] is incremented.  For an inherited name no
    entry is created and the increment lands on the inherited object. *)
Definition countUser (d : Departments) (u : User) : Departments :=
  let k := deptKey (user_department u) in
  let d' := if hasDept k d then d else (d ++ [(k, mkDeptCount 0 0)])%list in
  updateKey k addTotal d'.

(** Second [forEach]: [click.userId] is the populated user, [null]
    when there is none with that id. *)
Definition countClick (users : list User) (d : Departments) (k : Click) : Departments :=
  match find (fun u => N.eqb (user_id u) (click_userId k)) users with
  | None => d
  | Some populated =>
      let user :=
        if JS.truthyOpt (user_department populated) then Some populated
        else find (fun u => N.eqb (user_id u) (user_id populated)) users in
      match user with
      | Some u =>
          if JS.truthyOpt (user_department u) && hasDept (deptKey (user_department u)) d
          then updateKey (deptKey (user_department u)) addClicked d
          else d
      | None => d
      end
  end.

Definition countDepartments (db : Db) : Departments :=
  fold_left (countClick (Users db)) (Clicks db) (fold_left countUser (Users db) []).

Record DeptRate := mkDeptRate {
  department : string;
  total : nat;
  clicked : nat;
  rate : option string
}.

Definition rateOf (v : DeptCount) : option string :=
  if (0 <? dept_total v)%nat
  then JS.toFixed1 (JS.percent (dept_clicked v) (dept_total v))
  else Some "0.0".

Definition departmentRates (db : Db) : list DeptRate :=
  map (fun e => mkDeptRate (fst e) (dept_total (snd e)) (dept_clicked (snd e))
                  (rateOf (snd e)))
      (countDepartments db).

(** GET /api/statistics/users *)

Definition clicksOf (u : User) (db : Db) : nat :=
  List.length (filter (fun c => N.eqb (click_userId c) (user_id u)) (Clicks db)).

Definition credsOf (u : User) (db : Db) : nat :=
  List.length (filter (fun c => N.eqb (cred_userId c) (user_id u)) (Credentials db)).

Record UserStat := mkUserStat {
  stat_userId : ObjectId;
  stat_name : string;
  stat_email : string;
  stat_department : option string;
  stat_clicks : nat;
  stat_credentials : nat;
  stat_risk : string
}.

Definition userStatistics (db : Db) : list UserStat :=
  map (fun user =>
         let userClicks := clicksOf user db in
         let userCreds := credsOf user db in
         mkUserStat (user_id user) (user_name user) (user_email user)
           (user_department user) userClicks userCreds
           (if (1 <? userCreds)%nat then "Alto"
            else if (2 <? userClicks)%nat then "Medio" else "Bajo"))
      (Users db).

(** GET /api/reports/vulnerability *)

Record Report := mkReport {
  totalUsers : nat;
  totalCampaigns : nat;
  highRisk : nat;
  mediumRisk : nat;
  lowRisk : nat;
  avgClickRate : option JS.value;
  avgCredentialRate : option JS.value;
  recommendations : list string
}.

Definition totalEmails (db : Db) : nat :=
  fold_left (fun sum c => sum + List.length (targetUsers c)) (Campaigns db) 0.

Definition reportStats (db : Db) : list (ObjectId * string) :=
  map (fun user =>
         let userClicks := clicksOf user db in
         let userCreds := credsOf user db in
         (user_id user,
          if (1 <? userCreds)%nat then "high"
          else if (2 <? userClicks)%nat then "medium" else "low"))
      (Users db).

Definition withRisk (label : string) (stats : list (ObjectId * string)) : nat :=
  List.length (filter (fun u => snd u =? label) stats).

Definition avgRate (events emails : nat) : option JS.value :=
  if (0 <? emails)%nat
  then option_map JS.Str (JS.toFixed1 (JS.percent events emails))
  else Some (JS.Num 0%float).

Definition vulnerabilityReport (db : Db) : Report :=
  let totalClicks := List.length (Clicks db) in
  let totalCredentials := List.length (Credentials db) in
  let userStats := reportStats db in
  mkReport (List.length (Users db)) (List.length (Campaigns db))
    (withRisk "high" userStats) (withRisk "medium" userStats)
    (withRisk "low" userStats)
    (avgRate totalClicks (totalEmails db))
    (avgRate totalCredentials (totalEmails db))
    [ "Reforzar capacitaci" ++ o_acute ++ "n en departamentos de alto riesgo";
      "Implementar autenticaci" ++ o_acute ++ "n de dos factores";
      "Realizar simulaciones mensuales";
      "Crear pol" ++ String (ascii_of_nat 237) "tica de verificaci" ++ o_acute
        ++ "n de emails" ].

(** ** The properties, in the words of the specification *)

(** RiskScorer: credential attempts first, then clicks. *)
Inductive RiskLevel : Type := Low | Medium | High.

Definition score (clickCount credentialCount : nat) : RiskLevel :=
  if (1 <? credentialCount)%nat then High
  else if (2 <? clickCount)%nat then Medium
  else Low.

(** The level a label of either report stands for. *)
Definition levelOf (label : string) : option RiskLevel :=
  if (label =? "Alto") || (label =? "high") then Some High
  else if (label =? "Medio") || (label =? "medium") then Some Medium
  else if (label =? "Bajo") || (label =? "low") then Some Low
  else None.

(** A required text field that is missing or empty once trimmed. *)
Definition emptyAfterTrim (v : option string) : Prop :=
  match v with
  | None => True
  | Some s => JS.trim s = ""
  end.

(** A target-user list that is missing or empty. *)
Definition emptyTargets (v : option (list ObjectId)) : Prop :=
  match v with
  | None => True
  | Some ids => ids = []
  end.

(** A request that passes the four checks of the handler. *)
Definition passesValidation (req : CampaignRequest) : bool :=
  negb (blank (req_name req)) && negb (blank (req_customSubject req))
  && negb (blank (req_customBody req)) && negb (noTargets (req_targetUsers req)).

(** The declared recipients of a request. *)
Definition declaredTargets (req : CampaignRequest) : list ObjectId :=
  getOr [] (req_targetUsers req).

(** HTML escaping of the five metacharacters. *)
Fixpoint escapeHtml (s : string) : string :=
  match s with
  | EmptyString => EmptyString
  | String c r =>
      (if (c =? "&")%char then "&amp;"
       else if (c =? "<")%char then "&lt;"
       else if (c =? ">")%char then "&gt;"
       else if (c =? ascii_of_nat 34)%char then "&quot;"
       else if (c =? "'")%char then "&#39;"
       else String c EmptyString) ++ escapeHtml r
  end.

Fixpoint hasNewline (s : string) : bool :=
  match s with
  | EmptyString => false
  | String c r => (c =? JS.LF)%char || hasNewline r
  end.

(** Events that reference a campaign. *)
Definition clickEvents (id : ObjectId) (db : Db) : nat :=
  List.length (filter (fun k => N.eqb (click_campaignId k) id) (Clicks db)).

Definition credentialEvents (id : ObjectId) (db : Db) : nat :=
  List.length (filter (fun k => N.eqb (cred_campaignId k) id) (Credentials db)).

(** The invariant of the Campaign counters. *)
Definition countersMatch (db : Db) : Prop :=
  forall c, In c (Campaigns db) ->
    clicks c = clickEvents (campaign_id c) db
    /\ credentials c = credentialEvents (campaign_id c) db.

(** No two campaigns share an [_id]. *)
Definition uniqueCampaignIds (db : Db) : Prop :=
  NoDup (map campaign_id (Campaigns db)).

(** No stored event references the id. *)
Definition unreferenced (id : ObjectId) (db : Db) : Prop :=
  clickEvents id db = 0 /\ credentialEvents id db = 0.

(** The sum of the declared target-list lengths. *)
Definition totalTargetedRecipients (db : Db) : nat :=
  list_sum (map (fun c => List.length (targetUsers c)) (Campaigns db)).

(** Users that fall under a department key. *)
Definition membersOf (k : string) (us : list User) : nat :=
  List.length (filter (fun u => deptKey (user_department u) =? k) us).

(** What the first pass has established once the users [done] are
    counted: the keys are distinct, each entry counts the users under
    its key, and a name that is neither a key nor inherited has no user. *)
Definition counted (done : list User) (d : Departments) : Prop :=
  NoDup (map fst d)
  /\ (forall k v, In (k, v) d -> dept_total v = membersOf k done)
  /\ (forall k, ownKey k d = false -> JS.inherited k = false -> membersOf k done = 0).

(** The messages the loop hands to the transporter: one for each
    recipient whose token was drawn, in the order of the recipients. *)
Fixpoint mailsFor (b : Build) (out : Outside) (c : Campaign) (i : nat)
    (us : list User) : list MailOptions :=
  match us with
  | [] => []
  | u :: rest =>
      (match randomHex out i with
       | Some token => [emailFor b c u token]
       | None => []
       end ++ mailsFor b out c (S i) rest)%list
  end.

(** A store whose campaigns have distinct ids and matching counters. *)
Definition consistent (db : Db) : Prop :=
  uniqueCampaignIds db /\ countersMatch db.

(** The Click a request to the compatibility route stores. *)
Definition clickOf (clock : nat) (r : ClickRequest) : Click :=
  mkClick (cr_campaignId r) (cr_userId r) (cr_token r) (cr_ipAddress r)
    (cr_userAgent r) clock.

(** Every entry of the table counts at least one user. *)
Definition totalsPositive (d : Departments) : Prop :=
  Forall (fun e => 1 <= dept_total (snd e)) d.

(** ** Concrete stores and requests *)

Module Scenario.

Definition ana : User := mkUser 1 "Ana" "ana@empresa.com" (Some "RRHH").
Definition juan : User := mkUser 2 "Juan" "juan@empresa.com" (Some "Ventas").
Definition pedro : User := mkUser 3 "Pedro" "pedro@empresa.com" (Some "Ventas").

Definition staff : Db := mkDb [ana; juan; pedro] [] [] [].

Definition token : string := "00112233445566778899aabbccddeeff".

(** Every token is drawn and every message is accepted. *)
Definition calm (id : ObjectId) : Outside :=
  mkOutside 1000 id (fun _ => Some token) (fun _ _ => true).

(** The transporter rejects the message at every even position. *)
Definition flaky (id : ObjectId) : Outside :=
  mkOutside 1000 id (fun _ => Some token) (fun i _ => Nat.odd i).

Definition request (body : string) (targets : list ObjectId) : CampaignRequest :=
  mkCampaignRequest None (Some "Q3") None (Some "Aviso") (Some body) (Some targets)
    None None None None.

Definition threeTargets : CampaignRequest := request "Hola [LINK]" [1; 2; 3]%N.

Definition blankName : CampaignRequest :=
  mkCampaignRequest None (Some "   ") None (Some "Aviso") (Some "Hola [LINK]")
    (Some [1%N]) None None None None.

(** A campaign already stored, with its three recipients. *)
Definition q3 : Campaign :=
  mkCampaign 10 "Q3" None "Aviso" "Hola [LINK]" [1; 2; 3]%N "active" 0 0 1000.

Definition running : Db := mkDb [ana; juan; pedro] [q3] [] [].

Definition visit (campaignId userId : ObjectId) : TrackRequest :=
  mkTrackRequest campaignId userId token (Some "10.0.0.7") None None (Some "curl/8").

(** A request to the compatibility route. *)
Definition manual (campaignId userId : ObjectId) : ClickRequest :=
  mkClickRequest campaignId userId (Some token) (Some "10.0.0.7") (Some "curl/8").

Definition submit (campaignId userId : ObjectId) (password : string) : PhishingRequest :=
  mkPhishingRequest (Some campaignId) (Some userId) (Some "ana@empresa.com")
    (Some password).

(** Two users of one department, one of them without clicks, and a
    user whose department is an inherited name. *)
Definition clara : User := mkUser 4 "Clara" "clara@empresa.com" (Some "constructor").

Definition clicking : Db :=
  mkDb [ana; juan; pedro; clara] [q3]
    [ mkClick 10 2 None None None 1; mkClick 10 2 None None None 2;
      mkClick 10 2 None None None 3; mkClick 10 1 None None None 4;
      mkClick 10 4 None None None 5; mkClick 10 9 None None None 6 ] [].

(** The store after a Click for campaign 42, which nobody has, sent to
    the compatibility route. *)
Definition strayed : Db := snd (apiTrackClick 2000 (manual 42 2) running).

(** A request whose body carries the id 42. *)
Definition adopt : CampaignRequest :=
  mkCampaignRequest (Some 42%N) (Some "Q4") None (Some "Aviso") (Some "Hola [LINK]")
    (Some [1%N]) None None None None.

Definition adopted : Db := snd (fst (createCampaign simulated (calm 11) adopt strayed)).

(** The running campaign after one visit of its link. *)
Definition visited : Db := snd (trackClick 2000 (visit 10 1) running).

End Scenario.

(** ** The decoy page (GET /phishing/:campaignId/:userId, SMTP build) *)

(** What the route sends: the not-found text, or the decoy page, a fixed
    document whose script posts the two route parameters to
    /track/phishing together with the e-mail and password typed in. *)
Inductive PageBody : Type :=
| NotFoundText (s : string)
| DecoyPage (campaignId userId : string).

Definition phishingPage (campaignId userId : ObjectId) (db : Db) : nat * PageBody :=
  match findCampaign campaignId db, findUser userId db with
  | Some _, Some _ => (200, DecoyPage (oidString campaignId) (oidString userId))
  | _, _ => (404, NotFoundText ("P" ++ a_acute ++ "gina no encontrada"))
  end.

(** The request the script of the page sends for what was typed in. *)
Definition formPost (campaignId userId : ObjectId) (email password : string)
    : PhishingRequest :=
  mkPhishingRequest (Some campaignId) (Some userId) (Some email) (Some password).

(** ** Education progress and certificates *)

Record EducationProgress := mkProgress {
  edu_userId : ObjectId;
  completedModules : list nat;
  certificateGenerated : bool;
  lastUpdated : nat
}.

(** The EducationProgress collection. *)
Definition Education := list EducationProgress.

(** [EducationProgress.findOne({ userId })] *)
Definition findProgress (userId : ObjectId) (edu : Education) : option EducationProgress :=
  find (fun p => N.eqb (edu_userId p) userId) edu.

(** [progress.save()] of a document that [findOne] returned: it takes
    the place of the stored one. *)
Fixpoint saveFound (p : EducationProgress) (edu : Education) : Education :=
  match edu with
  | [] => []
  | q :: rest =>
      if N.eqb (edu_userId q) (edu_userId p) then p :: rest
      else q :: saveFound p rest
  end.

(** [progress.save()]: a found document is replaced, a new one is
    added. *)
Definition saveProgress (p : EducationProgress) (edu : Education) : Education :=
  match findProgress (edu_userId p) edu with
  | Some _ => saveFound p edu
  | None => (edu ++ [p])%list
  end.

(** GET /api/education/:userId: the progress of the user, created
    empty on first access. *)
Definition getEducation (clock : nat) (userId : ObjectId) (edu : Education)
    : nat * EducationProgress * Education :=
  match findProgress userId edu with
  | Some progress => (200, progress, edu)
  | None =>
      let progress := mkProgress userId [] false clock in
      (200, progress, saveProgress progress edu)
  end.

(** [completedModules.includes(moduleId)] for a module number. *)
Definition includes (moduleId : nat) (modules : list nat) : bool :=
  existsb (Nat.eqb moduleId) modules.

(** POST /api/education/:userId/complete with a module number in the
    body. *)
Definition completeModule (clock : nat) (userId : ObjectId) (moduleId : nat)
    (edu : Education) : nat * EducationProgress * Education :=
  let progress :=
    match findProgress userId edu with
    | Some p => p
    | None => mkProgress userId [] false clock
    end in
  if includes moduleId (completedModules progress) then (200, progress, edu)
  else
    let progress' :=
      mkProgress (edu_userId progress) (completedModules progress ++ [moduleId])%list
        (certificateGenerated progress) clock in
    (200, progress', saveProgress progress' edu).

Definition markGenerated (p : EducationProgress) : EducationProgress :=
  mkProgress (edu_userId p) (completedModules p) true (lastUpdated p).

(** [s.toUpperCase()] on a string of digits and ASCII letters. *)
Definition upperChar (c : ascii) : ascii :=
  let n := nat_of_ascii c in
  if ((97 <=? n) && (n <=? 122))%nat then ascii_of_nat (n - 32) else c.

Fixpoint toUpperCase (s : string) : string :=
  match s with
  | EmptyString => EmptyString
  | String c r => String (upperChar c) (toUpperCase r)
  end.

(** [crypto.randomBytes(8).toString('hex').toUpperCase()] for the eight
    bytes that make up the number [bytes]. *)
Definition certificateIdOf (bytes : N) : string :=
  toUpperCase (JS.hexString 16 bytes).

Record Certificate := mkCertificate {
  cert_userName : string;
  cert_email : string;
  cert_completedModules : nat;
  cert_date : string;
  certificateId : string
}.

(** What a certificate route answers: an error message, the message of
    the TypeError raised by reading a property of [null], the message
    of the CastError raised for a value that is no ObjectId, the issued
    certificate, or the PDF, given by the file name of its
    Content-Disposition header and the data drawn into it (the user's
    name, shown in upper case, the number of modules, the date and the
    certificate id). *)
Inductive CertBody : Type :=
| CertError (error : string)
| CertTypeError
| CertCastError (value : string)
| CertIssued (certificate : Certificate)
| CertPdf (fileName userName : string) (modules : nat) (date certId : string).

Definition notAllModules : string :=
  "No se han completado todos los m" ++ String (ascii_of_nat 243) "dulos".

(** [!progress || progress.completedModules.length < 3] *)
Definition notEligible (progress : option EducationProgress) : bool :=
  match progress with
  | None => true
  | Some p => (List.length (completedModules p) <? 3)%nat
  end.

(** POST /api/certificates/generate.  [today] is the date of the call
    as [toLocaleDateString('es-ES')] renders it and [bytes] the random
    bytes drawn. *)
Definition generateCertificate (today : string) (bytes : N) (userId : ObjectId)
    (db : Db) (edu : Education) : nat * CertBody * Education :=
  let progress := findProgress userId edu in
  let user := findUser userId db in
  match progress with
  | Some p =>
      if (List.length (completedModules p) <? 3)%nat
      then (400, CertError notAllModules, edu)
      else
        let edu' := saveProgress (markGenerated p) edu in
        match user with
        | None => (400, CertTypeError, edu')
        | Some u =>
            (200,
             CertIssued
               (mkCertificate (user_name u) (user_email u)
                  (List.length (completedModules p)) today (certificateIdOf bytes)),
             edu')
        end
  | None => (400, CertError notAllModules, edu)
  end.

(** [name.replace(/\s+/g, '-')]: each run of white space becomes one
    hyphen.  [inRun] tells that the previous character was white space. *)
Fixpoint hyphenate (inRun : bool) (s : string) : string :=
  match s with
  | EmptyString => EmptyString
  | String c r =>
      if JS.isWhiteSpace c
      then if inRun then hyphenate true r else String "-" (hyphenate true r)
      else String c (hyphenate false r)
  end.

Definition pdfFileName (u : User) : string :=
  "certificado-" ++ hyphenate false (user_name u) ++ ".pdf".

Fixpoint allChars (p : ascii -> bool) (s : string) : bool :=
  match s with
  | EmptyString => true
  | String c r => p c && allChars p r
  end.

(** The characters Node accepts in the value of a header: TAB, the
    printable ASCII characters and the code units from 128 to 255. *)
Definition validHeaderChar (c : ascii) : bool :=
  let n := nat_of_ascii c in
  ((n =? 9) || ((32 <=? n) && (n <=? 126)) || (128 <=? n))%nat.

(** The value the route gives the Content-Disposition header. *)
Definition contentDisposition (u : User) : string :=
  "attachment; filename=" ++ dquote ++ pdfFileName u ++ dquote.

(** The message of the error [res.setHeader] throws for a value with a
    character it does not accept. *)
Definition invalidHeader : string :=
  "Invalid character in header content [" ++ dquote ++ "Content-Disposition"
    ++ dquote ++ "]".

(** GET /api/certificates/download/:userId for an id that casts.  The
    drawing of the PDF is left out.  [today] is the date as
    [toLocaleDateString] renders it with the options of the route.
    [res.setHeader] throws for a header value with a character outside
    [validHeaderChar]: nothing has been sent by then, so the [catch]
    answers 500 with the message of the error, and the record is not
    flagged. *)
Definition downloadCertificate (today : string) (bytes : N) (userId : ObjectId)
    (db : Db) (edu : Education) : nat * CertBody * Education :=
  match findUser userId db with
  | None => (404, CertError "Usuario no encontrado", edu)
  | Some u =>
      match findProgress userId edu with
      | Some p =>
          if (List.length (completedModules p) <? 3)%nat
          then (400, CertError notAllModules, edu)
          else if allChars validHeaderChar (contentDisposition u)
          then
            (200,
             CertPdf (pdfFileName u) (user_name u) (List.length (completedModules p))
               today (certificateIdOf bytes),
             if certificateGenerated p then edu else saveProgress (markGenerated p) edu)
          else (500, CertError invalidHeader, edu)
      | None => (400, CertError notAllModules, edu)
      end
  end.

(** GET /api/certificates/download/:userId, the whole handler: the
    first query rejects for a parameter that cannot be cast, and the
    [catch] answers 500 with the message of the CastError. *)
Definition downloadRoute (today : string) (bytes : N) (userId : IdParam)
    (db : Db) (edu : Education) : nat * CertBody * Education :=
  match userId with
  | Castable id => downloadCertificate today bytes id db edu
  | Uncastable text => (500, CertCastError text, edu)
  end.

(** ** The handlers as steps of the store *)

(** One call of a handler that can write to the store. *)
Inductive step (db : Db) : Db -> Prop :=
| step_createCampaign (b : Build) (out : Outside) (req : CampaignRequest) :
    step db (snd (fst (createCampaign b out req db)))
| step_trackClick (clock : nat) (r : TrackRequest) :
    step db (snd (trackClick clock r db))
| step_trackPhishing (clock : nat) (r : PhishingRequest) :
    step db (snd (fst (trackPhishing clock r db)))
| step_apiTrackClick (clock : nat) (r : ClickRequest) :
    step db (snd (apiTrackClick clock r db))
| step_apiTrackCredentials (clock : nat) (r : CredentialRequest) :
    step db (snd (apiTrackCredentials clock r db)).

(** Any number of calls, one after the other. *)
Inductive steps (db : Db) : Db -> Prop :=
| steps_none : steps db db
| steps_more (db1 db2 : Db) : steps db db1 -> step db1 db2 -> steps db db2.

(** Campaign [c'] is campaign [c] with counters that are not lower. *)
Definition grownFrom (c c' : Campaign) : Prop :=
  campaign_id c' = campaign_id c /\ campaign_name c' = campaign_name c
  /\ templateId c' = templateId c /\ customSubject c' = customSubject c
  /\ customBody c' = customBody c /\ targetUsers c' = targetUsers c
  /\ status c' = status c /\ sentAt c' = sentAt c
  /\ clicks c <= clicks c' /\ credentials c <= credentials c'.

(** Store [db'] holds all that [db] holds: the same users, every event
    of [db] first and in the same order, and every campaign of [db]
    first, in the same order, with counters that are not lower. *)
Definition extends (db db' : Db) : Prop :=
  Users db' = Users db
  /\ (exists more, Clicks db' = (Clicks db ++ more)%list)
  /\ (exists more, Credentials db' = (Credentials db ++ more)%list)
  /\ (exists grown more,
        Campaigns db' = (grown ++ more)%list /\ Forall2 grownFrom (Campaigns db) grown).

(** Any number of calls of the four recording routes, one after the
    other. *)
Inductive recorded (db : Db) : Db -> Prop :=
| recorded_none : recorded db db
| recorded_link (db1 : Db) (clock : nat) (r : TrackRequest) :
    recorded db db1 -> recorded db (snd (trackClick clock r db1))
| recorded_form (db1 : Db) (clock : nat) (r : PhishingRequest) :
    recorded db db1 -> recorded db (snd (fst (trackPhishing clock r db1)))
| recorded_click (db1 : Db) (clock : nat) (r : ClickRequest) :
    recorded db db1 -> recorded db (snd (apiTrackClick clock r db1))
| recorded_credentials (db1 : Db) (clock : nat) (r : CredentialRequest) :
    recorded db db1 -> recorded db (snd (apiTrackCredentials clock r db1)).

(** ** Counts the statistics are compared with *)

(** Whether the Click counts for department [k]: its user is stored and
    has that department, which is not the empty string. *)
Definition clickOfDept (k : string) (db : Db) (c : Click) : bool :=
  match findUser (click_userId c) db with
  | Some u => JS.truthyOpt (user_department u) && (deptKey (user_department u) =? k)
  | None => false
  end.

Definition clicksOfDept (k : string) (db : Db) : nat :=
  List.length (filter (clickOfDept k db) (Clicks db)).

(** Click events whose user is stored. *)
Definition clicksOfKnownUsers (db : Db) : nat :=
  List.length (filter (fun c => oidIn (click_userId c) (map user_id (Users db))) (Clicks db)).

(** The position-by-position count of the messages the transporter
    accepted. *)
Fixpoint acceptedFrom (b : Build) (out : Outside) (c : Campaign) (i : nat)
    (us : list User) : nat :=
  match us with
  | [] => 0
  | u :: rest =>
      (match randomHex out i with
       | Some token => if sendMail out i (emailFor b c u token) then 1 else 0
       | None => 0
       end) + acceptedFrom b out c (S i) rest
  end.

(** Whether [pat] occurs in [s]. *)
Fixpoint occursIn (pat s : string) : bool :=
  prefix pat s
  || match s with
     | EmptyString => false
     | String _ r => occursIn pat r
     end.

Fixpoint hasDollar (s : string) : bool :=
  match s with
  | EmptyString => false
  | String c r => (c =? "$")%char || hasDollar r
  end.

(** ** Properties of the education records *)

(** The modules a user has completed, none when there is no record. *)
Definition modulesOf (userId : ObjectId) (edu : Education) : list nat :=
  match findProgress userId edu with
  | Some p => completedModules p
  | None => []
  end.

(** One record per user at most, and no module listed twice. *)
Definition tidy (edu : Education) : Prop :=
  NoDup (map edu_userId edu) /\ Forall (fun p => NoDup (completedModules p)) edu.

Definition isUpperHex (c : ascii) : bool :=
  let n := nat_of_ascii c in
  (((48 <=? n) && (n <=? 57)) || ((65 <=? n) && (n <=? 70)))%nat.

(** The order of the labels of the vulnerability report. *)
Definition riskRank (label : string) : nat :=
  if label =? "high" then 2 else if label =? "medium" then 1 else 0.

(** Each user keeps its place and its label does not go down. *)
Definition notLower (before after : list (ObjectId * string)) : Prop :=
  Forall2 (fun a b => fst a = fst b /\ riskRank (snd a) <= riskRank (snd b)) before after.

(** ** What the rates, the risk counts and the messages are compared with *)

(** A length that a JavaScript array can have. *)
Definition arrayLength (n : nat) : Prop := (Z.of_nat n < 2 ^ 32)%Z.

(** The numeral of [n] tenths: the decimal digits of [n / 10], a point
    and the last digit of [n]. *)
Definition oneDecimal (n : N) : string :=
  NilEmpty.string_of_uint (N.to_uint (n / 10)) ++ "."
    ++ NilEmpty.string_of_uint (N.to_uint (n mod 10)).

(** [n] tenths is [events / emails * 100] rounded to one decimal: the
    two differ by 0.05 at most, up to the rounding of the division and
    of the multiplication on binary64 Numbers, which is below 0.0005. *)
Definition roundsPercent (events emails : nat) (n : N) : Prop :=
  (200 * Z.abs (Z.of_N n * Z.of_nat emails - 1000 * Z.of_nat events)
   <= 101 * Z.of_nat emails)%Z.

(** The users that the RiskScorer puts at a level. *)
Definition usersAt (level : RiskLevel) (db : Db) : list User :=
  filter
    (fun u =>
       match score (clicksOf u db) (credsOf u db), level with
       | Low, Low | Medium, Medium | High, High => true
       | _, _ => false
       end)
    (Users db).

(** The recipients whose token was drawn, each with its token, in the
    order of the recipients; [i] is the position of the first. *)
Fixpoint drawnFor (out : Outside) (i : nat) (us : list User) : list (User * string) :=
  match us with
  | [] => []
  | u :: rest =>
      (match randomHex out i with
       | Some token => [(u, token)]
       | None => []
       end ++ drawnFor out (S i) rest)%list
  end.

(** A text cut at its line feeds. *)
Fixpoint linesOf (s : string) : list string :=
  match s with
  | EmptyString => [EmptyString]
  | String c r =>
      if (c =? JS.LF)%char then EmptyString :: linesOf r
      else
        match linesOf r with
        | l :: ls => String c l :: ls
        | [] => [String c EmptyString]
        end
  end.

(** Lines put together again with <br> between them. *)
Fixpoint joinBr (ls : list string) : string :=
  match ls with
  | [] => EmptyString
  | l :: rest =>
      match rest with
      | [] => l
      | _ :: _ => l ++ "<br>" ++ joinBr rest
      end
  end.

(** [text] is [body] with its first [LINK] replaced: a body without
    the placeholder is left as it is; otherwise what precedes and what
    follows the first placeholder is kept, and what stands in its place
    is [url] when [url] holds no dollar sign (a dollar sign in the
    replacement is a pattern of [String.prototype.replace]). *)
Definition linkPlaced (body url text : string) : Prop :=
  (occursIn "[LINK]" body = false /\ text = body)
  \/ exists before after middle,
       body = before ++ "[LINK]" ++ after
       /\ (forall before' after',
             body = before' ++ "[LINK]" ++ after' ->
             String.length before <= String.length before')
       /\ text = before ++ middle ++ after
       /\ (hasDollar url = false -> middle = url).

(** [mail] is the message of campaign [c] for recipient [u] with token
    [token]: addressed to the recipient, under the subject of the
    campaign, with the body as text, the recipient's tracking URL in
    place of the first [LINK], and with that text as HTML, its lines
    joined by <br> inside the container of the build and nothing
    escaped. *)
Definition rendering (b : Build) (c : Campaign) (u : User) (token : string)
    (mail : MailOptions) : Prop :=
  mail_from mail = fromHeader b
  /\ mail_to mail = user_email u
  /\ mail_subject mail = customSubject c
  /\ linkPlaced (customBody c)
       (baseUrl b ++ "/track/" ++ oidString (campaign_id c) ++ "/"
          ++ oidString (user_id u) ++ "/" ++ token)
       (mail_text mail)
  /\ mail_html mail = htmlOf b (joinBr (linesOf (mail_text mail)))
  /\ (hasNewline (mail_text mail) = false -> mail_html mail = htmlOf b (mail_text mail)).

(** ** More concrete stores *)

Module Classroom.

Definition beginner : EducationProgress := mkProgress 1 [1; 2] false 500.
Definition graduate : EducationProgress := mkProgress 2 [1; 2; 3] false 600.

(** A progress document of an id that no user has. *)
Definition orphan : EducationProgress := mkProgress 9 [1; 2; 3] false 700.

Definition records : Education := [beginner; graduate; orphan].

End Classroom.

Module Delivery.

(** The token source throws for the recipient at position 1; every
    message is accepted. *)
Definition patchy (id : ObjectId) : Outside :=
  mkOutside 1000 id (fun i => if Nat.eqb i 1 then None else Some Scenario.token)
    (fun _ _ => true).

End Delivery.

(** * Properties *)

(** ** JavaScript primitives *)

Example trim_example : JS.trim ("  a b" ++ newline) = "a b".
Proof. reflexivity. Qed.

Example replace_first_only :
  JS.replace "[LINK]" "URL" "a [LINK] b [LINK]" = "a URL b [LINK]".
Proof. reflexivity. Qed.

Example replace_dollar_patterns :
  JS.replace "[LINK]" "u$&v$$w$1" "a[LINK]b" = "au[LINK]v$w$1b".
Proof. reflexivity. Qed.

Example toFixed1_third : JS.toFixed1 (JS.percent 1 3) = Some "33.3".
Proof. vm_compute. reflexivity. Qed.

Example toFixed1_tie : JS.toFixed1 (JS.percent 1 400) = Some "0.3".
Proof. vm_compute. reflexivity. Qed.

Lemma trim_empty : JS.trim "" = "".
Proof. reflexivity. Qed.

Lemma string_eqb_empty (s : string) : (s =? "") = true <-> s = "".
Proof. apply String.eqb_eq. Qed.

(** The guard of a required field fires exactly on a field that is
    missing or empty once trimmed. *)
Lemma blank_iff (v : option string) : blank v = true <-> emptyAfterTrim v.
Proof.
  destruct v as [s|]; simpl; [|tauto].
  unfold JS.truthy. rewrite !negb_involutive, orb_true_iff, !string_eqb_empty.
  split.
  - intros [->|H]; [apply trim_empty|exact H].
  - intros H. now right.
Qed.

Lemma noTargets_iff (v : option (list ObjectId)) : noTargets v = true <-> emptyTargets v.
Proof.
  destruct v as [ids|]; simpl; [|tauto].
  rewrite Nat.eqb_eq. destruct ids; simpl; split; intros H; try reflexivity; discriminate.
Qed.

(** ** Validation (POST /api/campaigns) *)

(** Walks through the four guards of the handler: [tac] closes the goal
    of each rejected request, and the goal that remains is the one of a
    request that passed them all. *)
Ltac through_guards req tac :=
  unfold createCampaign;
  destruct (blank (req_name req)); [tac|];
  destruct (blank (req_customSubject req)); [tac|];
  destruct (blank (req_customBody req)); [tac|];
  destruct (noTargets (req_targetUsers req)); [tac|].

(** C5. A request whose name, subject or body is missing or empty after
    trimming, or whose target-user list is missing or empty, is answered
    with status 400 and an error message; the store is left as it was
    and nothing is handed to the transporter. *)
Theorem createCampaign_rejects_blank (b : Build) (out : Outside)
    (req : CampaignRequest) (db : Db) :
  emptyAfterTrim (req_name req) \/ emptyAfterTrim (req_customSubject req)
  \/ emptyAfterTrim (req_customBody req) \/ emptyTargets (req_targetUsers req) ->
  exists msg, createCampaign b out req db = (mkResponse 400 (ErrorJson msg), db, []).
Proof.
  rewrite <- !blank_iff, <- noTargets_iff. intros H.
  through_guards req ltac:(eauto).
  destruct H as [H|[H|[H|H]]]; discriminate.
Qed.

Lemma createCampaign_rejects_blank_witness :
  exists msg,
    createCampaign simulated (Scenario.calm 10) Scenario.blankName Scenario.staff
    = (mkResponse 400 (ErrorJson msg), Scenario.staff, []).
Proof.
  apply (createCampaign_rejects_blank simulated (Scenario.calm 10) Scenario.blankName
           Scenario.staff).
  left. reflexivity.
Defined.

(** ** Bookkeeping of the dispatch loop *)

Section Loop.

Variables (b : Build) (out : Outside) (c : Campaign).

(** Each pass of the loop adds one to exactly one of the counters. *)
Lemma sendOne_counts (i : nat) (u : User) (t : Tally) :
  emailsSent (sendOne b out c i u t) + emailsFailed (sendOne b out c i u t)
  = emailsSent t + emailsFailed t + 1.
Proof.
  unfold sendOne. destruct (randomHex out i) as [tok|]; simpl; [|lia].
  destruct (sendMail out i (emailFor b c u tok)); simpl; lia.
Qed.

Lemma sendAll_counts (us : list User) :
  forall i t,
    emailsSent (sendAll b out c i us t) + emailsFailed (sendAll b out c i us t)
    = emailsSent t + emailsFailed t + List.length us.
Proof.
  induction us as [|u rest IH]; intros i t; simpl; [lia|].
  rewrite IH, sendOne_counts. lia.
Qed.

(** A failed pass changes neither the store nor the passes after it:
    the loop always runs to the end of the list. *)
Lemma sendAll_app (us vs : list User) :
  forall i t,
    sendAll b out c i (us ++ vs)%list t
    = sendAll b out c (i + List.length us) vs (sendAll b out c i us t).
Proof.
  induction us as [|u rest IH]; intros i t; simpl.
  - now rewrite Nat.add_0_r.
  - rewrite IH. f_equal. lia.
Qed.

End Loop.

Lemma oidIn_In (id : ObjectId) (ids : list ObjectId) : oidIn id ids = true <-> In id ids.
Proof.
  unfold oidIn. rewrite existsb_exists. split.
  - intros [x [Hx E]]. apply N.eqb_eq in E. now subst.
  - intros H. exists id. split; [exact H|apply N.eqb_refl].
Qed.

Lemma findUser_In (id : ObjectId) (db : Db) (u : User) :
  findUser id db = Some u -> In u (Users db) /\ user_id u = id.
Proof.
  unfold findUser. intros H. apply find_some in H. now rewrite N.eqb_eq in H.
Qed.

(** The users found by the [$in] query keep distinct ids. *)
Lemma found_ids_distinct (ids : list ObjectId) (us : list User) :
  NoDup (map user_id us) ->
  NoDup (map user_id (filter (fun u => oidIn (user_id u) ids) us)).
Proof.
  intros Hnd. induction us as [|u rest IH]; simpl; [constructor|].
  apply NoDup_cons_iff in Hnd as [Hfresh Hrest].
  destruct (oidIn (user_id u) ids); [|exact (IH Hrest)].
  simpl. apply NoDup_cons; [|exact (IH Hrest)].
  rewrite in_map_iff. intros (v & Ev & Hv). apply Hfresh.
  apply filter_In in Hv. apply in_map_iff. exists v. tauto.
Qed.

(** The [$in] query finds one user per listed id when the listed ids
    are distinct and each is the id of a stored user. *)
Lemma findUsersIn_length (ids : list ObjectId) (db : Db) :
  NoDup ids -> NoDup (map user_id (Users db)) ->
  (forall id, In id ids -> exists u, findUser id db = Some u) ->
  List.length (findUsersIn ids db) = List.length ids.
Proof.
  intros Hids Hus Hall. unfold findUsersIn.
  rewrite <- (length_map user_id). apply Nat.le_antisymm.
  - apply NoDup_incl_length; [now apply found_ids_distinct|].
    intros id Hin. apply in_map_iff in Hin as [u [E Hu]].
    apply filter_In in Hu as [_ Hu]. apply oidIn_In in Hu. now subst.
  - apply NoDup_incl_length; [exact Hids|].
    intros id Hin. destruct (Hall id Hin) as [u Hu].
    apply findUser_In in Hu as [Hu E]. apply in_map_iff. exists u. split; [exact E|].
    apply filter_In. split; [exact Hu|]. apply oidIn_In. now rewrite E.
Qed.

Lemma passesValidation_true (req : CampaignRequest) :
  passesValidation req = true ->
  blank (req_name req) = false /\ blank (req_customSubject req) = false
  /\ blank (req_customBody req) = false /\ noTargets (req_targetUsers req) = false.
Proof.
  unfold passesValidation. rewrite !andb_true_iff, !negb_true_iff. tauto.
Qed.

(** The shape of the answer to a request that passes validation and
    whose document is stored. *)
Lemma createCampaign_created (b : Build) (out : Outside) (req : CampaignRequest) (db : Db) :
  passesValidation req = true ->
  findCampaign (campaign_id (newCampaign out req)) db = None ->
  let campaign := newCampaign out req in
  let db' := insertCampaign campaign db in
  let t := sendAll b out campaign 0 (findUsersIn (declaredTargets req) db)
             (mkTally 0 0 []) in
  createCampaign b out req db
  = (mkResponse 201
       (CampaignCreated campaign (summary b t) (emailsSent t) (emailsFailed t)),
     db', outbox t).
Proof.
  intros Hv Hfresh. apply passesValidation_true in Hv as (H1 & H2 & H3 & H4).
  unfold createCampaign. rewrite H1, H2, H3, H4. cbv zeta. rewrite Hfresh. reflexivity.
Qed.

(** C1, as the code has it.  A request that passes validation and whose
    campaign is stored is answered with status 201, and emailsSent +
    emailsFailed is the number of stored users whose id occurs in the
    target list, whatever the transporter and the token source do at
    each position.  That number is the length of the target list when
    the listed ids are pairwise distinct and each is the id of a stored
    user. *)
Theorem createCampaign_counts_found (b : Build) (out : Outside)
    (req : CampaignRequest) (db : Db) :
  passesValidation req = true ->
  findCampaign (campaign_id (newCampaign out req)) db = None ->
  exists msg sent failed mails,
    createCampaign b out req db
    = (mkResponse 201 (CampaignCreated (newCampaign out req) msg sent failed),
       insertCampaign (newCampaign out req) db, mails)
    /\ sent + failed = List.length (findUsersIn (declaredTargets req) db)
    /\ (NoDup (declaredTargets req) ->
        NoDup (map user_id (Users db)) ->
        (forall id, In id (declaredTargets req) -> exists u, findUser id db = Some u) ->
        sent + failed = List.length (declaredTargets req)).
Proof.
  intros Hv Hfresh. rewrite (createCampaign_created b out req db Hv Hfresh).
  do 4 eexists. split; [reflexivity|].
  rewrite sendAll_counts. simpl. split; [reflexivity|].
  intros H1 H2 H3. now apply findUsersIn_length.
Qed.

Lemma createCampaign_counts_found_witness :
  exists msg sent failed mails,
    createCampaign simulated (Scenario.flaky 10) Scenario.threeTargets Scenario.staff
    = (mkResponse 201
         (CampaignCreated (newCampaign (Scenario.flaky 10) Scenario.threeTargets)
            msg sent failed),
       insertCampaign (newCampaign (Scenario.flaky 10) Scenario.threeTargets)
         Scenario.staff,
       mails)
    /\ sent + failed
       = List.length (findUsersIn (declaredTargets Scenario.threeTargets) Scenario.staff)
    /\ (NoDup (declaredTargets Scenario.threeTargets) ->
        NoDup (map user_id (Users Scenario.staff)) ->
        (forall id, In id (declaredTargets Scenario.threeTargets) ->
                    exists u, findUser id Scenario.staff = Some u) ->
        sent + failed = List.length (declaredTargets Scenario.threeTargets)).
Proof.
  apply (createCampaign_counts_found simulated (Scenario.flaky 10) Scenario.threeTargets
           Scenario.staff); reflexivity.
Defined.

(** With a transporter that rejects every other message: one sent, two
    failed, three recipients. *)
Example createCampaign_flaky :
  exists campaign msg mails,
    createCampaign simulated (Scenario.flaky 10) Scenario.threeTargets Scenario.staff
    = (mkResponse 201 (CampaignCreated campaign msg 1 2),
       insertCampaign campaign Scenario.staff, mails)
    /\ List.length mails = 3.
Proof.
  do 3 eexists. split; [vm_compute; reflexivity|]. reflexivity.
Qed.

(** C1, as stated, fails: a listed id that is not the id of a stored
    user is declared but never looped over, so one declared recipient
    gives emailsSent + emailsFailed = 0. *)
Lemma createCampaign_unknown_target_uncounted :
  passesValidation (Scenario.request "Hola [LINK]" [7%N]) = true
  /\ List.length (declaredTargets (Scenario.request "Hola [LINK]" [7%N])) = 1
  /\ exists campaign msg,
       createCampaign simulated (Scenario.calm 10) (Scenario.request "Hola [LINK]" [7%N])
         Scenario.staff
       = (mkResponse 201 (CampaignCreated campaign msg 0 0),
          insertCampaign campaign Scenario.staff, [])
       /\ 0 + 0 <> List.length (targetUsers campaign).
Proof.
  split; [reflexivity|]. split; [reflexivity|].
  do 2 eexists. split; [vm_compute; reflexivity|]. simpl. discriminate.
Qed.

(** The same happens when an id is listed twice: the query returns
    the user once. *)
Example createCampaign_duplicate_target :
  exists campaign msg mails,
    createCampaign simulated (Scenario.calm 10) (Scenario.request "Hola [LINK]" [1; 1]%N)
      Scenario.staff
    = (mkResponse 201 (CampaignCreated campaign msg 1 0),
       insertCampaign campaign Scenario.staff, mails)
    /\ List.length (targetUsers campaign) = 2.
Proof.
  do 3 eexists. split; [vm_compute; reflexivity|]. reflexivity.
Qed.

(** ** What the transporter is handed *)

Lemma sendAll_outbox (b : Build) (out : Outside) (c : Campaign) (us : list User) :
  forall i t,
    outbox (sendAll b out c i us t) = (outbox t ++ mailsFor b out c i us)%list.
Proof.
  induction us as [|u rest IH]; intros i t; simpl.
  - now rewrite app_nil_r.
  - rewrite IH. unfold sendOne. destruct (randomHex out i) as [tok|]; simpl.
    + destruct (sendMail out i (emailFor b c u tok)); simpl; now rewrite <- app_assoc.
    + reflexivity.
Qed.

Lemma mailsFor_shape (b : Build) (out : Outside) (c : Campaign) (us : list User) :
  forall i,
    Forall (fun mail => exists u token, In u us /\ mail = emailFor b c u token)
      (mailsFor b out c i us).
Proof.
  induction us as [|u rest IH]; intros i; simpl; [constructor|].
  apply Forall_app. split.
  - destruct (randomHex out i) as [tok|]; constructor; [|constructor].
    exists u, tok. split; [now left|reflexivity].
  - eapply Forall_impl; [|apply IH].
    intros mail (u' & tok & Hin & E). exists u', tok. split; [now right|exact E].
Qed.

(** When every token is drawn there is one message per recipient. *)
Lemma mailsFor_all (b : Build) (out : Outside) (c : Campaign) (us : list User) :
  forall i,
    (forall j, randomHex out j <> None) ->
    map mail_to (mailsFor b out c i us) = map user_email us.
Proof.
  induction us as [|u rest IH]; intros i Hdraw; simpl; [reflexivity|].
  destruct (randomHex out i) as [tok|] eqn:E; [|now destruct (Hdraw i)].
  simpl. f_equal. now apply IH.
Qed.

(** Only line feeds are rewritten: any other character, an HTML
    metacharacter included, is copied as it is. *)
Lemma replaceNewlines_verbatim (s : string) :
  hasNewline s = false -> JS.replaceNewlines s = s.
Proof.
  induction s as [|ch r IH]; simpl; [reflexivity|].
  intros H. apply orb_false_iff in H as [H1 H2]. rewrite H1. f_equal. now apply IH.
Qed.

Lemma createCampaign_outbox (b : Build) (out : Outside) (req : CampaignRequest) (db : Db) :
  snd (createCampaign b out req db) = []
  \/ snd (createCampaign b out req db)
     = mailsFor b out (newCampaign out req) 0 (findUsersIn (declaredTargets req) db).
Proof.
  through_guards req ltac:(now left).
  cbv zeta. destruct (findCampaign _ db); [now left|].
  right. simpl. now rewrite sendAll_outbox.
Qed.

(** C9, as stated, fails: a body with markup reaches the transporter
    with its metacharacters as they were written. *)
Lemma createCampaign_html_not_escaped :
  exists resp db' mail,
    createCampaign simulated (Scenario.calm 10) (Scenario.request "<b>1 & 2</b>" [1%N])
      Scenario.staff
    = (resp, db', [mail])
    /\ mail_text mail = "<b>1 & 2</b>"
    /\ mail_html mail = "<p><b>1 & 2</b></p>"
    /\ mail_html mail <> htmlOf simulated (escapeHtml (mail_text mail)).
Proof.
  do 3 eexists. split; [vm_compute; reflexivity|].
  split; [reflexivity|]. split; [reflexivity|]. vm_compute. discriminate.
Qed.

Example escapeHtml_example : escapeHtml "<b>1 & 2</b>" = "&lt;b&gt;1 &amp; 2&lt;/b&gt;".
Proof. reflexivity. Qed.

(** The SMTP build wraps the same unescaped text in its own container. *)
Example smtp_html_not_escaped :
  map mail_html
    (snd (createCampaign (smtp (mkProcessEnv None None None None)) (Scenario.calm 10)
            (Scenario.request "<i>x</i>" [1%N]) Scenario.staff))
  = [ "<div style=" ++ dquote
        ++ "font-family: Arial, sans-serif; max-width: 600px; margin: 0 auto;"
        ++ dquote ++ ">" ++ newline ++ "              <i>x</i>" ++ newline
        ++ "            </div>" ].
Proof. vm_compute. reflexivity. Qed.

Example trackingUrl_example :
  trackingUrl simulated Scenario.q3 Scenario.ana Scenario.token
  = "http://localhost:3000/track/00000000000000000000000a/000000000000000000000001/"
      ++ Scenario.token.
Proof. reflexivity. Qed.

(** ** Recording of events *)

Lemma updateFirst_ids (id : ObjectId) (f : Campaign -> Campaign) (cs : list Campaign) :
  (forall c, campaign_id (f c) = campaign_id c) ->
  map campaign_id (updateFirst id f cs) = map campaign_id cs.
Proof.
  intros Hf. induction cs as [|c rest IH]; simpl; [reflexivity|].
  destruct (N.eqb (campaign_id c) id); simpl; [now rewrite Hf|now rewrite IH].
Qed.

(** With distinct ids the update reaches the one campaign that has the
    id and leaves every other campaign as it was. *)
Lemma In_updateFirst (id : ObjectId) (f : Campaign -> Campaign) (cs : list Campaign)
    (c' : Campaign) :
  NoDup (map campaign_id cs) ->
  In c' (updateFirst id f cs) ->
  (exists c, In c cs /\ campaign_id c = id /\ c' = f c)
  \/ (In c' cs /\ campaign_id c' <> id).
Proof.
  induction cs as [|c rest IH]; simpl; intros Hnd Hin; [contradiction|].
  inversion Hnd as [|? ? Hnot Hrest]; subst.
  destruct (N.eqb (campaign_id c) id) eqn:E.
  - apply N.eqb_eq in E. destruct Hin as [<-|Hin].
    + left. exists c. auto.
    + right. split; [now right|]. intros E'. apply Hnot.
      apply in_map_iff. exists c'. split; [congruence|exact Hin].
  - apply N.eqb_neq in E. destruct Hin as [<-|Hin].
    + right. split; [now left|exact E].
    + destruct (IH Hrest Hin) as [(c0 & H0 & H1 & H2)|[H0 H1]].
      * left. exists c0. auto.
      * right. auto.
Qed.

Lemma findCampaign_updateFirst (id : ObjectId) (f : Campaign -> Campaign) (db : Db)
    (c : Campaign) :
  (forall c, campaign_id (f c) = campaign_id c) ->
  findCampaign id db = Some c ->
  findCampaign id (updateCampaign id f db) = Some (f c).
Proof.
  unfold findCampaign, updateCampaign. simpl. intros Hf.
  induction (Campaigns db) as [|c0 rest IH]; simpl; [discriminate|].
  destruct (N.eqb (campaign_id c0) id) eqn:E; simpl.
  - intros [= ->]. now rewrite Hf, E.
  - rewrite E. exact IH.
Qed.

Lemma findCampaign_none_update (id : ObjectId) (f : Campaign -> Campaign) (db : Db) :
  findCampaign id db = None ->
  Campaigns (updateCampaign id f db) = Campaigns db.
Proof.
  unfold findCampaign, updateCampaign. simpl.
  induction (Campaigns db) as [|c0 rest IH]; simpl; [reflexivity|].
  destruct (N.eqb (campaign_id c0) id); [discriminate|].
  intros H. now rewrite IH.
Qed.

Lemma clickEvents_saveClick (id : ObjectId) (k : Click) (db : Db) :
  clickEvents id (saveClick k db)
  = clickEvents id db + (if N.eqb (click_campaignId k) id then 1 else 0).
Proof.
  unfold clickEvents, saveClick. simpl. rewrite filter_app, length_app. simpl.
  now destruct (N.eqb (click_campaignId k) id).
Qed.

Lemma credentialEvents_saveCredential (id : ObjectId) (k : Credential) (db : Db) :
  credentialEvents id (saveCredential k db)
  = credentialEvents id db + (if N.eqb (cred_campaignId k) id then 1 else 0).
Proof.
  unfold credentialEvents, saveCredential. simpl. rewrite filter_app, length_app. simpl.
  now destruct (N.eqb (cred_campaignId k) id).
Qed.

(** Saving a Click and incrementing [clicks] under its campaign id
    keeps a consistent store consistent, whether or not a campaign has
    that id. *)
Lemma click_step_consistent (k : Click) (db : Db) :
  consistent db ->
  consistent (updateCampaign (click_campaignId k) incClicks (saveClick k db)).
Proof.
  intros [Hu Hc]. split.
  - unfold uniqueCampaignIds, updateCampaign. simpl. now rewrite updateFirst_ids.
  - intros c' Hin. unfold updateCampaign in Hin. simpl in Hin.
    apply In_updateFirst in Hin; [|exact Hu].
    change (clickEvents (campaign_id c')
              (updateCampaign (click_campaignId k) incClicks (saveClick k db)))
      with (clickEvents (campaign_id c') (saveClick k db)).
    change (credentialEvents (campaign_id c')
              (updateCampaign (click_campaignId k) incClicks (saveClick k db)))
      with (credentialEvents (campaign_id c') db).
    rewrite clickEvents_saveClick.
    destruct Hin as [(c & Hin & E & ->)|[Hin Hne]].
    + destruct (Hc c Hin) as [H1 H2]. simpl. rewrite E, N.eqb_refl, <- E.
      split; [now rewrite H1|exact H2].
    + destruct (Hc c' Hin) as [H1 H2].
      assert (N.eqb (click_campaignId k) (campaign_id c') = false) as ->
        by (apply N.eqb_neq; congruence).
      split; [lia|exact H2].
Qed.

Lemma credential_step_consistent (k : Credential) (db : Db) :
  consistent db ->
  consistent (updateCampaign (cred_campaignId k) incCredentials (saveCredential k db)).
Proof.
  intros [Hu Hc]. split.
  - unfold uniqueCampaignIds, updateCampaign. simpl. now rewrite updateFirst_ids.
  - intros c' Hin. unfold updateCampaign in Hin. simpl in Hin.
    apply In_updateFirst in Hin; [|exact Hu].
    change (clickEvents (campaign_id c')
              (updateCampaign (cred_campaignId k) incCredentials (saveCredential k db)))
      with (clickEvents (campaign_id c') db).
    change (credentialEvents (campaign_id c')
              (updateCampaign (cred_campaignId k) incCredentials (saveCredential k db)))
      with (credentialEvents (campaign_id c') (saveCredential k db)).
    rewrite credentialEvents_saveCredential.
    destruct Hin as [(c & Hin & E & ->)|[Hin Hne]].
    + destruct (Hc c Hin) as [H1 H2]. simpl. rewrite E, N.eqb_refl, <- E.
      split; [exact H1|now rewrite H2].
    + destruct (Hc c' Hin) as [H1 H2].
      assert (N.eqb (cred_campaignId k) (campaign_id c') = false) as ->
        by (apply N.eqb_neq; congruence).
      split; [exact H1|lia].
Qed.

(** The link route, the whole handler.  A campaign or user parameter
    that cannot be cast is answered with 500 and the text of the
    [catch].  With both cast, a campaign and a user that are both
    stored give the redirect to the decoy page: one more Click is
    stored last, with the token of the URL, the address and the agent
    of the requester ("unknown" where there is none), and the campaign
    of the link has its [clicks] one higher; users and credentials are
    untouched.  If either is not stored the answer is 404.  Nothing is
    written with 500 or 404. *)
Theorem trackRoute_contract (clock : nat) (r : TrackParams) (db : Db) :
  match tp_campaignId r, tp_userId r with
  | Castable campaignId, Castable userId =>
      match findCampaign campaignId db, findUser userId db with
      | Some c, Some _ =>
          fst (trackRoute clock r db)
          = mkResponse 302
              (Redirect ("/phishing/" ++ oidString campaignId ++ "/" ++ oidString userId))
          /\ Clicks (snd (trackRoute clock r db))
             = (Clicks db
                  ++ [mkClick campaignId userId (Some (tp_token r))
                        (Some (JS.orElse (tp_ip r)
                                 (JS.orElse (tp_remoteAddress r)
                                    (JS.orElse (tp_xForwardedFor r) "unknown"))))
                        (Some (JS.orElse (tp_userAgent r) "unknown")) clock])%list
          /\ findCampaign campaignId (snd (trackRoute clock r db)) = Some (incClicks c)
          /\ Users (snd (trackRoute clock r db)) = Users db
          /\ Credentials (snd (trackRoute clock r db)) = Credentials db
      | _, _ =>
          trackRoute clock r db
          = (mkResponse 404 (Text ("P" ++ a_acute ++ "gina no encontrada")), db)
      end
  | _, _ =>
      trackRoute clock r db = (mkResponse 500 (Text "Error interno del servidor"), db)
  end.
Proof.
  unfold trackRoute.
  destruct (tp_campaignId r) as [cid|t1]; [|now destruct (tp_userId r)].
  destruct (tp_userId r) as [uid|t2]; [|reflexivity].
  unfold trackClick. cbn [param_campaignId param_userId param_token userAgentHeader].
  destruct (findCampaign cid db) as [c|] eqn:Ec; [|reflexivity].
  destruct (findUser uid db) as [u|] eqn:Eu; [|reflexivity].
  cbn [fst snd]. split; [reflexivity|]. split.
  - cbn [updateCampaign saveClick Clicks]. do 3 f_equal.
    unfold requesterIp, JS.orElse.
    cbn [req_ip remoteAddress xForwardedFor].
    destruct (tp_ip r) as [ip|]; cbn [JS.truthyOpt getOr].
    + destruct (JS.truthy ip); [reflexivity|].
      destruct (tp_remoteAddress r) as [ra|]; cbn [JS.truthyOpt getOr]; [|reflexivity].
      now destruct (JS.truthy ra).
    + destruct (tp_remoteAddress r) as [ra|]; cbn [JS.truthyOpt getOr]; [|reflexivity].
      now destruct (JS.truthy ra).
  - split; [|split; reflexivity].
    apply findCampaign_updateFirst; [reflexivity|exact Ec].
Qed.

(** The three answers of the link route on the running campaign: a
    visit with stored ids, one with an id that nobody has, and one with
    a parameter that is no ObjectId. *)
Example trackRoute_answers :
  map (fun ids =>
         statusCode
           (fst (trackRoute 2000
                   (mkTrackParams (fst ids) (snd ids) "ab" None None None None)
                   Scenario.running)))
    [ (Castable 10, Castable 1); (Castable 10, Castable 99);
      (Castable 10, Uncastable "me"); (Uncastable "x", Castable 1) ]
  = [302; 404; 500; 500].
Proof. reflexivity. Qed.

(** The [try] block of the link route, for parameters that cast: a
    redirect means one more Click, stored last, and the campaign of the
    link with its [clicks] one higher; otherwise the answer is 404 and
    the store is left as it was. *)
Lemma trackClick_contract (clock : nat) (r : TrackRequest) (db : Db) :
  (exists c u,
      findCampaign (param_campaignId r) db = Some c
      /\ findUser (param_userId r) db = Some u
      /\ statusCode (fst (trackClick clock r db)) = 302
      /\ Clicks (snd (trackClick clock r db))
         = (Clicks db
              ++ [mkClick (param_campaignId r) (param_userId r) (Some (param_token r))
                    (Some (requesterIp r))
                    (Some (JS.orElse (userAgentHeader r) "unknown")) clock])%list
      /\ findCampaign (param_campaignId r) (snd (trackClick clock r db))
         = Some (incClicks c))
  \/ ((findCampaign (param_campaignId r) db = None
       \/ findUser (param_userId r) db = None)
      /\ statusCode (fst (trackClick clock r db)) = 404
      /\ snd (trackClick clock r db) = db).
Proof.
  unfold trackClick.
  destruct (findCampaign (param_campaignId r) db) as [c|] eqn:Ec;
    [destruct (findUser (param_userId r) db) as [u|] eqn:Eu|].
  - left. exists c, u. simpl. repeat split.
    apply findCampaign_updateFirst; [reflexivity|exact Ec].
  - right. simpl. auto.
  - right. simpl. auto.
Qed.

Theorem trackClick_consistent (clock : nat) (r : TrackRequest) (db : Db) :
  consistent db -> consistent (snd (trackClick clock r db)).
Proof.
  intros H. unfold trackClick.
  destruct (findCampaign (param_campaignId r) db);
    [destruct (findUser (param_userId r) db)|]; simpl; try exact H.
  exact (click_step_consistent (mkClick _ _ _ _ _ _) db H).
Qed.

Theorem trackPhishing_consistent (clock : nat) (r : PhishingRequest) (db : Db) :
  consistent db -> consistent (snd (fst (trackPhishing clock r db))).
Proof.
  intros H. unfold trackPhishing.
  destruct (ph_campaignId r) as [cid|]; [destruct (ph_userId r) as [uid|]|];
    simpl; try exact H.
  destruct (findCampaign cid db); [destruct (findUser uid db)|]; simpl; try exact H.
  exact (credential_step_consistent (mkCredential _ _ _ _) db H).
Qed.

Theorem apiTrackClick_consistent (clock : nat) (r : ClickRequest) (db : Db) :
  consistent db -> consistent (snd (apiTrackClick clock r db)).
Proof.
  intros H. exact (click_step_consistent (clickOf clock r) db H).
Qed.

Theorem apiTrackCredentials_consistent (clock : nat) (r : CredentialRequest) (db : Db) :
  consistent db -> consistent (snd (apiTrackCredentials clock r db)).
Proof.
  intros H. exact (credential_step_consistent (mkCredential _ _ _ _) db H).
Qed.

Lemma findCampaign_None_notin (id : ObjectId) (db : Db) :
  findCampaign id db = None -> ~ In id (map campaign_id (Campaigns db)).
Proof.
  unfold findCampaign. intros H Hin. apply in_map_iff in Hin as [c [E Hc]].
  apply (find_none _ _ H) in Hc. apply N.eqb_neq in Hc. contradiction.
Qed.

(** Creating a campaign keeps the ids distinct, and keeps the counters
    matching when the new document starts with both counters at zero
    and no stored event already references its id. *)
Theorem createCampaign_consistent (b : Build) (out : Outside) (req : CampaignRequest)
    (db : Db) :
  consistent db ->
  clicks (newCampaign out req) = 0 ->
  credentials (newCampaign out req) = 0 ->
  unreferenced (campaign_id (newCampaign out req)) db ->
  consistent (snd (fst (createCampaign b out req db))).
Proof.
  intros [Hu Hc] Hk0 Hd0 [Hk Hd].
  through_guards req ltac:(now split).
  cbv zeta. destruct (findCampaign _ db) eqn:E; [now split|].
  set (campaign := newCampaign out req) in *.
  cbn [fst snd]. split.
  - unfold uniqueCampaignIds, insertCampaign. cbn [Campaigns]. rewrite map_app.
    apply NoDup_app; [exact Hu|repeat constructor; intros []|].
    intros id Hin [<-|[]]. now apply (findCampaign_None_notin (campaign_id campaign) db).
  - intros c Hin. unfold insertCampaign in Hin. cbn [Campaigns] in Hin.
    apply in_app_or in Hin as [Hin|[<-|[]]].
    + exact (Hc c Hin).
    + unfold clickEvents, credentialEvents in *. cbn [Clicks Credentials insertCampaign].
      now rewrite Hk0, Hd0, Hk, Hd.
Qed.

(** A body that carries [clicks] gives the campaign that count from
    the start, with no Click stored. *)
Example createCampaign_takes_counters :
  let req :=
    mkCampaignRequest None (Some "Q3") None (Some "Aviso") (Some "Hola [LINK]")
      (Some [1%N]) None (Some 5) None None in
  let db' := snd (fst (createCampaign simulated (Scenario.calm 10) req Scenario.staff)) in
  map clicks (Campaigns db') = [5] /\ Clicks db' = [].
Proof. split; reflexivity. Qed.

(** ** The decoy form (POST /track/phishing) *)

(** C6. Two submissions that differ only in the password get the same
    answer, leave the same store and write the same console lines; and a
    stored submission adds one Credential made of the campaign id, the
    user id, [attempted = true] and the time of the call. *)
Theorem trackPhishing_ignores_password (clock : nat) (db : Db)
    (campaignId userId : option ObjectId) (email password password' : option string) :
  trackPhishing clock (mkPhishingRequest campaignId userId email password) db
  = trackPhishing clock (mkPhishingRequest campaignId userId email password') db
  /\ (snd (fst (trackPhishing clock
                  (mkPhishingRequest campaignId userId email password) db)) = db
      \/ exists c u,
           campaignId = Some c /\ userId = Some u
           /\ Credentials
                (snd (fst (trackPhishing clock
                             (mkPhishingRequest campaignId userId email password) db)))
              = (Credentials db ++ [mkCredential c u true clock])%list).
Proof.
  split; [reflexivity|]. unfold trackPhishing. simpl.
  destruct campaignId as [c|]; [destruct userId as [u|]|]; simpl; auto.
  destruct (findCampaign c db); [destruct (findUser u db)|]; simpl; auto.
  right. exists c, u. auto.
Qed.

Example trackPhishing_stored :
  trackPhishing 2000 (Scenario.submit 10 1 "hunter2") Scenario.running
  = (mkResponse 200 (SuccessJson "Credenciales registradas" (Some "/phishing/success")),
     mkDb (Users Scenario.running) [incCredentials Scenario.q3] []
       [mkCredential 10 1 true 2000],
     [CredentialsCaptured 10 "ana@empresa.com"; AttemptedEmail "ana@empresa.com"]).
Proof. reflexivity. Qed.

(** ** The compatibility route (POST /api/track/click) *)

(** The route looks nothing up: it always answers 200 and always stores
    the Click. *)
Lemma apiTrackClick_always_records (clock : nat) (r : ClickRequest) (db : Db) :
  statusCode (fst (apiTrackClick clock r db)) = 200
  /\ Clicks (snd (apiTrackClick clock r db)) = (Clicks db ++ [clickOf clock r])%list.
Proof. split; reflexivity. Qed.

(** C3 at a campaign id nobody has.  The link route answers 404 and
    stores nothing; the compatibility route answers 200 and stores the
    Click. *)
Theorem apiTrackClick_unknown_campaign :
  findCampaign 99 Scenario.running = None
  /\ trackClick 2000 (Scenario.visit 99 1) Scenario.running
     = (mkResponse 404 (Text ("P" ++ a_acute ++ "gina no encontrada")), Scenario.running)
  /\ apiTrackClick 2000 (Scenario.manual 99 1) Scenario.running
     = (mkResponse 200 (SuccessJson "Click registrado" None),
        mkDb (Users Scenario.running) (Campaigns Scenario.running)
          [clickOf 2000 (Scenario.manual 99 1)] []).
Proof. repeat split. Qed.

(** The same for a user id nobody has: the Click is stored and the
    campaign's [clicks] goes up. *)
Example apiTrackClick_unknown_user :
  findUser 77 Scenario.running = None
  /\ snd (trackClick 2000 (Scenario.visit 10 77) Scenario.running) = Scenario.running
  /\ apiTrackClick 2000 (Scenario.manual 10 77) Scenario.running
     = (mkResponse 200 (SuccessJson "Click registrado" None),
        mkDb (Users Scenario.running) [incClicks Scenario.q3]
          [clickOf 2000 (Scenario.manual 10 77)] []).
Proof. repeat split. Qed.

(** C2 at a Click for a campaign id nobody has, sent to the
    compatibility route, followed by the creation of a campaign whose
    body carries that id.  The first call succeeds and adds one Click,
    yet no campaign's counter moves; after the second call the new
    campaign has [clicks = 0] and one Click to its id, so the counters
    no longer match the events. *)
Theorem stray_click_breaks_counters :
  consistent Scenario.running
  /\ statusCode (fst (apiTrackClick 2000 (Scenario.manual 42 2) Scenario.running)) = 200
  /\ Clicks Scenario.strayed = [clickOf 2000 (Scenario.manual 42 2)]
  /\ Campaigns Scenario.strayed = Campaigns Scenario.running
  /\ list_sum (map clicks (Campaigns Scenario.strayed)) = 0
  /\ statusCode
       (fst (fst (createCampaign simulated (Scenario.calm 11) Scenario.adopt
                    Scenario.strayed))) = 201
  /\ (exists c, findCampaign 42 Scenario.adopted = Some c /\ clicks c = 0)
  /\ clickEvents 42 Scenario.adopted = 1
  /\ ~ countersMatch Scenario.adopted.
Proof.
  split.
  { split; [repeat constructor; intros []|].
    intros c [<-|[]]. split; reflexivity. }
  do 5 (split; [reflexivity|]).
  split; [eexists; split; reflexivity|]. split; [reflexivity|].
  intros H. destruct (H (newCampaign (Scenario.calm 11) Scenario.adopt)) as [H1 _].
  - right. left. reflexivity.
  - vm_compute in H1. discriminate.
Qed.

(** The link route at a known campaign and user: one Click more and
    [clicks] one higher. *)
Example trackClick_recorded :
  trackClick 2000 (Scenario.visit 10 1) Scenario.running
  = (mkResponse 302
       (Redirect "/phishing/00000000000000000000000a/000000000000000000000001"),
     mkDb (Users Scenario.running) [incClicks Scenario.q3]
       [mkClick 10 1 (Some Scenario.token) (Some "10.0.0.7") (Some "curl/8") 2000] []).
Proof. reflexivity. Qed.

(** ** Risk levels *)

Lemma levelOf_stat (clickCount credentialCount : nat) :
  levelOf (if (1 <? credentialCount)%nat then "Alto"
           else if (2 <? clickCount)%nat then "Medio" else "Bajo")
  = Some (score clickCount credentialCount).
Proof.
  unfold score. destruct (1 <? credentialCount)%nat; [reflexivity|].
  destruct (2 <? clickCount)%nat; reflexivity.
Qed.

Lemma levelOf_report (clickCount credentialCount : nat) :
  levelOf (if (1 <? credentialCount)%nat then "high"
           else if (2 <? clickCount)%nat then "medium" else "low")
  = Some (score clickCount credentialCount).
Proof.
  unfold score. destruct (1 <? credentialCount)%nat; [reflexivity|].
  destruct (2 <? clickCount)%nat; reflexivity.
Qed.

(** C4. In the per-user statistics and in the vulnerability report the
    label of each user is the level that the rule gives for the user's
    click and credential counts: High when there is more than one
    credential event, otherwise Medium when there are more than two
    clicks, otherwise Low; with the four sample points of the
    specification. *)
Theorem risk_labels_follow_score (db : Db) :
  map (fun s => (stat_clicks s, stat_credentials s, levelOf (stat_risk s)))
      (userStatistics db)
  = map (fun u => (clicksOf u db, credsOf u db,
                   Some (score (clicksOf u db) (credsOf u db))))
        (Users db)
  /\ map (fun s => levelOf (snd s)) (reportStats db)
     = map (fun u => Some (score (clicksOf u db) (credsOf u db))) (Users db)
  /\ (forall clickCount credentialCount,
        (1 < credentialCount -> score clickCount credentialCount = High)
        /\ (credentialCount <= 1 -> 2 < clickCount ->
            score clickCount credentialCount = Medium)
        /\ (credentialCount <= 1 -> clickCount <= 2 ->
            score clickCount credentialCount = Low))
  /\ score 0 0 = Low /\ score 3 0 = Medium /\ score 0 2 = High /\ score 5 2 = High.
Proof.
  split; [|split; [|split]].
  - unfold userStatistics. rewrite map_map. apply map_ext. intros u. simpl.
    now rewrite levelOf_stat.
  - unfold reportStats. rewrite map_map. apply map_ext. intros u. simpl.
    apply levelOf_report.
  - intros k d. unfold score. repeat split; intros.
    + assert ((1 <? d)%nat = true) as -> by (apply Nat.ltb_lt; lia). reflexivity.
    + assert ((1 <? d)%nat = false) as -> by (apply Nat.ltb_ge; lia).
      assert ((2 <? k)%nat = true) as -> by (apply Nat.ltb_lt; lia). reflexivity.
    + assert ((1 <? d)%nat = false) as -> by (apply Nat.ltb_ge; lia).
      assert ((2 <? k)%nat = false) as -> by (apply Nat.ltb_ge; lia). reflexivity.
  - repeat split.
Qed.

(** ** Binary64 arithmetic behind the rates

    [Prim2SF] gives a Number as sign, mantissa and exponent, and the
    division and the multiplication of Numbers are those of IEEE 754:
    the exact result cut to 53 bits and rounded.  Below, the rounding
    is followed far enough to bound its error by one unit in the last
    place. *)

(** A mantissa of [d] binary digits lies between [2^(d-1)] and [2^d]. *)
Lemma digits2_bounds (p : positive) :
  (2 ^ (Z.pos (digits2_pos p) - 1) <= Z.pos p < 2 ^ Z.pos (digits2_pos p))%Z.
Proof.
  induction p as [p IH|p IH|]; cbn [digits2_pos].
  - rewrite Pos2Z.inj_succ.
    replace (Z.succ (Z.pos (digits2_pos p)) - 1)%Z
      with (Z.succ (Z.pos (digits2_pos p) - 1))%Z by lia.
    rewrite !Z.pow_succ_r by lia. lia.
  - rewrite Pos2Z.inj_succ.
    replace (Z.succ (Z.pos (digits2_pos p)) - 1)%Z
      with (Z.succ (Z.pos (digits2_pos p) - 1))%Z by lia.
    rewrite !Z.pow_succ_r by lia. lia.
  - cbn. lia.
Qed.

Lemma digits2_unique (p : positive) (k : Z) :
  (2 ^ (k - 1) <= Z.pos p < 2 ^ k)%Z -> Z.pos (digits2_pos p) = k.
Proof.
  intros [Hlo Hhi]. pose proof (digits2_bounds p) as [Dlo Dhi].
  assert (0 < k)%Z as Hk.
  { destruct (Z.ltb_spec 0 k) as [|Hle]; [assumption|].
    assert (2 ^ k <= 1)%Z; [|lia].
    destruct (Z.eq_dec k 0) as [->|]; [cbn; lia|].
    rewrite Z.pow_neg_r by lia. lia. }
  assert (Z.pos (digits2_pos p) - 1 < k)%Z.
  { apply (Z.pow_lt_mono_r_iff 2); lia. }
  assert (k - 1 < Z.pos (digits2_pos p))%Z.
  { apply (Z.pow_lt_mono_r_iff 2); lia. }
  lia.
Qed.

Lemma shr_1_half (r : shr_record) :
  (0 <= shr_m r)%Z -> shr_m (shr_1 r) = (shr_m r / 2)%Z.
Proof.
  destruct r as [m r s]. cbn [shr_m shr_1]. intros H.
  destruct m as [|[p|p|]|p]; cbn [shr_m]; try reflexivity; try lia.
  - rewrite Pos2Z.inj_xI. apply (Z.div_unique _ _ _ 1); lia.
  - rewrite Pos2Z.inj_xO. apply (Z.div_unique _ _ _ 0); lia.
Qed.

(** Shifting right [p] times divides the mantissa by [2^p]. *)
Lemma shr_m_iter (p : positive) :
  forall r, (0 <= shr_m r)%Z ->
    shr_m (iter_pos shr_1 p r) = (shr_m r / 2 ^ Z.pos p)%Z.
Proof.
  induction p as [p IH|p IH|]; intros r H; cbn [iter_pos].
  - assert (0 <= shr_m (shr_1 r))%Z as H1
      by (rewrite shr_1_half by assumption; apply Z.div_pos; lia).
    assert (0 <= shr_m (iter_pos shr_1 p (shr_1 r)))%Z as H2
      by (rewrite IH by assumption; apply Z.div_pos; [assumption|apply Z.pow_pos_nonneg; lia]).
    rewrite IH, IH, shr_1_half by assumption.
    rewrite !Z.div_div by (try apply Z.pow_pos_nonneg; lia).
    f_equal. replace (Z.pos p~1) with (1 + Z.pos p + Z.pos p)%Z by lia.
    rewrite !Z.pow_add_r by lia. change (2 ^ 1)%Z with 2%Z. ring.
  - assert (0 <= shr_m (iter_pos shr_1 p r))%Z as H2
      by (rewrite IH by assumption; apply Z.div_pos; [assumption|apply Z.pow_pos_nonneg; lia]).
    rewrite IH, IH by assumption.
    rewrite !Z.div_div by (try apply Z.pow_pos_nonneg; lia).
    f_equal. replace (Z.pos p~0) with (Z.pos p + Z.pos p)%Z by lia.
    now rewrite Z.pow_add_r by lia.
  - now rewrite shr_1_half.
Qed.

Lemma shr_record_of_loc_m (m : Z) (l : location) : shr_m (shr_record_of_loc m l) = m.
Proof. destruct l as [|[]]; reflexivity. Qed.

Lemma shr_fexp_spec (mx : positive) (ex : Z) (lx : location) :
  (53 <= Z.pos (digits2_pos mx))%Z -> (-1074 <= ex + Z.pos (digits2_pos mx) - 53)%Z ->
  exists r,
    shr_fexp prec emax (Z.pos mx) ex lx = (r, (ex + (Z.pos (digits2_pos mx) - 53))%Z)
    /\ shr_m r = (Z.pos mx / 2 ^ (Z.pos (digits2_pos mx) - 53))%Z.
Proof.
  intros Hd He. unfold shr_fexp, fexp, emin, prec, emax. cbn [Zdigits2].
  rewrite Z.max_l by lia.
  replace (Z.pos (digits2_pos mx) + ex - 53 - ex)%Z with (Z.pos (digits2_pos mx) - 53)%Z by lia.
  destruct (Z.pos (digits2_pos mx) - 53)%Z as [|k|k] eqn:E; [| |lia].
  - eexists. cbn [shr]. split; [now rewrite Z.add_0_r|].
    now rewrite shr_record_of_loc_m, Z.div_1_r.
  - eexists. cbn [shr]. split; [reflexivity|].
    rewrite shr_m_iter; rewrite shr_record_of_loc_m; [reflexivity|lia].
Qed.

Lemma round_nearest_even_cases (m : Z) (l : location) :
  round_nearest_even m l = m \/ round_nearest_even m l = (m + 1)%Z.
Proof.
  destruct l as [|[]]; cbn [round_nearest_even]; auto.
  destruct (Z.even m); auto.
Qed.

(** Rounding to 53 bits: the mantissa is cut to 53 digits and at most
    one is added, so the result is within one unit in the last place of
    any value between [mx] and [mx + 1] (in units of [2^ex]). *)
Lemma binary_round_aux_spec (mx : positive) (ex : Z) (lx : location) :
  (53 <= Z.pos (digits2_pos mx))%Z ->
  (-1074 <= ex + Z.pos (digits2_pos mx) - 53)%Z ->
  (ex + Z.pos (digits2_pos mx) - 53 < 971)%Z ->
  exists m e,
    binary_round_aux prec emax false (Z.pos mx) ex lx = S754_finite false m e
    /\ (2 ^ 52 <= Z.pos m < 2 ^ 53)%Z
    /\ (ex + Z.pos (digits2_pos mx) - 53 <= e <= ex + Z.pos (digits2_pos mx) - 52)%Z
    /\ (Z.pos m * 2 ^ (e - ex) <= Z.pos mx + 2 ^ (e - ex))%Z
    /\ (Z.pos mx + 1 <= Z.pos m * 2 ^ (e - ex) + 2 ^ (e - ex))%Z.
Proof.
  intros Hd Hlo Hhi.
  destruct (shr_fexp_spec mx ex lx Hd Hlo) as (r & E & Em).
  unfold binary_round_aux. rewrite E.
  set (n := (Z.pos (digits2_pos mx) - 53)%Z) in *.
  assert (0 <= n)%Z as Hn by (subst n; lia).
  assert (0 < 2 ^ n)%Z as Hpow by (apply Z.pow_pos_nonneg; lia).
  pose proof (digits2_bounds mx) as [Blo Bhi].
  assert (2 ^ 52 <= shr_m r < 2 ^ 53)%Z as Hm'.
  { rewrite Em. split.
    - apply Z.div_le_lower_bound; [assumption|].
      rewrite Z.mul_comm, <- Z.pow_add_r by lia.
      replace (52 + n)%Z with (Z.pos (digits2_pos mx) - 1)%Z by (subst n; lia). exact Blo.
    - apply Z.div_lt_upper_bound; [assumption|].
      rewrite Z.mul_comm, <- Z.pow_add_r by lia.
      replace (53 + n)%Z with (Z.pos (digits2_pos mx))%Z by (subst n; lia). exact Bhi. }
  assert (shr_m r * 2 ^ n <= Z.pos mx < (shr_m r + 1) * 2 ^ n)%Z as Hfloor.
  { rewrite Em. split.
    - rewrite Z.mul_comm. now apply Z.mul_div_le.
    - rewrite Z.mul_comm. rewrite Z.mul_add_distr_l, Z.mul_1_r.
      pose proof (Z.mod_pos_bound (Z.pos mx) (2 ^ n) Hpow).
      pose proof (Z.div_mod (Z.pos mx) (2 ^ n)). lia. }
  set (m1 := round_nearest_even (shr_m r) (loc_of_shr_record r)).
  assert (m1 = shr_m r \/ m1 = (shr_m r + 1)%Z) as Hm1
    by apply round_nearest_even_cases.
  assert (2 ^ 52 <= m1 <= 2 ^ 53)%Z as Hr1 by lia.
  destruct m1 as [|q1|q1] eqn:Eq1; [lia| |lia].
  destruct (Z.eq_dec (Z.pos q1) (2 ^ 53)) as [Etop|Hne].
  - assert (Z.pos (digits2_pos q1) = 54%Z) as D1
      by (apply digits2_unique; rewrite Etop; cbn; lia).
    destruct (shr_fexp_spec q1 (ex + n) loc_Exact) as (r2 & E2 & Em2); [lia|lia|].
    rewrite E2, Em2, D1, Etop. change (2 ^ 53 / 2 ^ (54 - 53))%Z with (2 ^ 52)%Z.
    change (2 ^ 52)%Z with (Z.pos (2 ^ 52)%positive) at 1. cbv iota.
    replace (ex + n + (54 - 53) <=? emax - prec)%Z with true
      by (symmetry; apply Z.leb_le; unfold emax, prec; subst n; lia).
    exists (2 ^ 52)%positive, (ex + n + (54 - 53))%Z.
    split; [reflexivity|]. split; [cbn; lia|]. split; [subst n; lia|].
    replace (ex + n + (54 - 53) - ex)%Z with (n + 1)%Z by lia.
    rewrite Z.pow_add_r by lia. change (2 ^ 1)%Z with 2%Z.
    change (Z.pos (2 ^ 52)) with (2 ^ 52)%Z. nia.
  - assert (Z.pos (digits2_pos q1) = 53%Z) as D1
      by (apply digits2_unique; cbn; lia).
    destruct (shr_fexp_spec q1 (ex + n) loc_Exact) as (r2 & E2 & Em2); [lia|lia|].
    rewrite E2, Em2, D1. change (2 ^ (53 - 53))%Z with 1%Z. rewrite Z.div_1_r.
    cbv iota.
    replace (ex + n + (53 - 53) <=? emax - prec)%Z with true
      by (symmetry; apply Z.leb_le; unfold emax, prec; subst n; lia).
    exists q1, (ex + n + (53 - 53))%Z.
    split; [reflexivity|]. split; [lia|]. split; [subst n; lia|].
    replace (ex + n + (53 - 53) - ex)%Z with n by lia. nia.
Qed.

Lemma iter_xO (k p : positive) : Z.pos (Pos.iter xO p k) = (Z.pos p * 2 ^ Z.pos k)%Z.
Proof.
  induction k as [|k IH] using Pos.peano_ind.
  - cbn [Pos.iter]. lia.
  - rewrite Pos.iter_succ, Pos2Z.inj_xO, IH, Pos2Z.inj_succ, Z.pow_succ_r by lia. ring.
Qed.

Lemma binary_round_aux_exact (m : positive) (e : Z) :
  Z.pos (digits2_pos m) = 53%Z -> (-1074 <= e <= 971)%Z ->
  binary_round_aux prec emax false (Z.pos m) e loc_Exact = S754_finite false m e.
Proof.
  intros Hd He.
  assert (shr_fexp prec emax (Z.pos m) e loc_Exact
          = (Build_shr_record (Z.pos m) false false, e)) as E.
  { unfold shr_fexp, fexp, emin, prec, emax. cbn [Zdigits2]. rewrite Hd.
    rewrite Z.max_l by lia. replace (53 + e - 53 - e)%Z with 0%Z by lia. reflexivity. }
  unfold binary_round_aux. rewrite E. cbn [shr_m loc_of_shr_record round_nearest_even].
  rewrite E. cbn [shr_m].
  replace (e <=? emax - prec)%Z with true
    by (symmetry; apply Z.leb_le; unfold emax, prec; lia).
  reflexivity.
Qed.

(** A count below 2^53 is held exactly. *)
Lemma Prim2SF_of_count (n : Z) :
  (0 < n < 2 ^ 53)%Z ->
  exists m e,
    Prim2SF (PrimFloat.of_uint63 (Uint63.of_Z n)) = S754_finite false m e
    /\ Z.pos (digits2_pos m) = 53%Z /\ (-52 <= e <= 0)%Z
    /\ Z.pos m = (n * 2 ^ (- e))%Z.
Proof.
  intros Hn. rewrite of_uint63_spec, Uint63.of_Z_spec.
  rewrite Z.mod_small by (change Uint63Axioms.wB with (2 ^ 63)%Z; lia).
  destruct n as [|p|p]; [lia| |lia]. cbn [binary_normalize]. unfold binary_round.
  pose proof (digits2_bounds p) as [Blo Bhi].
  assert (Z.pos (digits2_pos p) <= 53)%Z as Hd.
  { assert (Z.pos (digits2_pos p) - 1 < 53)%Z; [|lia].
    apply (Z.pow_lt_mono_r_iff 2); lia. }
  assert (fexp prec emax (Z.pos (digits2_pos p) + 0) = (Z.pos (digits2_pos p) - 53)%Z) as Ef.
  { unfold fexp, emin, prec, emax. lia. }
  rewrite Ef. unfold shl_align.
  replace (Z.pos (digits2_pos p) - 53 - 0)%Z with (Z.pos (digits2_pos p) - 53)%Z by lia.
  destruct (Z.pos (digits2_pos p) - 53)%Z as [|k|k] eqn:Ek; [|lia|].
  - exists p, 0%Z. rewrite binary_round_aux_exact by lia.
    split; [reflexivity|]. split; [lia|]. split; [lia|]. cbn. lia.
  - exists (Pos.iter xO p k), (Z.neg k).
    assert (Z.pos (digits2_pos (Pos.iter xO p k)) = 53%Z) as D.
    { apply digits2_unique. rewrite iter_xO.
      replace (Z.pos k) with (53 - Z.pos (digits2_pos p))%Z by lia.
      split.
      - replace (53 - 1)%Z
          with ((Z.pos (digits2_pos p) - 1) + (53 - Z.pos (digits2_pos p)))%Z by lia.
        rewrite Z.pow_add_r by lia. apply Z.mul_le_mono_nonneg_r; [|exact Blo].
        apply Z.pow_nonneg; lia.
      - replace 53%Z
          with (Z.pos (digits2_pos p) + (53 - Z.pos (digits2_pos p)))%Z at 2 by lia.
        rewrite Z.pow_add_r by lia. apply Z.mul_lt_mono_pos_r; [|exact Bhi].
        apply Z.pow_pos_nonneg; lia. }
    rewrite binary_round_aux_exact by lia.
    split; [reflexivity|]. split; [exact D|]. split; [lia|].
    rewrite iter_xO. reflexivity.
Qed.

(** The quotient of two normal Numbers, within one unit in the last
    place. *)
Lemma SFdiv_spec (m1 m2 : positive) (e1 e2 : Z) :
  Z.pos (digits2_pos m1) = 53%Z -> Z.pos (digits2_pos m2) = 53%Z ->
  (-1000 <= e1 - e2 <= 1000)%Z ->
  exists m e,
    SFdiv prec emax (S754_finite false m1 e1) (S754_finite false m2 e2)
    = S754_finite false m e
    /\ (2 ^ 52 <= Z.pos m < 2 ^ 53)%Z
    /\ (e1 - e2 - 53 <= e <= e1 - e2 - 51)%Z
    /\ ((Z.pos m - 1) * 2 ^ (e - (e1 - e2 - 53)) * Z.pos m2 <= Z.pos m1 * 2 ^ 53)%Z
    /\ (Z.pos m1 * 2 ^ 53 <= (Z.pos m + 1) * 2 ^ (e - (e1 - e2 - 53)) * Z.pos m2)%Z.
Proof.
  intros D1 D2 He. cbn [SFdiv xorb]. unfold SFdiv_core_binary. cbn [Zdigits2].
  rewrite D1, D2.
  assert (Z.min (fexp prec emax (53 + e1 - (53 + e2))) (e1 - e2) = (e1 - e2 - 53)%Z) as Ee.
  { unfold fexp, emin, prec, emax. lia. }
  rewrite Ee. replace (e1 - e2 - (e1 - e2 - 53))%Z with 53%Z by lia.
  rewrite Z.shiftl_mul_pow2 by lia.
  pose proof (digits2_bounds m1) as [B1lo B1hi]. rewrite D1 in B1lo, B1hi.
  pose proof (digits2_bounds m2) as [B2lo B2hi]. rewrite D2 in B2lo, B2hi.
  pose proof (Z_div_mod (Z.pos m1 * 2 ^ 53) (Z.pos m2) eq_refl) as Hdm.
  destruct (Z.div_eucl (Z.pos m1 * 2 ^ 53) (Z.pos m2)) as [q r].
  destruct Hdm as [Hq Hr].
  assert (2 ^ 52 <= q < 2 ^ 54)%Z as Hqb.
  { change (53 - 1)%Z with 52%Z in *. split; nia. }
  destruct q as [|q|q]; [lia| |lia].
  pose proof (digits2_bounds q) as [Qlo Qhi].
  assert (53 <= Z.pos (digits2_pos q) <= 54)%Z as Dq.
  { split.
    - assert (52 < Z.pos (digits2_pos q))%Z; [|lia].
      apply (Z.pow_lt_mono_r_iff 2); lia.
    - assert (Z.pos (digits2_pos q) - 1 < 54)%Z; [|lia].
      apply (Z.pow_lt_mono_r_iff 2); lia. }
  destruct (binary_round_aux_spec q (e1 - e2 - 53) (new_location (Z.pos m2) r))
    as (m & e & E & Hm & Hrange & Hup & Hdown); [lia|lia|lia|].
  exists m, e. split; [exact E|]. split; [exact Hm|]. split; [lia|].
  assert (0 < 2 ^ (e - (e1 - e2 - 53)))%Z by (apply Z.pow_pos_nonneg; lia).
  split; nia.
Qed.

(** The product of two normal Numbers, within one unit in the last
    place. *)
Lemma SFmul_spec (m1 m2 : positive) (e1 e2 : Z) :
  Z.pos (digits2_pos m1) = 53%Z -> Z.pos (digits2_pos m2) = 53%Z ->
  (-1000 <= e1 + e2 <= 800)%Z ->
  exists m e,
    SFmul prec emax (S754_finite false m1 e1) (S754_finite false m2 e2)
    = S754_finite false m e
    /\ (2 ^ 52 <= Z.pos m < 2 ^ 53)%Z
    /\ (e1 + e2 + 52 <= e <= e1 + e2 + 54)%Z
    /\ ((Z.pos m - 1) * 2 ^ (e - (e1 + e2)) <= Z.pos m1 * Z.pos m2)%Z
    /\ (Z.pos m1 * Z.pos m2 <= (Z.pos m + 1) * 2 ^ (e - (e1 + e2)))%Z.
Proof.
  intros D1 D2 He. cbn [SFmul xorb].
  pose proof (digits2_bounds m1) as [B1lo B1hi]. rewrite D1 in B1lo, B1hi.
  pose proof (digits2_bounds m2) as [B2lo B2hi]. rewrite D2 in B2lo, B2hi.
  change (53 - 1)%Z with 52%Z in *.
  assert (2 ^ 104 <= Z.pos (m1 * m2) < 2 ^ 106)%Z as Hp.
  { rewrite Pos2Z.inj_mul. change (2 ^ 104)%Z with (2 ^ 52 * 2 ^ 52)%Z.
    change (2 ^ 106)%Z with (2 ^ 53 * 2 ^ 53)%Z. split; nia. }
  pose proof (digits2_bounds (m1 * m2)) as [Plo Phi].
  assert (105 <= Z.pos (digits2_pos (m1 * m2)) <= 106)%Z as Dp.
  { split.
    - assert (104 < Z.pos (digits2_pos (m1 * m2)))%Z; [|lia].
      apply (Z.pow_lt_mono_r_iff 2); lia.
    - assert (Z.pos (digits2_pos (m1 * m2)) - 1 < 106)%Z; [|lia].
      apply (Z.pow_lt_mono_r_iff 2); lia. }
  destruct (binary_round_aux_spec (m1 * m2) (e1 + e2) loc_Exact)
    as (m & e & E & Hm & Hrange & Hup & Hdown); [lia|lia|lia|].
  exists m, e. split; [exact E|]. split; [exact Hm|]. split; [lia|].
  rewrite Pos2Z.inj_mul in Hup, Hdown.
  assert (0 < 2 ^ (e - (e1 + e2)))%Z by (apply Z.pow_pos_nonneg; lia).
  split; nia.
Qed.

Lemma oneDecimal_decString (n : Z) :
  (0 <= n)%Z ->
  JS.decString (n / 10) ++ "." ++ JS.decString (n mod 10) = oneDecimal (Z.to_N n).
Proof.
  intros H. unfold JS.decString, oneDecimal.
  rewrite Z2N.inj_div, Z2N.inj_mod by lia. reflexivity.
Qed.

(** The digits of [toFixed(1)] for a value [m / 2^k] below 2^53. *)
Lemma toFixed1_finite (x : float) (m : positive) (e : Z) :
  Prim2SF x = S754_finite false m e -> (e < 0)%Z -> (Z.pos m < 2 ^ 53)%Z ->
  exists n,
    JS.toFixed1 x = Some (oneDecimal (Z.to_N n)) /\ (0 <= n)%Z
    /\ (2 * Z.abs (n * 2 ^ (- e) - 10 * Z.pos m) <= 2 ^ (- e))%Z.
Proof.
  intros E He Hm. unfold JS.toFixed1. rewrite E.
  replace (0 <=? e)%Z with false by (symmetry; apply Z.leb_gt; lia).
  assert (0 < 2 ^ (- e))%Z as Hd by (apply Z.pow_pos_nonneg; lia).
  replace (10 ^ 21 * 2 ^ (- e) <=? Z.pos m)%Z with false.
  2:{ symmetry. apply Z.leb_gt.
      assert (2 ^ 53 < 10 ^ 21)%Z by reflexivity. nia. }
  cbv zeta.
  pose proof (Z.div_mod (Z.pos m * 10) (2 ^ (- e))) as Hdm.
  pose proof (Z.mod_pos_bound (Z.pos m * 10) (2 ^ (- e)) Hd) as Hmod.
  assert (0 <= Z.pos m * 10 / 2 ^ (- e))%Z as Hq by (apply Z.div_pos; lia).
  set (q := (Z.pos m * 10 / 2 ^ (- e))%Z) in *.
  set (r := ((Z.pos m * 10) mod 2 ^ (- e))%Z) in *.
  set (d := (2 ^ (- e))%Z) in *.
  destruct (Z.leb_spec d (2 * r)) as [Hge|Hlt].
  - exists (q + 1)%Z. rewrite <- oneDecimal_decString by lia.
    split; [reflexivity|]. split; [lia|]. nia.
  - exists q. rewrite <- oneDecimal_decString by lia.
    split; [reflexivity|]. split; [lia|]. nia.
Qed.

(** The three errors add up to less than 0.005 tenths. *)
Lemma rate_arithmetic (n t c mr mq D E : Z) :
  (0 < t)%Z -> (4096 <= D)%Z -> (2 ^ 20 <= E)%Z ->
  (2 * Z.abs (n * D - 10 * mr) <= D)%Z ->
  (Z.abs (mr * E - 100 * mq * D) <= E)%Z ->
  (Z.abs (mq * t - c * E) <= t)%Z ->
  (200 * Z.abs (n * t - 1000 * c) <= 101 * t)%Z.
Proof.
  intros Ht HD HE H1 H2 H3. change (2 ^ 20)%Z with 1048576%Z in HE.
  assert (0 < D * E)%Z as HDE by nia.
  apply (Z.mul_le_mono_pos_r _ _ (D * E)); [exact HDE|].
  assert ((n * t - 1000 * c) * (D * E)
          = (n * D - 10 * mr) * (t * E) + 10 * t * (mr * E - 100 * mq * D)
            + 1000 * D * (mq * t - c * E))%Z as Esplit by ring.
  assert (Z.abs (n * t - 1000 * c) * (D * E)
          = Z.abs ((n * t - 1000 * c) * (D * E)))%Z as Eabs
    by (rewrite Z.abs_mul, (Z.abs_eq (D * E)); lia).
  assert (Z.abs ((n * D - 10 * mr) * (t * E)) = Z.abs (n * D - 10 * mr) * (t * E))%Z as A1
    by (rewrite Z.abs_mul, (Z.abs_eq (t * E)); nia).
  assert (Z.abs (10 * t * (mr * E - 100 * mq * D))
          = 10 * t * Z.abs (mr * E - 100 * mq * D))%Z as A2
    by (rewrite Z.abs_mul, (Z.abs_eq (10 * t)); lia).
  assert (Z.abs (1000 * D * (mq * t - c * E)) = 1000 * D * Z.abs (mq * t - c * E))%Z as A3
    by (rewrite Z.abs_mul, (Z.abs_eq (1000 * D)); lia).
  pose proof (Z.abs_triangle ((n * D - 10 * mr) * (t * E) + 10 * t * (mr * E - 100 * mq * D))
                (1000 * D * (mq * t - c * E))) as T1.
  pose proof (Z.abs_triangle ((n * D - 10 * mr) * (t * E))
                (10 * t * (mr * E - 100 * mq * D))) as T2.
  rewrite <- Z.mul_assoc, Eabs, Esplit.
  assert (2 * (Z.abs (n * D - 10 * mr) * (t * E)) <= D * (t * E))%Z as B1 by nia.
  assert (10 * t * Z.abs (mr * E - 100 * mq * D) <= 10 * t * E)%Z as B2 by nia.
  assert (1000 * D * Z.abs (mq * t - c * E) <= 1000 * D * t)%Z as B3 by nia.
  assert (2000 * (t * E) + 200000 * (D * t) <= t * (D * E))%Z as B4 by nia.
  nia.
Qed.

Lemma Prim2SF_hundred :
  Prim2SF (JS.ofCount 100) = S754_finite false 7036874417766400 (-46).
Proof. vm_compute. reflexivity. Qed.

(** [(a / b * 100).toFixed(1)] for counts that fit an array length: the
    numeral of the tenths nearest to the quotient. *)
Lemma toFixed1_percent (a b : nat) :
  0 < b -> (Z.of_nat a < 2 ^ 32)%Z -> (Z.of_nat b < 2 ^ 32)%Z ->
  exists n,
    JS.toFixed1 (JS.percent a b) = Some (oneDecimal n) /\ roundsPercent a b n.
Proof.
  intros Hb Ha Hb'. unfold roundsPercent.
  destruct (Prim2SF_of_count (Z.of_nat b)) as (m2 & e2 & E2 & D2 & R2 & V2); [lia|].
  destruct a as [|a'].
  - exists 0%N. split; [|change (Z.of_N 0) with 0%Z; change (Z.of_nat 0) with 0%Z; lia].
    unfold JS.toFixed1, JS.percent. rewrite mul_spec, div_spec.
    fold (JS.ofCount b). unfold JS.ofCount at 2. rewrite E2. reflexivity.
  - set (a := S a') in *.
    destruct (Prim2SF_of_count (Z.of_nat a)) as (m1 & e1 & E1 & D1 & R1 & V1); [lia|].
    pose proof (digits2_bounds m1) as [B1lo B1hi]. rewrite D1 in B1lo, B1hi.
    pose proof (digits2_bounds m2) as [B2lo B2hi]. rewrite D2 in B2lo, B2hi.
    change (53 - 1)%Z with 52%Z in *.
    destruct (SFdiv_spec m1 m2 e1 e2 D1 D2) as (mq & eq & Eq & Hmq & Req & Qlo & Qhi); [lia|].
    assert (Z.pos (digits2_pos mq) = 53%Z) as Dq by (apply digits2_unique; exact Hmq).
    destruct (SFmul_spec mq 7036874417766400 eq (-46) Dq eq_refl)
      as (mr & er & Er & Hmr & Rer & Mlo & Mhi); [lia|].
    assert (Prim2SF (JS.percent a b) = S754_finite false mr er) as Ex.
    { unfold JS.percent. rewrite mul_spec, div_spec, Prim2SF_hundred.
      unfold JS.ofCount. rewrite E1, E2. unfold SF64div, SF64mul. now rewrite Eq. }
    assert (21 <= - e1)%Z as He1.
    { assert (20 < - e1)%Z; [|lia]. apply (Z.pow_lt_mono_r_iff 2); [lia|lia|].
      assert (0 < 2 ^ (- e1))%Z by (apply Z.pow_pos_nonneg; lia).
      change (2 ^ 20)%Z with 1048576%Z. change (2 ^ 52)%Z with 4503599627370496%Z in *.
      change (2 ^ 32)%Z with 4294967296%Z in *. nia. }
    assert (0 < Z.of_nat b)%Z as Hbz by lia.
    assert (0 < 2 ^ (- e2))%Z as P2 by (apply Z.pow_pos_nonneg; lia).
    assert (0 < 2 ^ (- e1))%Z as P1 by (apply Z.pow_pos_nonneg; lia).
    destruct (toFixed1_finite (JS.percent a b) mr er Ex) as (n & En & Hn & Hround);
      [lia|lia|].
    exists (Z.to_N n). split; [exact En|]. rewrite Z2N.id by exact Hn.
    apply (rate_arithmetic n (Z.of_nat b) (Z.of_nat a) (Z.pos mr) (Z.pos mq)
             (2 ^ (- er)) (2 ^ (- eq))).
    + exact Hbz.
    + change 4096%Z with (2 ^ 12)%Z. apply Z.pow_le_mono_r; lia.
    + apply Z.pow_le_mono_r; lia.
    + exact Hround.
    + assert (2 ^ (er - (eq + -46)) * 2 ^ (- er) = 2 ^ 46 * 2 ^ (- eq))%Z as Epow.
      { rewrite <- !Z.pow_add_r by lia. f_equal. lia. }
      assert (0 < 2 ^ (- er))%Z by (apply Z.pow_pos_nonneg; lia).
      assert (0 < 2 ^ (- eq))%Z by (apply Z.pow_pos_nonneg; lia).
      assert (0 < 2 ^ (er - (eq + -46)))%Z by (apply Z.pow_pos_nonneg; lia).
      change (Z.pos 7036874417766400) with (100 * 2 ^ 46)%Z in Mlo, Mhi.
      apply Z.abs_le. split.
      * apply (Z.mul_le_mono_pos_l _ _ (2 ^ 46)); [cbn; lia|].
        apply (Z.mul_le_mono_pos_r _ _ (2 ^ (- er))) in Mhi; [|assumption].
        nia.
      * apply (Z.mul_le_mono_pos_l _ _ (2 ^ 46)); [cbn; lia|].
        apply (Z.mul_le_mono_pos_r _ _ (2 ^ (- er))) in Mlo; [|assumption].
        nia.
    + assert (2 ^ (eq - (e1 - e2 - 53)) * 2 ^ (- e2) * 2 ^ (- eq) = 2 ^ (- e1) * 2 ^ 53)%Z
        as Epow.
      { rewrite <- !Z.pow_add_r by lia. f_equal. lia. }
      assert (0 < 2 ^ (- eq))%Z by (apply Z.pow_pos_nonneg; lia).
      assert (0 < 2 ^ (eq - (e1 - e2 - 53)))%Z by (apply Z.pow_pos_nonneg; lia).
      rewrite V1 in Qlo, Qhi. rewrite V2 in Qlo, Qhi.
      apply Z.abs_le. split.
      * apply (Z.mul_le_mono_pos_l _ _ (2 ^ (- e1) * 2 ^ 53)); [cbn; nia|].
        apply (Z.mul_le_mono_pos_r _ _ (2 ^ (- eq))) in Qhi; [|assumption].
        nia.
      * apply (Z.mul_le_mono_pos_l _ _ (2 ^ (- e1) * 2 ^ 53)); [cbn; nia|].
        apply (Z.mul_le_mono_pos_r _ _ (2 ^ (- eq))) in Qlo; [|assumption].
        nia.
Qed.

(** ** The vulnerability report *)

Lemma withRisk_partition (label : User -> string) (us : list User) :
  (forall u, label u = "high" \/ label u = "medium" \/ label u = "low") ->
  withRisk "high" (map (fun u => (user_id u, label u)) us)
  + withRisk "medium" (map (fun u => (user_id u, label u)) us)
  + withRisk "low" (map (fun u => (user_id u, label u)) us)
  = List.length us.
Proof.
  intros Hl. unfold withRisk. induction us as [|u rest IH]; simpl; [reflexivity|].
  destruct (Hl u) as [E|[E|E]]; rewrite E; simpl; lia.
Qed.

Lemma withRisk_filter (label : User -> string) (name : string) (us : list User) :
  withRisk name (map (fun u => (user_id u, label u)) us)
  = List.length (filter (fun u => label u =? name) us).
Proof.
  unfold withRisk. induction us as [|u rest IH]; simpl; [reflexivity|].
  destruct (label u =? name); simpl; now rewrite IH.
Qed.

(** C10. In every vulnerability report the three risk counts partition
    the users of the store: each count is the number of stored users
    that the risk rule puts at that level for their events in the
    store, the three counts add up to the number of stored users, which
    is the report's totalUsers, and the report gives every stored user,
    in order, exactly one of the three labels. *)
Theorem vulnerabilityReport_partition (db : Db) :
  highRisk (vulnerabilityReport db) = List.length (usersAt High db)
  /\ mediumRisk (vulnerabilityReport db) = List.length (usersAt Medium db)
  /\ lowRisk (vulnerabilityReport db) = List.length (usersAt Low db)
  /\ highRisk (vulnerabilityReport db) + mediumRisk (vulnerabilityReport db)
     + lowRisk (vulnerabilityReport db)
     = List.length (Users db)
  /\ totalUsers (vulnerabilityReport db) = List.length (Users db)
  /\ map fst (reportStats db) = map user_id (Users db)
  /\ Forall (fun stat => snd stat = "high" \/ snd stat = "medium" \/ snd stat = "low")
       (reportStats db).
Proof.
  set (label := fun user =>
                  if (1 <? credsOf user db)%nat then "high"
                  else if (2 <? clicksOf user db)%nat then "medium" else "low").
  assert (Hlevel : forall level name,
             (forall u, (label u =? name)
                        = match score (clicksOf u db) (credsOf u db), level with
                          | Low, Low | Medium, Medium | High, High => true
                          | _, _ => false
                          end) ->
             withRisk name (reportStats db) = List.length (usersAt level db)).
  { intros level name H. unfold reportStats, usersAt.
    rewrite (withRisk_filter label name). f_equal. apply filter_ext. exact H. }
  assert (Hone : forall u, label u = "high" \/ label u = "medium" \/ label u = "low").
  { intros u. unfold label. destruct (1 <? credsOf u db)%nat; [now left|].
    destruct (2 <? clicksOf u db)%nat; [right; now left|right; now right]. }
  cbn [vulnerabilityReport highRisk mediumRisk lowRisk totalUsers].
  split; [|split; [|split; [|split; [|split; [|split]]]]].
  - apply Hlevel. intros u. unfold label, score.
    destruct (1 <? credsOf u db)%nat; [reflexivity|].
    now destruct (2 <? clicksOf u db)%nat.
  - apply Hlevel. intros u. unfold label, score.
    destruct (1 <? credsOf u db)%nat; [reflexivity|].
    now destruct (2 <? clicksOf u db)%nat.
  - apply Hlevel. intros u. unfold label, score.
    destruct (1 <? credsOf u db)%nat; [reflexivity|].
    now destruct (2 <? clicksOf u db)%nat.
  - exact (withRisk_partition label (Users db) Hone).
  - reflexivity.
  - unfold reportStats. rewrite map_map. reflexivity.
  - unfold reportStats. apply Forall_map. apply Forall_forall. intros u _. apply Hone.
Qed.

(** Four users, one of them with three clicks: nobody at the high
    level, one at the medium level, three at the low level. *)
Example vulnerabilityReport_buckets :
  let report := vulnerabilityReport Scenario.clicking in
  (highRisk report, mediumRisk report, lowRisk report, totalUsers report) = (0, 1, 3, 4).
Proof. vm_compute. reflexivity. Qed.

Lemma fold_left_sum {A : Type} (f : A -> nat) (l : list A) :
  forall a, fold_left (fun sum c => sum + f c) l a = a + list_sum (map f l).
Proof.
  induction l as [|x l IH]; intros a; simpl; [lia|]. rewrite IH. lia.
Qed.

Lemma totalEmails_sum (db : Db) : totalEmails db = totalTargetedRecipients db.
Proof. unfold totalEmails. now rewrite fold_left_sum. Qed.

(** C7, as the code has it.  The denominator of both rates is the sum
    over all campaigns of the length of the declared target list.  When
    it is positive, each rate is a String: the numeral, with one
    decimal, of the tenths that [toFixed(1)] picks for clicks /
    denominator * 100 and for credentials / denominator * 100, which
    are within 0.05 of the quotient (up to the rounding of the two
    operations on Numbers).  When it is zero, both rates are the Number
    0 and nothing is divided.  The counts are those of arrays, below
    2^32. *)
Theorem vulnerabilityReport_rates (db : Db) :
  arrayLength (List.length (Clicks db)) ->
  arrayLength (List.length (Credentials db)) ->
  arrayLength (totalTargetedRecipients db) ->
  (0 < totalTargetedRecipients db ->
   exists n k,
     avgClickRate (vulnerabilityReport db) = Some (JS.Str (oneDecimal n))
     /\ roundsPercent (List.length (Clicks db)) (totalTargetedRecipients db) n
     /\ avgCredentialRate (vulnerabilityReport db) = Some (JS.Str (oneDecimal k))
     /\ roundsPercent (List.length (Credentials db)) (totalTargetedRecipients db) k)
  /\ (totalTargetedRecipients db = 0 ->
      avgClickRate (vulnerabilityReport db) = Some (JS.Num 0%float)
      /\ avgCredentialRate (vulnerabilityReport db) = Some (JS.Num 0%float)).
Proof.
  intros Hclicks Hcreds Htotal.
  unfold vulnerabilityReport, avgRate. cbn [avgClickRate avgCredentialRate].
  rewrite totalEmails_sum. split.
  - intros Hpos.
    destruct (toFixed1_percent _ _ Hpos Hclicks Htotal) as (n & En & Hn).
    destruct (toFixed1_percent _ _ Hpos Hcreds Htotal) as (k & Ek & Hk).
    exists n, k. rewrite En, Ek.
    assert ((0 <? totalTargetedRecipients db)%nat = true) as ->
      by (now apply Nat.ltb_lt).
    repeat split; assumption.
  - intros ->. split; reflexivity.
Qed.

Lemma vulnerabilityReport_rates_witness :
  (0 < totalTargetedRecipients Scenario.visited ->
   exists n k,
     avgClickRate (vulnerabilityReport Scenario.visited) = Some (JS.Str (oneDecimal n))
     /\ roundsPercent (List.length (Clicks Scenario.visited))
          (totalTargetedRecipients Scenario.visited) n
     /\ avgCredentialRate (vulnerabilityReport Scenario.visited)
        = Some (JS.Str (oneDecimal k))
     /\ roundsPercent (List.length (Credentials Scenario.visited))
          (totalTargetedRecipients Scenario.visited) k)
  /\ (totalTargetedRecipients Scenario.visited = 0 ->
      avgClickRate (vulnerabilityReport Scenario.visited) = Some (JS.Num 0%float)
      /\ avgCredentialRate (vulnerabilityReport Scenario.visited)
         = Some (JS.Num 0%float)).
Proof.
  apply (vulnerabilityReport_rates Scenario.visited); reflexivity.
Defined.

(** C7, as stated, fails: with one click among three declared
    recipients the report carries the String "33.3", which is no Number
    and whose value is not 1 / 3 * 100 (three times 33.3 is not 100). *)
Lemma vulnerabilityReport_rate_is_text :
  List.length (Clicks Scenario.visited) = 1
  /\ totalTargetedRecipients Scenario.visited = 3
  /\ avgClickRate (vulnerabilityReport Scenario.visited) = Some (JS.Str "33.3")
  /\ (forall x, avgClickRate (vulnerabilityReport Scenario.visited) <> Some (JS.Num x))
  /\ "33.3" = oneDecimal 333
  /\ (333 * 3 <> 1 * 1000)%N.
Proof.
  split; [reflexivity|]. split; [reflexivity|].
  assert (E : avgClickRate (vulnerabilityReport Scenario.visited) = Some (JS.Str "33.3"))
    by (vm_compute; reflexivity).
  split; [exact E|]. split; [intros x; rewrite E; discriminate|].
  split; [reflexivity|discriminate].
Qed.

(** One click among three declared recipients: the report carries the
    text "33.3" for the quotient 1 / 3 * 100. *)
Example vulnerabilityReport_third :
  totalTargetedRecipients Scenario.visited = 3
  /\ List.length (Clicks Scenario.visited) = 1
  /\ avgClickRate (vulnerabilityReport Scenario.visited) = Some (JS.Str "33.3")
  /\ avgCredentialRate (vulnerabilityReport Scenario.visited) = Some (JS.Str "0.0").
Proof.
  split; [reflexivity|]. split; [reflexivity|]. split; vm_compute; reflexivity.
Qed.

Example vulnerabilityReport_empty :
  avgClickRate (vulnerabilityReport Scenario.staff) = Some (JS.Num 0%float)
  /\ avgCredentialRate (vulnerabilityReport Scenario.staff) = Some (JS.Num 0%float).
Proof. split; reflexivity. Qed.

(** ** Department rates *)

Lemma updateKey_positive (k : string) (f : DeptCount -> DeptCount) (d : Departments) :
  (forall v, dept_total v <= dept_total (f v)) ->
  totalsPositive d -> totalsPositive (updateKey k f d).
Proof.
  intros Hf. unfold totalsPositive. induction d as [|[k' v] rest IH]; simpl; intros H.
  - constructor.
  - inversion H as [|? ? Hv Hrest]; subst. simpl in Hv.
    destruct (k' =? k); constructor; simpl; auto.
    specialize (Hf v). lia.
Qed.

Lemma updateKey_fresh (k : string) (f : DeptCount -> DeptCount) (d : Departments)
    (v : DeptCount) :
  ownKey k d = false ->
  updateKey k f (d ++ [(k, v)])%list = (d ++ [(k, f v)])%list.
Proof.
  induction d as [|[k' v'] rest IH]; simpl.
  - now rewrite String.eqb_refl.
  - intros H. apply orb_false_iff in H as [H1 H2]. rewrite H1. now rewrite IH.
Qed.

Lemma countUser_positive (d : Departments) (u : User) :
  totalsPositive d -> totalsPositive (countUser d u).
Proof.
  intros H. unfold countUser. destruct (hasDept _ d) eqn:E.
  - apply updateKey_positive; [intros v; simpl; lia|exact H].
  - unfold hasDept in E. apply orb_false_iff in E as [E _].
    rewrite updateKey_fresh by exact E.
    apply Forall_app. split; [exact H|]. repeat constructor.
Qed.

Lemma countClick_positive (users : list User) (d : Departments) (k : Click) :
  totalsPositive d -> totalsPositive (countClick users d k).
Proof.
  intros H. unfold countClick.
  destruct (find _ users) as [p|]; [|exact H].
  destruct (if JS.truthyOpt (user_department p) then Some p else find _ users) as [u|];
    [|exact H].
  destruct (JS.truthyOpt (user_department u) && hasDept _ d); [|exact H].
  apply updateKey_positive; [intros v; simpl; lia|exact H].
Qed.

Lemma fold_left_invariant {A B : Type} (P : A -> Prop) (f : A -> B -> A) (l : list B) :
  (forall a x, P a -> P (f a x)) -> forall a, P a -> P (fold_left f l a).
Proof.
  intros Hf. induction l as [|x l IH]; simpl; intros a Ha; [exact Ha|].
  apply IH, Hf, Ha.
Qed.

(** Every department of the table has at least one user: an entry is
    created only for a user, whose count follows at once. *)
Lemma countDepartments_positive (db : Db) : totalsPositive (countDepartments db).
Proof.
  unfold countDepartments.
  apply fold_left_invariant; [apply countClick_positive|].
  apply fold_left_invariant; [apply countUser_positive|]. constructor.
Qed.

(** Three clicks of one user in a department of two give 150.0; the
    click of a user under an inherited name and the click of an unknown
    user are counted nowhere. *)
Example departmentRates_example :
  departmentRates Scenario.clicking
  = [ mkDeptRate "RRHH" 1 1 (Some "100.0"); mkDeptRate "Ventas" 2 3 (Some "150.0") ].
Proof. vm_compute. reflexivity. Qed.

(** *** What [total] counts *)

Lemma ownKey_In (k : string) (d : Departments) :
  ownKey k d = true <-> In k (map fst d).
Proof.
  induction d as [|[k' v] rest IH]; simpl; [split; [discriminate|tauto]|].
  rewrite orb_true_iff, String.eqb_eq, IH. tauto.
Qed.

Lemma updateKey_keys (k : string) (f : DeptCount -> DeptCount) (d : Departments) :
  map fst (updateKey k f d) = map fst d.
Proof.
  induction d as [|[k' v] rest IH]; simpl; [reflexivity|].
  destruct (k' =? k); simpl; [reflexivity|now rewrite IH].
Qed.

Lemma updateKey_absent (k : string) (f : DeptCount -> DeptCount) (d : Departments) :
  ownKey k d = false -> updateKey k f d = d.
Proof.
  induction d as [|[k' v] rest IH]; simpl; [reflexivity|].
  intros H. apply orb_false_iff in H as [H1 H2]. rewrite H1. now rewrite IH.
Qed.

Lemma In_updateKey (k : string) (f : DeptCount -> DeptCount) (d : Departments)
    (k' : string) (v' : DeptCount) :
  NoDup (map fst d) ->
  In (k', v') (updateKey k f d) ->
  (k' = k /\ exists v, In (k, v) d /\ v' = f v) \/ (k' <> k /\ In (k', v') d).
Proof.
  induction d as [|[k0 v0] rest IH]; simpl; intros Hnd Hin; [contradiction|].
  apply NoDup_cons_iff in Hnd as [Hfresh Hrest].
  destruct (k0 =? k) eqn:E.
  - apply String.eqb_eq in E. subst k0. destruct Hin as [[= <- <-]|Hin].
    + left. split; [reflexivity|]. exists v0. auto.
    + right. split; [|now right]. intros ->. apply Hfresh.
      apply in_map_iff. now exists (k, v').
  - apply String.eqb_neq in E. destruct Hin as [[= <- <-]|Hin].
    + right. split; [exact E|now left].
    + destruct (IH Hrest Hin) as [(-> & v & Hv & ->)|[Hne Hv]].
      * left. split; [reflexivity|]. exists v. auto.
      * right. auto.
Qed.

Lemma membersOf_snoc (k : string) (done : list User) (u : User) :
  membersOf k (done ++ [u])
  = membersOf k done + (if deptKey (user_department u) =? k then 1 else 0).
Proof.
  unfold membersOf. rewrite filter_app, length_app. simpl.
  now destruct (deptKey (user_department u) =? k).
Qed.

Lemma countUser_counted (done : list User) (d : Departments) (u : User) :
  counted done d -> counted (done ++ [u]) (countUser d u).
Proof.
  intros (Hnd & Htot & Hnone). unfold countUser.
  set (ku := deptKey (user_department u)).
  destruct (ownKey ku d) eqn:Eown.
  - (* the department has its entry *)
    unfold hasDept. rewrite Eown. simpl. split; [|split].
    + now rewrite updateKey_keys.
    + intros k v Hin. rewrite membersOf_snoc. fold ku.
      apply In_updateKey in Hin as [(-> & v0 & Hv0 & ->)|[Hne Hin]]; [| |exact Hnd].
      * rewrite String.eqb_refl. simpl. now rewrite (Htot ku v0 Hv0).
      * assert ((ku =? k) = false) as -> by (apply String.eqb_neq; congruence).
        rewrite (Htot k v Hin). lia.
    + intros k Hk Hinh. rewrite membersOf_snoc. fold ku.
      assert (Hk' : ownKey k d = false).
      { destruct (ownKey k d) eqn:E; [|reflexivity].
        apply ownKey_In in E. rewrite <- (updateKey_keys ku addTotal) in E.
        apply ownKey_In in E. congruence. }
      assert ((ku =? k) = false) as -> by (apply String.eqb_neq; congruence).
      rewrite (Hnone k Hk' Hinh). reflexivity.
  - destruct (JS.inherited ku) eqn:Einh.
    + (* an inherited name: the table is left as it was *)
      unfold hasDept. rewrite Eown, Einh. simpl. rewrite updateKey_absent by exact Eown.
      split; [exact Hnd|split].
      * intros k v Hin. rewrite membersOf_snoc. fold ku.
        assert ((ku =? k) = false) as ->.
        { apply String.eqb_neq. intros ->.
          assert (ownKey k d = true) by (apply ownKey_In, in_map_iff; now exists (k, v)).
          congruence. }
        rewrite (Htot k v Hin). lia.
      * intros k Hk Hinh. rewrite membersOf_snoc. fold ku.
        assert ((ku =? k) = false) as -> by (apply String.eqb_neq; congruence).
        rewrite (Hnone k Hk Hinh). reflexivity.
    + (* a new department *)
      unfold hasDept. rewrite Eown, Einh. simpl. rewrite updateKey_fresh by exact Eown.
      split; [|split].
      * rewrite map_app. simpl. apply NoDup_app; [exact Hnd|repeat constructor; intros []|].
        intros k Hin [<-|[]]. apply ownKey_In in Hin. congruence.
      * intros k v Hin. rewrite membersOf_snoc. fold ku.
        apply in_app_or in Hin as [Hin|[[= <- <-]|[]]].
        -- assert ((ku =? k) = false) as ->.
           { apply String.eqb_neq. intros ->.
             assert (ownKey k d = true) by (apply ownKey_In, in_map_iff; now exists (k, v)).
             congruence. }
           rewrite (Htot k v Hin). lia.
        -- rewrite String.eqb_refl. simpl. now rewrite (Hnone ku Eown Einh).
      * intros k Hk Hinh. rewrite membersOf_snoc. fold ku.
        assert (Hk' : ownKey k d = false /\ ku <> k).
        { split.
          - destruct (ownKey k d) eqn:E; [|reflexivity].
            apply ownKey_In in E.
            assert (ownKey k (d ++ [(ku, addTotal (mkDeptCount 0 0))])%list = true).
            { apply ownKey_In. rewrite map_app. apply in_or_app. now left. }
            congruence.
          - intros ->.
            assert (ownKey k (d ++ [(k, addTotal (mkDeptCount 0 0))])%list = true).
            { apply ownKey_In. rewrite map_app. apply in_or_app. right. now left. }
            congruence. }
        destruct Hk' as [Hk' Hne].
        assert ((ku =? k) = false) as -> by (now apply String.eqb_neq).
        rewrite (Hnone k Hk' Hinh). reflexivity.
Qed.

Lemma countUsers_counted (us : list User) :
  forall done d, counted done d -> counted (done ++ us) (fold_left countUser us d).
Proof.
  induction us as [|u rest IH]; intros done d H; simpl.
  - now rewrite app_nil_r.
  - replace (done ++ u :: rest)%list with ((done ++ [u]) ++ rest)%list
      by (now rewrite <- app_assoc).
    apply IH, countUser_counted, H.
Qed.

Lemma counted_nil : counted [] [].
Proof. split; [constructor|]. split; [intros k v []|reflexivity]. Qed.

(** The second pass changes no key and no [total]. *)
Lemma countClick_totals (users : list User) (d : Departments) (k : Click) :
  map (fun e => (fst e, dept_total (snd e))) (countClick users d k)
  = map (fun e => (fst e, dept_total (snd e))) d.
Proof.
  assert (Hupd : forall key d0,
             map (fun e => (fst e, dept_total (snd e))) (updateKey key addClicked d0)
             = map (fun e => (fst e, dept_total (snd e))) d0).
  { intros key d0. induction d0 as [|[k' v] rest IH]; simpl; [reflexivity|].
    destruct (k' =? key); simpl; [reflexivity|now rewrite IH]. }
  unfold countClick.
  destruct (find _ users) as [p|]; [|reflexivity].
  destruct (if JS.truthyOpt (user_department p) then Some p else find _ users) as [u|];
    [|reflexivity].
  destruct (JS.truthyOpt (user_department u) && hasDept _ d); [|reflexivity].
  apply Hupd.
Qed.

Lemma countDepartments_totals (db : Db) :
  map (fun e => (fst e, dept_total (snd e))) (countDepartments db)
  = map (fun e => (fst e, dept_total (snd e))) (fold_left countUser (Users db) []).
Proof.
  unfold countDepartments.
  apply (fold_left_invariant
           (fun d => map (fun e => (fst e, dept_total (snd e))) d
                     = map (fun e => (fst e, dept_total (snd e)))
                         (fold_left countUser (Users db) []))).
  - intros d k H. now rewrite countClick_totals.
  - reflexivity.
Qed.

(** The report has one entry per department, and its [total] is the
    number of users of that department. *)
Theorem departmentRates_totals (db : Db) :
  NoDup (map department (departmentRates db))
  /\ Forall (fun e => total e = membersOf (department e) (Users db))
       (departmentRates db).
Proof.
  destruct (countUsers_counted (Users db) [] [] counted_nil) as (Hnd & Htot & _).
  simpl in Htot.
  assert (E : map (fun e => (department e, total e)) (departmentRates db)
              = map (fun e => (fst e, dept_total (snd e)))
                  (fold_left countUser (Users db) [])).
  { unfold departmentRates. rewrite map_map. simpl. apply countDepartments_totals. }
  split.
  - replace (map department (departmentRates db))
      with (map fst (map (fun e => (department e, total e)) (departmentRates db)))
      by (rewrite map_map; reflexivity).
    rewrite E, map_map. simpl. exact Hnd.
  - apply Forall_forall. intros e Hin.
    assert (Hp : In (department e, total e)
                   (map (fun e => (fst e, dept_total (snd e)))
                      (fold_left countUser (Users db) []))).
    { rewrite <- E. apply in_map_iff. now exists e. }
    apply in_map_iff in Hp as ([k v] & [= <- Ev] & Hv). simpl in *.
    rewrite <- Ev. now apply Htot.
Qed.

(** * Further properties of the handlers *)

(** ** Tracking routes *)

Lemma running_consistent : consistent Scenario.running.
Proof.
  split; [repeat constructor; intros []|].
  intros c [<-|[]]. split; reflexivity.
Qed.

Lemma createCampaign_consistent_witness :
  consistent
    (snd (fst (createCampaign simulated (Scenario.calm 11) Scenario.threeTargets
                 Scenario.running))).
Proof.
  apply (createCampaign_consistent simulated (Scenario.calm 11) Scenario.threeTargets
           Scenario.running).
  - exact running_consistent.
  - reflexivity.
  - reflexivity.
  - split; reflexivity.
Defined.

(** In a store whose campaigns have distinct ids and counters equal to
    the numbers of their events, the same holds after any sequence of
    calls of the four recording routes, successful or not, the
    compatibility routes included: for a campaign that exists, the
    counter and the events move together. *)
Theorem recording_keeps_counters (db db' : Db) :
  consistent db -> recorded db db' -> consistent db'.
Proof.
  intros H0 Hrec. induction Hrec as [|db1 clock r _ IH|db1 clock r _ IH
                                     |db1 clock r _ IH|db1 clock r _ IH].
  - exact H0.
  - unfold trackClick.
    destruct (findCampaign _ db1); [destruct (findUser _ db1)|]; cbn [snd]; try exact IH.
    exact (click_step_consistent (mkClick _ _ _ _ _ _) db1 IH).
  - unfold trackPhishing.
    destruct (ph_campaignId r) as [cid|]; [destruct (ph_userId r) as [uid|]|];
      cbn [fst snd]; try exact IH.
    destruct (findCampaign cid db1); [destruct (findUser uid db1)|];
      cbn [fst snd]; try exact IH.
    exact (credential_step_consistent (mkCredential _ _ _ _) db1 IH).
  - exact (click_step_consistent (clickOf clock r) db1 IH).
  - exact (credential_step_consistent (mkCredential _ _ _ _) db1 IH).
Qed.

Lemma recording_keeps_counters_witness :
  consistent
    (snd (fst (trackPhishing 2001 (Scenario.submit 10 1 "hunter2")
                 (snd (apiTrackClick 2000 (Scenario.manual 42 2) Scenario.running))))).
Proof.
  apply (recording_keeps_counters Scenario.running).
  - exact running_consistent.
  - apply recorded_form, recorded_click, recorded_none.
Defined.


(** The four answers of the decoy form on the running campaign. *)
Example trackPhishingRoute_answers :
  map (fun ids =>
         statusCode
           (fst (fst (trackPhishingRoute 2000
                        (mkPhishingBody (fst ids) (snd ids) None (Some "hunter2"))
                        Scenario.running))))
    [ (Some (Castable 10), Some (Castable 1)); (Some (Castable 10), Some (Castable 99));
      (Some (Castable 10), Some (Uncastable "me")); (Some (Castable 10), None);
      (Some (Uncastable ""), Some (Castable 1)) ]
  = [200; 404; 500; 400; 400].
Proof. reflexivity. Qed.

(** The decoy form asks for no click: its answer, its console lines and
    what it does to campaigns and credentials are the same whatever
    Clicks the store holds, the empty collection included. *)
Theorem trackPhishing_needs_no_click (clock : nat) (r : PhishingRequest) (db : Db)
    (others : list Click) :
  fst (fst (trackPhishing clock r (mkDb (Users db) (Campaigns db) others (Credentials db))))
  = fst (fst (trackPhishing clock r db))
  /\ snd (trackPhishing clock r (mkDb (Users db) (Campaigns db) others (Credentials db)))
     = snd (trackPhishing clock r db)
  /\ Campaigns
       (snd (fst (trackPhishing clock r
                    (mkDb (Users db) (Campaigns db) others (Credentials db)))))
     = Campaigns (snd (fst (trackPhishing clock r db)))
  /\ Credentials
       (snd (fst (trackPhishing clock r
                    (mkDb (Users db) (Campaigns db) others (Credentials db)))))
     = Credentials (snd (fst (trackPhishing clock r db))).
Proof.
  unfold trackPhishing, findCampaign, findUser. cbn [Users Campaigns].
  destruct (ph_campaignId r) as [cid|]; [destruct (ph_userId r) as [uid|]|];
    try (repeat split; reflexivity).
  destruct (find _ (Campaigns db)); [destruct (find _ (Users db))|];
    repeat split; reflexivity.
Qed.

(** ** What no handler undoes *)

Lemma grownFrom_refl (c : Campaign) : grownFrom c c.
Proof. unfold grownFrom. repeat split; lia. Qed.

Lemma grownFrom_trans (a b c : Campaign) :
  grownFrom a b -> grownFrom b c -> grownFrom a c.
Proof.
  unfold grownFrom.
  intros (A1 & A2 & A3 & A4 & A5 & A6 & A7 & A8 & A9 & A10)
         (B1 & B2 & B3 & B4 & B5 & B6 & B7 & B8 & B9 & B10).
  repeat split; try congruence; lia.
Qed.

Lemma grown_refl (cs : list Campaign) : Forall2 grownFrom cs cs.
Proof. induction cs; constructor; [apply grownFrom_refl|assumption]. Qed.

Lemma grown_trans (xs : list Campaign) :
  forall ys zs, Forall2 grownFrom xs ys -> Forall2 grownFrom ys zs -> Forall2 grownFrom xs zs.
Proof.
  induction xs as [|x xs IH]; intros ys zs Hxy Hyz.
  - inversion Hxy; subst. inversion Hyz; subst. constructor.
  - inversion Hxy as [|? y ? ys' Hx Hxs]; subst.
    inversion Hyz as [|? z ? zs' Hy Hys]; subst.
    constructor; [eapply grownFrom_trans; eassumption|eapply IH; eassumption].
Qed.

Lemma updateFirst_grown (id : ObjectId) (f : Campaign -> Campaign) (cs : list Campaign) :
  (forall c, grownFrom c (f c)) -> Forall2 grownFrom cs (updateFirst id f cs).
Proof.
  intros Hf. induction cs as [|c rest IH]; simpl; [constructor|].
  destruct (N.eqb (campaign_id c) id).
  - constructor; [apply Hf|apply grown_refl].
  - constructor; [apply grownFrom_refl|exact IH].
Qed.

Lemma incClicks_grown (c : Campaign) : grownFrom c (incClicks c).
Proof. unfold grownFrom. simpl. repeat split; lia. Qed.

Lemma incCredentials_grown (c : Campaign) : grownFrom c (incCredentials c).
Proof. unfold grownFrom. simpl. repeat split; lia. Qed.

Lemma extends_refl (db : Db) : extends db db.
Proof.
  split; [reflexivity|]. split; [exists []; now rewrite app_nil_r|].
  split; [exists []; now rewrite app_nil_r|].
  exists (Campaigns db), []. split; [now rewrite app_nil_r|apply grown_refl].
Qed.

Lemma extends_trans (a b c : Db) : extends a b -> extends b c -> extends a c.
Proof.
  intros (U1 & [k1 K1] & [d1 D1] & (g1 & m1 & G1 & F1))
         (U2 & [k2 K2] & [d2 D2] & (g2 & m2 & G2 & F2)).
  split; [congruence|].
  split; [exists (k1 ++ k2)%list; now rewrite K2, K1, app_assoc|].
  split; [exists (d1 ++ d2)%list; now rewrite D2, D1, app_assoc|].
  rewrite G1 in F2. apply Forall2_app_inv_l in F2 as (ga & gb & Fa & Fb & ->).
  exists ga, (gb ++ m2)%list. split; [now rewrite G2, app_assoc|].
  eapply grown_trans; eassumption.
Qed.

Lemma click_step_extends (k : Click) (db : Db) :
  extends db (updateCampaign (click_campaignId k) incClicks (saveClick k db)).
Proof.
  split; [reflexivity|]. split; [now exists [k]|]. split; [exists []; simpl; now rewrite app_nil_r|].
  exists (updateFirst (click_campaignId k) incClicks (Campaigns db)), [].
  split; [simpl; now rewrite app_nil_r|].
  apply updateFirst_grown, incClicks_grown.
Qed.

Lemma credential_step_extends (k : Credential) (db : Db) :
  extends db (updateCampaign (cred_campaignId k) incCredentials (saveCredential k db)).
Proof.
  split; [reflexivity|]. split; [exists []; simpl; now rewrite app_nil_r|].
  split; [now exists [k]|].
  exists (updateFirst (cred_campaignId k) incCredentials (Campaigns db)), [].
  split; [simpl; now rewrite app_nil_r|].
  apply updateFirst_grown, incCredentials_grown.
Qed.

Lemma createCampaign_extends (b : Build) (out : Outside) (req : CampaignRequest) (db : Db) :
  extends db (snd (fst (createCampaign b out req db))).
Proof.
  through_guards req ltac:(apply extends_refl).
  cbv zeta. destruct (findCampaign _ db); [apply extends_refl|].
  cbn [fst snd]. split; [reflexivity|].
  split; [exists []; simpl; now rewrite app_nil_r|].
  split; [exists []; simpl; now rewrite app_nil_r|].
  exists (Campaigns db), [newCampaign out req]. split; [reflexivity|apply grown_refl].
Qed.

Lemma step_extends (db db' : Db) : step db db' -> extends db db'.
Proof.
  intros [b out req|clock r|clock r|clock r|clock r].
  - apply createCampaign_extends.
  - unfold trackClick.
    destruct (findCampaign _ db); [destruct (findUser _ db)|];
      cbn [snd]; try apply extends_refl.
    exact (click_step_extends (mkClick _ _ _ _ _ _) db).
  - unfold trackPhishing.
    destruct (ph_campaignId r) as [cid|]; [destruct (ph_userId r) as [uid|]|];
      cbn [fst snd]; try apply extends_refl.
    destruct (findCampaign cid db); [destruct (findUser uid db)|];
      cbn [fst snd]; try apply extends_refl.
    exact (credential_step_extends (mkCredential _ _ _ _) db).
  - exact (click_step_extends (clickOf clock r) db).
  - exact (credential_step_extends (mkCredential _ _ _ _) db).
Qed.

Lemma extends_of_steps (db db' : Db) : steps db db' -> extends db db'.
Proof.
  induction 1 as [|db1 db2 _ IH Hstep]; [apply extends_refl|].
  eapply extends_trans; [exact IH|]. now apply step_extends.
Qed.

(** Whatever calls of the campaign and tracking routes are made, in
    whatever order and whether they succeed or not, the store only
    grows: the users are the same, every Click and Credential is still
    there, unchanged and in its place, with new ones after them, and
    every campaign is still there, unchanged but for counters that are
    not lower, with new campaigns after them. *)
Theorem steps_extend (db db' : Db) : steps db db' -> extends db db'.
Proof. apply extends_of_steps. Qed.

Lemma steps_extend_witness : extends Scenario.running Scenario.adopted.
Proof.
  apply (steps_extend Scenario.running Scenario.adopted).
  apply (steps_more _ Scenario.strayed).
  - apply (steps_more _ Scenario.running); [apply steps_none|].
    exact (step_apiTrackClick Scenario.running 2000 (Scenario.manual 42 2)).
  - exact (step_createCampaign Scenario.strayed simulated (Scenario.calm 11) Scenario.adopt).
Defined.

(** ** More on the dispatch *)

Lemma mailsFor_transporter (b : Build) (clock : nat) (id : ObjectId)
    (draw : nat -> option string) (send send' : nat -> MailOptions -> bool)
    (c : Campaign) (us : list User) :
  forall i,
    mailsFor b (mkOutside clock id draw send) c i us
    = mailsFor b (mkOutside clock id draw send') c i us.
Proof.
  induction us as [|u rest IH]; intros i; simpl; [reflexivity|]. now rewrite IH.
Qed.

(** What the transporter answers changes neither the status, nor the
    store, nor the messages handed to it: a message that is rejected
    stops nothing and undoes nothing. *)
Theorem createCampaign_whatever_transporter (b : Build) (clock : nat) (id : ObjectId)
    (draw : nat -> option string) (send send' : nat -> MailOptions -> bool)
    (req : CampaignRequest) (db : Db) :
  statusCode (fst (fst (createCampaign b (mkOutside clock id draw send) req db)))
  = statusCode (fst (fst (createCampaign b (mkOutside clock id draw send') req db)))
  /\ snd (fst (createCampaign b (mkOutside clock id draw send) req db))
     = snd (fst (createCampaign b (mkOutside clock id draw send') req db))
  /\ snd (createCampaign b (mkOutside clock id draw send) req db)
     = snd (createCampaign b (mkOutside clock id draw send') req db).
Proof.
  through_guards req ltac:(repeat split).
  cbv zeta.
  change (newCampaign (mkOutside clock id draw send') req)
    with (newCampaign (mkOutside clock id draw send) req).
  destruct (findCampaign _ db); [repeat split|].
  cbn [fst snd statusCode]. split; [reflexivity|]. split; [reflexivity|].
  rewrite !sendAll_outbox. simpl. apply mailsFor_transporter.
Qed.

Lemma sendAll_sent (b : Build) (out : Outside) (c : Campaign) (us : list User) :
  forall i t,
    emailsSent (sendAll b out c i us t) = emailsSent t + acceptedFrom b out c i us.
Proof.
  induction us as [|u rest IH]; intros i t; simpl; [lia|].
  rewrite IH. unfold sendOne. destruct (randomHex out i) as [tok|]; simpl; [|lia].
  destruct (sendMail out i (emailFor b c u tok)); simpl; lia.
Qed.

Lemma acceptedFrom_le (b : Build) (out : Outside) (c : Campaign) (us : list User) :
  forall i, acceptedFrom b out c i us <= List.length us.
Proof.
  induction us as [|u rest IH]; intros i; simpl; [lia|].
  specialize (IH (S i)). destruct (randomHex out i) as [tok|]; [|lia].
  destruct (sendMail out i (emailFor b c u tok)); lia.
Qed.

(** For a request that is accepted, emailsSent is the number of users
    found whose token was drawn and whose message the transporter
    accepted, and emailsFailed is the number of the other users found.
    The status is 201 and the campaign is stored in every case, also
    when no message was accepted. *)
Theorem createCampaign_sent_is_accepted (b : Build) (out : Outside)
    (req : CampaignRequest) (db : Db) :
  passesValidation req = true ->
  findCampaign (campaign_id (newCampaign out req)) db = None ->
  exists msg mails,
    createCampaign b out req db
    = (mkResponse 201
         (CampaignCreated (newCampaign out req) msg
            (acceptedFrom b out (newCampaign out req) 0
               (findUsersIn (declaredTargets req) db))
            (List.length (findUsersIn (declaredTargets req) db)
             - acceptedFrom b out (newCampaign out req) 0
                 (findUsersIn (declaredTargets req) db))),
       insertCampaign (newCampaign out req) db, mails).
Proof.
  intros Hv Hfresh. rewrite (createCampaign_created b out req db Hv Hfresh).
  cbv zeta.
  pose proof (sendAll_counts b out (newCampaign out req)
                (findUsersIn (declaredTargets req) db) 0 (mkTally 0 0 [])) as Hsum.
  pose proof (sendAll_sent b out (newCampaign out req)
                (findUsersIn (declaredTargets req) db) 0 (mkTally 0 0 [])) as Hsent.
  cbn [emailsSent emailsFailed] in Hsum, Hsent.
  replace (List.length (findUsersIn (declaredTargets req) db)
           - acceptedFrom b out (newCampaign out req) 0
               (findUsersIn (declaredTargets req) db))
    with (emailsFailed (sendAll b out (newCampaign out req) 0
                          (findUsersIn (declaredTargets req) db) (mkTally 0 0 [])))
    by lia.
  rewrite <- (Nat.add_0_l (acceptedFrom _ _ _ _ _)), <- Hsent.
  do 2 eexists. reflexivity.
Qed.

Lemma createCampaign_sent_is_accepted_witness :
  exists msg mails,
    createCampaign simulated (Scenario.flaky 10) Scenario.threeTargets Scenario.staff
    = (mkResponse 201
         (CampaignCreated (newCampaign (Scenario.flaky 10) Scenario.threeTargets) msg
            (acceptedFrom simulated (Scenario.flaky 10)
               (newCampaign (Scenario.flaky 10) Scenario.threeTargets) 0
               (findUsersIn (declaredTargets Scenario.threeTargets) Scenario.staff))
            (List.length (findUsersIn (declaredTargets Scenario.threeTargets) Scenario.staff)
             - acceptedFrom simulated (Scenario.flaky 10)
                 (newCampaign (Scenario.flaky 10) Scenario.threeTargets) 0
                 (findUsersIn (declaredTargets Scenario.threeTargets) Scenario.staff))),
       insertCampaign (newCampaign (Scenario.flaky 10) Scenario.threeTargets)
         Scenario.staff,
       mails).
Proof.
  apply (createCampaign_sent_is_accepted simulated (Scenario.flaky 10)
           Scenario.threeTargets Scenario.staff); reflexivity.
Defined.

(** ** From the message to the decoy form *)

(** The two outcomes of the link route, for use in the proofs below. *)
Lemma trackClick_contract_cases (clock : nat) (r : TrackRequest) (db : Db) :
  (exists c u,
      findCampaign (param_campaignId r) db = Some c
      /\ findUser (param_userId r) db = Some u
      /\ statusCode (fst (trackClick clock r db)) = 302
      /\ snd (trackClick clock r db)
         = updateCampaign (param_campaignId r) incClicks
             (saveClick
                (mkClick (param_campaignId r) (param_userId r) (Some (param_token r))
                   (Some (requesterIp r))
                   (Some (JS.orElse (userAgentHeader r) "unknown")) clock) db)
      /\ findCampaign (param_campaignId r) (snd (trackClick clock r db))
         = Some (incClicks c))
  \/ ((findCampaign (param_campaignId r) db = None
       \/ findUser (param_userId r) db = None)
      /\ (statusCode (fst (trackClick clock r db)) = 404
          /\ snd (trackClick clock r db) = db)).
Proof.
  unfold trackClick.
  destruct (findCampaign (param_campaignId r) db) as [c|] eqn:Ec;
    [destruct (findUser (param_userId r) db) as [u|] eqn:Eu|].
  - left. exists c, u. cbn [fst snd statusCode]. repeat split.
    apply findCampaign_updateFirst; [reflexivity|exact Ec].
  - right. cbn [fst snd statusCode]. auto.
  - right. cbn [fst snd statusCode]. auto.
Qed.

Lemma findCampaign_inserted (c : Campaign) (db : Db) :
  findCampaign (campaign_id c) db = None ->
  findCampaign (campaign_id c) (insertCampaign c db) = Some c.
Proof.
  unfold findCampaign, insertCampaign. cbn [Campaigns].
  induction (Campaigns db) as [|c0 rest IH]; simpl.
  - now rewrite N.eqb_refl.
  - destruct (N.eqb (campaign_id c0) (campaign_id c)); [discriminate|exact IH].
Qed.

Lemma findUser_of_id (id : ObjectId) (db : Db) :
  In id (map user_id (Users db)) -> exists u, findUser id db = Some u.
Proof.
  unfold findUser. intros Hin. apply in_map_iff in Hin as (u & E & Hu).
  destruct (find (fun v => N.eqb (user_id v) id) (Users db)) as [v|] eqn:F; [now exists v|].
  apply (find_none _ _ F) in Hu. apply N.eqb_neq in Hu. contradiction.
Qed.

(** The link sent to a recipient works: once a request is accepted, a
    visit of the link route with the id of the new campaign and the id
    of any user found for the target list is answered with the redirect
    and raises [clicks] of the new campaign from its initial value by
    one. *)
Theorem sent_link_is_recorded (b : Build) (out : Outside) (req : CampaignRequest)
    (db : Db) (clock : nat) (r : TrackRequest) :
  passesValidation req = true ->
  findCampaign (campaign_id (newCampaign out req)) db = None ->
  param_campaignId r = campaign_id (newCampaign out req) ->
  In (param_userId r) (map user_id (findUsersIn (declaredTargets req) db)) ->
  statusCode (fst (trackClick clock r (snd (fst (createCampaign b out req db))))) = 302
  /\ findCampaign (param_campaignId r)
       (snd (trackClick clock r (snd (fst (createCampaign b out req db)))))
     = Some (incClicks (newCampaign out req)).
Proof.
  intros Hv Hfresh Hc Hu. rewrite (createCampaign_created b out req db Hv Hfresh).
  cbn [fst snd]. set (campaign := newCampaign out req) in *.
  assert (Hfound : exists u, findUser (param_userId r) (insertCampaign campaign db) = Some u).
  { apply findUser_of_id. cbn [insertCampaign Users].
    apply in_map_iff in Hu as (u & E & Hin). apply filter_In in Hin as [Hin _].
    apply in_map_iff. now exists u. }
  destruct Hfound as [u Eu].
  pose proof (findCampaign_inserted campaign db Hfresh) as Ec. rewrite <- Hc in Ec.
  destruct (trackClick_contract_cases clock r (insertCampaign campaign db))
    as [(c' & u' & Ec' & _ & Hs & _ & Hf)|[[E|E] _]]; [|congruence|congruence].
  rewrite Ec in Ec'. injection Ec' as <-. split; assumption.
Qed.

Lemma sent_link_is_recorded_witness :
  statusCode
    (fst (trackClick 2000 (Scenario.visit 10 2)
            (snd (fst (createCampaign simulated (Scenario.flaky 10) Scenario.threeTargets
                         Scenario.staff))))) = 302
  /\ findCampaign (param_campaignId (Scenario.visit 10 2))
       (snd (trackClick 2000 (Scenario.visit 10 2)
               (snd (fst (createCampaign simulated (Scenario.flaky 10)
                            Scenario.threeTargets Scenario.staff)))))
     = Some (incClicks (newCampaign (Scenario.flaky 10) Scenario.threeTargets)).
Proof.
  apply (sent_link_is_recorded simulated (Scenario.flaky 10) Scenario.threeTargets
           Scenario.staff 2000 (Scenario.visit 10 2)); try reflexivity.
  simpl. auto.
Defined.

(** A redirect of the link route never leads to a missing page: the
    decoy page of the two ids is served from the store the visit left,
    and the form of that page, whatever is typed in, is answered with
    200; after it the campaign has one click and one credential event
    more than before the visit. *)
Theorem redirect_leads_to_form (clock : nat) (r : TrackRequest) (db : Db)
    (clock' : nat) (email password : string) :
  statusCode (fst (trackClick clock r db)) = 302 ->
  body (fst (trackClick clock r db))
  = Redirect ("/phishing/" ++ oidString (param_campaignId r) ++ "/"
              ++ oidString (param_userId r))
  /\ phishingPage (param_campaignId r) (param_userId r) (snd (trackClick clock r db))
     = (200, DecoyPage (oidString (param_campaignId r)) (oidString (param_userId r)))
  /\ statusCode
       (fst (fst (trackPhishing clock'
                    (formPost (param_campaignId r) (param_userId r) email password)
                    (snd (trackClick clock r db))))) = 200
  /\ exists c,
       findCampaign (param_campaignId r) db = Some c
       /\ findCampaign (param_campaignId r)
            (snd (fst (trackPhishing clock'
                         (formPost (param_campaignId r) (param_userId r) email password)
                         (snd (trackClick clock r db)))))
          = Some (incCredentials (incClicks c)).
Proof.
  intros H302.
  destruct (trackClick_contract_cases clock r db)
    as [(c & u & Ec & Eu & _ & Edb & Ec1)|[_ [H404 _]]]; [|congruence].
  assert (Eu1 : findUser (param_userId r) (snd (trackClick clock r db)) = Some u).
  { rewrite Edb. exact Eu. }
  split.
  { unfold trackClick. rewrite Ec, Eu. reflexivity. }
  split.
  { unfold phishingPage. now rewrite Ec1, Eu1. }
  unfold trackPhishing, formPost. cbn [ph_campaignId ph_userId]. rewrite Ec1, Eu1.
  cbn [fst snd statusCode]. split; [reflexivity|].
  exists c. split; [exact Ec|].
  apply findCampaign_updateFirst; [reflexivity|].
  exact Ec1.
Qed.

Lemma redirect_leads_to_form_witness :
  body (fst (trackClick 2000 (Scenario.visit 10 1) Scenario.running))
  = Redirect ("/phishing/" ++ oidString (param_campaignId (Scenario.visit 10 1)) ++ "/"
              ++ oidString (param_userId (Scenario.visit 10 1)))
  /\ phishingPage (param_campaignId (Scenario.visit 10 1))
       (param_userId (Scenario.visit 10 1))
       (snd (trackClick 2000 (Scenario.visit 10 1) Scenario.running))
     = (200, DecoyPage (oidString (param_campaignId (Scenario.visit 10 1)))
               (oidString (param_userId (Scenario.visit 10 1))))
  /\ statusCode
       (fst (fst (trackPhishing 2001
                    (formPost (param_campaignId (Scenario.visit 10 1))
                       (param_userId (Scenario.visit 10 1)) "ana@empresa.com" "hunter2")
                    (snd (trackClick 2000 (Scenario.visit 10 1) Scenario.running))))) = 200
  /\ exists c,
       findCampaign (param_campaignId (Scenario.visit 10 1)) Scenario.running = Some c
       /\ findCampaign (param_campaignId (Scenario.visit 10 1))
            (snd (fst (trackPhishing 2001
                         (formPost (param_campaignId (Scenario.visit 10 1))
                            (param_userId (Scenario.visit 10 1)) "ana@empresa.com"
                            "hunter2")
                         (snd (trackClick 2000 (Scenario.visit 10 1) Scenario.running)))))
          = Some (incCredentials (incClicks c)).
Proof.
  apply (redirect_leads_to_form 2000 (Scenario.visit 10 1) Scenario.running 2001
           "ana@empresa.com" "hunter2").
  reflexivity.
Defined.

(** ** The placeholder *)

Lemma prefix_drop (pat s : string) :
  prefix pat s = true -> s = pat ++ JS.drop (String.length pat) s.
Proof.
  revert s. induction pat as [|a pat IH]; intros s H; simpl; [now destruct s|].
  destruct s as [|c s]; simpl in H; [discriminate|].
  destruct (ascii_dec a c) as [<-|Hne]; [|discriminate].
  simpl. f_equal. now apply IH.
Qed.

Lemma splitFirst_cons (pat : string) (c : ascii) (r : string) :
  JS.splitFirst pat (String c r)
  = if prefix pat (String c r)
    then Some ("", JS.drop (String.length pat) (String c r))
    else match JS.splitFirst pat r with
         | Some (before, after) => Some (String c before, after)
         | None => None
         end.
Proof. reflexivity. Qed.

Lemma occursIn_cons (pat : string) (c : ascii) (r : string) :
  occursIn pat (String c r) = prefix pat (String c r) || occursIn pat r.
Proof. reflexivity. Qed.

Lemma splitFirst_absent (pat s : string) :
  occursIn pat s = false -> JS.splitFirst pat s = None.
Proof.
  induction s as [|c r IH].
  - cbn [occursIn JS.splitFirst]. intros H. apply orb_false_iff in H as [H _].
    now rewrite H.
  - rewrite occursIn_cons, splitFirst_cons. intros H.
    apply orb_false_iff in H as [H1 H2]. rewrite H1. now rewrite IH.
Qed.

Lemma prefix_append (pat rest : string) : prefix pat (pat ++ rest) = true.
Proof.
  induction pat as [|a pat IH]; simpl; [now destruct rest|].
  destruct (ascii_dec a a) as [_|Hne]; [exact IH|now destruct Hne].
Qed.

(** The split is at the first occurrence: no occurrence starts
    earlier. *)
Lemma splitFirst_present (pat s : string) :
  occursIn pat s = true ->
  exists before after,
    JS.splitFirst pat s = Some (before, after) /\ s = before ++ pat ++ after
    /\ forall before' after',
         s = before' ++ pat ++ after' -> String.length before <= String.length before'.
Proof.
  induction s as [|c r IH].
  - cbn [occursIn JS.splitFirst]. rewrite orb_false_r. intros H. rewrite H.
    exists "", (JS.drop (String.length pat) "").
    split; [reflexivity|]. split; [now apply prefix_drop|]. intros; simpl; lia.
  - rewrite occursIn_cons, splitFirst_cons. intros H.
    destruct (prefix pat (String c r)) eqn:P.
    + exists "", (JS.drop (String.length pat) (String c r)).
      split; [reflexivity|]. split; [now apply prefix_drop|]. intros; simpl; lia.
    + destruct (IH H) as (b0 & a0 & E & Er & Hmin).
      exists (String c b0), a0. rewrite E. split; [reflexivity|].
      split; [now rewrite Er at 1|].
      intros b' a' Eb. destruct b' as [|c' b''].
      * simpl in Eb. rewrite Eb, prefix_append in P. discriminate.
      * simpl in Eb. injection Eb as _ Eb. simpl. specialize (Hmin b'' a' Eb). lia.
Qed.

Lemma getSubstitution_plain (matched before after template : string) :
  hasDollar template = false ->
  JS.getSubstitution matched before after template = template.
Proof.
  induction template as [|c r IH]; simpl; [reflexivity|].
  intros H. apply orb_false_iff in H as [H1 H2]. rewrite H1. f_equal. now apply IH.
Qed.

Lemma hasDollar_app (s t : string) : hasDollar (s ++ t) = hasDollar s || hasDollar t.
Proof.
  induction s as [|c r IH]; simpl; [reflexivity|]. now rewrite IH, orb_assoc.
Qed.

Lemma hexDigit_plain (m : N) : (m < 16)%N -> (JS.hexDigit m =? "$")%char = false.
Proof.
  intros H. destruct m as [|p]; [reflexivity|].
  do 4 (destruct p as [p|p|]; try reflexivity; try lia).
Qed.

Lemma hexString_plain (digits : nat) : forall n, hasDollar (JS.hexString digits n) = false.
Proof.
  induction digits as [|d IH]; intros n; simpl; [reflexivity|].
  rewrite hasDollar_app, IH. simpl.
  rewrite hexDigit_plain; [reflexivity|]. apply N.mod_lt. discriminate.
Qed.

(** A body without the placeholder is sent as it is, with no link and
    no error.  A body with the placeholder is sent with its first
    [LINK] replaced by the tracking URL of the recipient, the text
    before and after it untouched, provided the URL holds no dollar
    sign (a dollar sign in the replacement is a pattern of
    [String.prototype.replace]).  With the fixed base URL of the
    simulated build the URL holds none when the token holds none. *)
Theorem emailFor_placeholder (b : Build) (c : Campaign) (u : User) (token : string) :
  (occursIn "[LINK]" (customBody c) = false ->
   mail_text (emailFor b c u token) = customBody c)
  /\ (occursIn "[LINK]" (customBody c) = true ->
      hasDollar (trackingUrl b c u token) = false ->
      exists before after,
        customBody c = before ++ "[LINK]" ++ after
        /\ (forall before' after',
              customBody c = before' ++ "[LINK]" ++ after' ->
              String.length before <= String.length before')
        /\ mail_text (emailFor b c u token)
           = before ++ trackingUrl b c u token ++ after)
  /\ (hasDollar token = false -> hasDollar (trackingUrl simulated c u token) = false).
Proof.
  unfold emailFor, JS.replace. cbn [mail_text]. split; [|split].
  - intros H. now rewrite splitFirst_absent.
  - intros H Hd. destruct (splitFirst_present _ _ H) as (before & after & E & Eb & Hmin).
    exists before, after. rewrite E. split; [exact Eb|]. split; [exact Hmin|].
    now rewrite getSubstitution_plain.
  - intros Ht. unfold trackingUrl, oidString.
    rewrite !hasDollar_app, !hexString_plain, Ht. reflexivity.
Qed.

(** In a URL with a dollar sign the patterns are expanded: [$&] brings
    the placeholder back. *)
Example emailFor_dollar :
  mail_text
    (emailFor (smtp (mkProcessEnv (Some "http://x/$&") None None None)) Scenario.q3
       Scenario.ana "ab")
  = "Hola http://x/[LINK]/track/00000000000000000000000a/000000000000000000000001/ab".
Proof. reflexivity. Qed.

(** ** The messages of a dispatch *)

Lemma linesOf_inhabited (s : string) : linesOf s <> [].
Proof.
  destruct s as [|c r]; simpl; [discriminate|].
  destruct (c =? JS.LF)%char; [discriminate|]. now destruct (linesOf r).
Qed.

(** Replacing every line feed by <br> is cutting the text at its line
    feeds and joining the lines with <br>. *)
Lemma replaceNewlines_lines (s : string) : JS.replaceNewlines s = joinBr (linesOf s).
Proof.
  induction s as [|c r IH]; [reflexivity|].
  pose proof (linesOf_inhabited r) as Hne.
  cbn [JS.replaceNewlines linesOf]. destruct (c =? JS.LF)%char.
  - rewrite IH. destruct (linesOf r) as [|l ls]; [now destruct Hne|reflexivity].
  - rewrite IH. destruct (linesOf r) as [|l ls]; [now destruct Hne|].
    now destruct ls.
Qed.

Lemma replace_linkPlaced (body url : string) :
  linkPlaced body url (JS.replace "[LINK]" url body).
Proof.
  unfold linkPlaced, JS.replace. destruct (occursIn "[LINK]" body) eqn:O.
  - right. destruct (splitFirst_present _ _ O) as (before & after & E & Eb & Hmin).
    exists before, after, (JS.getSubstitution "[LINK]" before after url).
    rewrite E. split; [exact Eb|]. split; [exact Hmin|]. split; [reflexivity|].
    intros Hd. now apply getSubstitution_plain.
  - left. split; [reflexivity|]. now rewrite splitFirst_absent.
Qed.

Lemma emailFor_rendering (b : Build) (c : Campaign) (u : User) (token : string) :
  rendering b c u token (emailFor b c u token).
Proof.
  unfold rendering, emailFor. cbn [mail_from mail_to mail_subject mail_text mail_html].
  split; [reflexivity|]. split; [reflexivity|]. split; [reflexivity|]. split.
  - apply replace_linkPlaced.
  - split; [now rewrite replaceNewlines_lines|].
    intros H. now rewrite replaceNewlines_verbatim.
Qed.

Lemma mailsFor_rendering (b : Build) (out : Outside) (c : Campaign) (us : list User) :
  forall i,
    Forall2 (fun ut mail => rendering b c (fst ut) (snd ut) mail)
      (drawnFor out i us) (mailsFor b out c i us).
Proof.
  induction us as [|u rest IH]; intros i; simpl; [constructor|].
  destruct (randomHex out i) as [token|]; simpl.
  - constructor; [apply emailFor_rendering|apply IH].
  - apply IH.
Qed.

(** C9, as the code has it.  When a request is accepted, the
    transporter is handed exactly one message for each recipient (each
    user found for the target list) whose token was drawn, in the order
    of the recipients, and none for a recipient whose token could not
    be drawn.  The message is addressed to the recipient; its text is
    the body of the campaign with its first [LINK] replaced (the body
    as it is when it holds none), by the recipient's tracking URL when
    that URL holds no dollar sign; its HTML variant is that same text,
    its lines joined by <br>, inside the container of the build.
    Nothing is escaped: a text without line feeds is placed in the
    container character for character. *)
Theorem createCampaign_mail_bodies (b : Build) (out : Outside)
    (req : CampaignRequest) (db : Db) :
  passesValidation req = true ->
  findCampaign (campaign_id (newCampaign out req)) db = None ->
  Forall2 (fun ut mail => rendering b (newCampaign out req) (fst ut) (snd ut) mail)
    (drawnFor out 0 (findUsersIn (declaredTargets req) db))
    (snd (createCampaign b out req db)).
Proof.
  intros Hv Hfresh. rewrite (createCampaign_created b out req db Hv Hfresh).
  cbn [snd]. rewrite sendAll_outbox. apply mailsFor_rendering.
Qed.

Lemma createCampaign_mail_bodies_witness :
  Forall2
    (fun ut mail =>
       rendering simulated (newCampaign (Delivery.patchy 10) Scenario.threeTargets)
         (fst ut) (snd ut) mail)
    (drawnFor (Delivery.patchy 10) 0
       (findUsersIn (declaredTargets Scenario.threeTargets) Scenario.staff))
    (snd (createCampaign simulated (Delivery.patchy 10) Scenario.threeTargets
            Scenario.staff)).
Proof.
  apply (createCampaign_mail_bodies simulated (Delivery.patchy 10) Scenario.threeTargets
           Scenario.staff); reflexivity.
Defined.

(** Three recipients, no token for the second: two messages, for the
    first and the third, each with its own link in place of [LINK]. *)
Example createCampaign_patchy :
  map (fun mail => (mail_to mail, mail_text mail))
    (snd (createCampaign simulated (Delivery.patchy 10) Scenario.threeTargets
            Scenario.staff))
  = [ ("ana@empresa.com",
       "Hola http://localhost:3000/track/00000000000000000000000a/"
         ++ "000000000000000000000001/" ++ Scenario.token);
      ("pedro@empresa.com",
       "Hola http://localhost:3000/track/00000000000000000000000a/"
         ++ "000000000000000000000003/" ++ Scenario.token) ].
Proof. vm_compute. reflexivity. Qed.

(** ** More on the department report *)

Lemma countUser_positive_all (db : Db) :
  totalsPositive (fold_left countUser (Users db) []).
Proof.
  apply fold_left_invariant; [apply countUser_positive|constructor].
Qed.

(** After the first pass no entry has a click and no key is an
    inherited name. *)
Lemma countUser_clean (d : Departments) (u : User) :
  Forall (fun e => dept_clicked (snd e) = 0 /\ JS.inherited (fst e) = false) d ->
  Forall (fun e => dept_clicked (snd e) = 0 /\ JS.inherited (fst e) = false)
    (countUser d u).
Proof.
  intros H. unfold countUser.
  set (k := deptKey (user_department u)).
  assert (Hupd : forall d0,
             Forall (fun e => dept_clicked (snd e) = 0 /\ JS.inherited (fst e) = false) d0 ->
             Forall (fun e => dept_clicked (snd e) = 0 /\ JS.inherited (fst e) = false)
               (updateKey k addTotal d0)).
  { intros d0 H0. induction d0 as [|[k' v] rest IH]; simpl; [constructor|].
    inversion H0 as [|? ? Hv Hrest]; subst.
    destruct (k' =? k); constructor; auto. }
  destruct (hasDept k d) eqn:E; [now apply Hupd|].
  apply Hupd. apply Forall_app. split; [exact H|].
  constructor; [|constructor]. simpl. split; [reflexivity|].
  unfold hasDept in E. now apply orb_false_iff in E.
Qed.

Lemma countUsers_clean (db : Db) :
  Forall (fun e => dept_clicked (snd e) = 0 /\ JS.inherited (fst e) = false)
    (fold_left countUser (Users db) []).
Proof.
  apply fold_left_invariant; [apply countUser_clean|constructor].
Qed.

(** The user the second pass settles on is the stored user of the
    Click. *)
Lemma find_again (us : list User) (id : ObjectId) (p : User) :
  find (fun u => N.eqb (user_id u) id) us = Some p ->
  find (fun u => N.eqb (user_id u) (user_id p)) us = Some p.
Proof.
  intros H. pose proof (find_some _ _ H) as [_ E]. apply N.eqb_eq in E.
  now rewrite E.
Qed.

Lemma countClick_keys (users : list User) (d : Departments) (k : Click) :
  map fst (countClick users d k) = map fst d.
Proof.
  unfold countClick.
  destruct (find _ users) as [p|]; [|reflexivity].
  destruct (if JS.truthyOpt (user_department p) then Some p else find _ users) as [u|];
    [|reflexivity].
  destruct (JS.truthyOpt (user_department u) && hasDept _ d); [|reflexivity].
  apply updateKey_keys.
Qed.

Lemma countClick_counts (db : Db) (d : Departments) (c : Click) (base : string -> nat) :
  NoDup (map fst d) ->
  (forall k v, In (k, v) d -> dept_clicked v = base k) ->
  forall k v, In (k, v) (countClick (Users db) d c) ->
    dept_clicked v = base k + (if clickOfDept k db c then 1 else 0).
Proof.
  intros Hnd Hbase k v Hin. unfold clickOfDept, findUser. unfold countClick in Hin.
  destruct (find (fun u => N.eqb (user_id u) (click_userId c)) (Users db)) as [p|] eqn:F;
    [|rewrite (Hbase k v Hin); lia].
  rewrite (find_again _ _ _ F) in Hin.
  assert (Hsame : (if JS.truthyOpt (user_department p) then Some p else Some p) = Some p)
    by (now destruct (JS.truthyOpt (user_department p))).
  rewrite Hsame in Hin. clear Hsame.
  destruct (JS.truthyOpt (user_department p)) eqn:T; simpl in *.
  - destruct (hasDept (deptKey (user_department p)) d) eqn:Hd.
    + apply In_updateKey in Hin as [(-> & v0 & Hv0 & ->)|[Hne Hin]]; [| |exact Hnd].
      * rewrite String.eqb_refl. simpl. rewrite (Hbase _ v0 Hv0). reflexivity.
      * assert ((deptKey (user_department p) =? k) = false) as ->
          by (apply String.eqb_neq; congruence).
        rewrite (Hbase k v Hin). lia.
    + assert ((deptKey (user_department p) =? k) = false) as ->.
      { apply String.eqb_neq. intros E. unfold hasDept in Hd.
        apply orb_false_iff in Hd as [Hown _].
        assert (ownKey k d = true) by (apply ownKey_In, in_map_iff; now exists (k, v)).
        congruence. }
      rewrite (Hbase k v Hin). lia.
  - rewrite (Hbase k v Hin). lia.
Qed.

Lemma countClicks_counts (db : Db) (cs : list Click) :
  forall (d : Departments) (done : list Click),
    NoDup (map fst d) ->
    (forall k v, In (k, v) d ->
                 dept_clicked v = List.length (filter (clickOfDept k db) done)) ->
    forall k v, In (k, v) (fold_left (countClick (Users db)) cs d) ->
      dept_clicked v = List.length (filter (clickOfDept k db) (done ++ cs)).
Proof.
  induction cs as [|c rest IH]; intros d done Hnd Hbase k v Hin; simpl in Hin.
  - rewrite app_nil_r. now apply Hbase.
  - replace (done ++ c :: rest)%list with ((done ++ [c]) ++ rest)%list
      by (now rewrite <- app_assoc).
    apply (IH (countClick (Users db) d c) (done ++ [c])%list); [| |exact Hin].
    + now rewrite countClick_keys.
    + intros k' v' Hin'. rewrite filter_app, length_app. simpl.
      rewrite (countClick_counts db d c
                 (fun key => List.length (filter (clickOfDept key db) done))
                 Hnd Hbase k' v' Hin').
      now destruct (clickOfDept k' db c).
Qed.

Lemma countDepartments_keys (db : Db) :
  map fst (countDepartments db) = map fst (fold_left countUser (Users db) []).
Proof.
  unfold countDepartments.
  apply (fold_left_invariant
           (fun d => map fst d = map fst (fold_left countUser (Users db) []))).
  - intros d k H. now rewrite countClick_keys.
  - reflexivity.
Qed.

(** In every entry of the department report, [clicked] is the number of
    Click events whose user is stored and has that department: events,
    not users, so that one user who clicks three times counts three
    times, and the Click of a user who is not stored or has no
    department counts nowhere. *)
Theorem departmentRates_clicked (db : Db) :
  Forall (fun e => clicked e = clicksOfDept (department e) db) (departmentRates db).
Proof.
  destruct (countUsers_counted (Users db) [] [] counted_nil) as (Hnd & _ & _).
  simpl in Hnd.
  assert (Hzero : forall k v, In (k, v) (fold_left countUser (Users db) []) ->
                              dept_clicked v = List.length (filter (clickOfDept k db) [])).
  { intros k v Hin. pose proof (countUsers_clean db) as Hc.
    rewrite Forall_forall in Hc. now destruct (Hc (k, v) Hin). }
  unfold departmentRates. apply Forall_map. apply Forall_forall.
  intros [k v] Hin. simpl.
  exact (countClicks_counts db (Clicks db) _ [] Hnd Hzero k v Hin).
Qed.

(** A department has an entry in the report exactly when some user has
    it and its name is not one that every object inherits (such as
    "constructor" or "toString"): users under such a name are left out
    of the report. *)
Theorem departmentRates_presence (db : Db) (k : string) :
  In k (map department (departmentRates db))
  <-> (JS.inherited k = false
       /\ exists u, In u (Users db) /\ deptKey (user_department u) = k).
Proof.
  destruct (countUsers_counted (Users db) [] [] counted_nil) as (Hnd & Htot & Hnone).
  simpl in Htot, Hnone.
  assert (Ekeys : map department (departmentRates db)
                  = map fst (fold_left countUser (Users db) [])).
  { unfold departmentRates. rewrite map_map. simpl.
    rewrite <- countDepartments_keys. reflexivity. }
  rewrite Ekeys. split.
  - intros Hin. apply in_map_iff in Hin as ([k' v] & E & Hin). simpl in E. subst k'.
    pose proof (countUsers_clean db) as Hc. rewrite Forall_forall in Hc.
    destruct (Hc _ Hin) as [_ Hinh]. simpl in Hinh. split; [exact Hinh|].
    pose proof (countUser_positive_all db) as Hp. unfold totalsPositive in Hp.
    rewrite Forall_forall in Hp.
    specialize (Hp _ Hin). simpl in Hp. rewrite (Htot k v Hin) in Hp.
    unfold membersOf in Hp.
    destruct (filter (fun u => deptKey (user_department u) =? k) (Users db))
      as [|u rest] eqn:F; [simpl in Hp; lia|].
    assert (Hu : In u (filter (fun u => deptKey (user_department u) =? k) (Users db)))
      by (rewrite F; now left).
    apply filter_In in Hu as [Hu E]. apply String.eqb_eq in E. now exists u.
  - intros [Hinh (u & Hu & E)]. apply ownKey_In.
    destruct (ownKey k (fold_left countUser (Users db) [])) eqn:Hown; [reflexivity|].
    pose proof (Hnone k Hown Hinh) as Hz. unfold membersOf in Hz.
    assert (Hin : In u (filter (fun u => deptKey (user_department u) =? k) (Users db))).
    { apply filter_In. split; [exact Hu|]. now apply String.eqb_eq. }
    destruct (filter (fun u => deptKey (user_department u) =? k) (Users db));
      [contradiction|discriminate].
Qed.

Example departmentRates_inherited_name :
  In Scenario.clara (Users Scenario.clicking)
  /\ ~ In "constructor" (map department (departmentRates Scenario.clicking)).
Proof.
  split; [simpl; tauto|]. vm_compute. intros [H|[H|[]]]; discriminate.
Qed.

(** ** The rate of a department *)

Lemma departmentRates_counts (db : Db) :
  Forall
    (fun e =>
       total e = membersOf (department e) (Users db)
       /\ clicked e = clicksOfDept (department e) db
       /\ rate e = rateOf (mkDeptCount (total e) (clicked e)))
    (departmentRates db).
Proof.
  destruct (countUsers_counted (Users db) [] [] counted_nil) as (Hnd & Htot & _).
  simpl in Hnd, Htot.
  assert (Hzero : forall k v, In (k, v) (fold_left countUser (Users db) []) ->
                              dept_clicked v = List.length (filter (clickOfDept k db) [])).
  { intros k v Hin. pose proof (countUsers_clean db) as Hc.
    rewrite Forall_forall in Hc. now destruct (Hc (k, v) Hin). }
  unfold departmentRates. apply Forall_map. apply Forall_forall.
  intros [k v] Hin. cbn [department total clicked rate fst snd]. split; [|split].
  - assert (Hp : In (k, dept_total v)
                   (map (fun e => (fst e, dept_total (snd e)))
                      (fold_left countUser (Users db) []))).
    { rewrite <- countDepartments_totals. apply in_map_iff. now exists (k, v). }
    apply in_map_iff in Hp as ([k' v'] & [= <- Ev] & Hv). simpl in *.
    rewrite <- Ev. now apply Htot.
  - exact (countClicks_counts db (Clicks db) _ [] Hnd Hzero k v Hin).
  - now destruct v.
Qed.

(** C8.  Every entry of the department report has a positive total and
    a rate that is the numeral, with one decimal, of the tenths that
    [toFixed(1)] picks for clicked / total * 100: they are within 0.05
    of the quotient (up to the rounding of the two operations on
    Numbers).  The expression of the rate gives "0.0" for a total of
    zero whatever the clicks, with no division.  The counts are those of
    arrays, below 2^32. *)
Theorem departmentRates_rate (db : Db) :
  arrayLength (List.length (Users db)) ->
  arrayLength (List.length (Clicks db)) ->
  Forall
    (fun e =>
       1 <= total e
       /\ exists n, rate e = Some (oneDecimal n) /\ roundsPercent (clicked e) (total e) n)
    (departmentRates db)
  /\ (forall clicks, rateOf (mkDeptCount 0 clicks) = Some "0.0").
Proof.
  intros Husers Hclicks. split; [|reflexivity].
  assert (Hpos : Forall (fun e => 1 <= total e) (departmentRates db)).
  { unfold departmentRates. apply Forall_map.
    eapply Forall_impl; [|apply countDepartments_positive]. intros [k v] H. exact H. }
  pose proof (departmentRates_counts db) as Hcounts.
  rewrite Forall_forall in Hpos, Hcounts. apply Forall_forall. intros e Hin.
  destruct (Hcounts e Hin) as (Et & Ec & Er). specialize (Hpos e Hin).
  split; [exact Hpos|].
  assert (total e <= List.length (Users db)) as Ht
    by (rewrite Et; apply filter_length_le).
  assert (clicked e <= List.length (Clicks db)) as Hc
    by (rewrite Ec; apply filter_length_le).
  unfold arrayLength in *.
  destruct (toFixed1_percent (clicked e) (total e)) as (n & En & Hn); [lia|lia|lia|].
  exists n. split; [|exact Hn].
  rewrite Er. unfold rateOf. cbn [dept_total dept_clicked].
  assert ((0 <? total e)%nat = true) as -> by (apply Nat.ltb_lt; lia).
  exact En.
Qed.

Lemma departmentRates_rate_witness :
  Forall
    (fun e =>
       1 <= total e
       /\ exists n, rate e = Some (oneDecimal n) /\ roundsPercent (clicked e) (total e) n)
    (departmentRates Scenario.clicking)
  /\ (forall clicks, rateOf (mkDeptCount 0 clicks) = Some "0.0").
Proof.
  apply (departmentRates_rate Scenario.clicking); reflexivity.
Defined.

(** ** More on the per-user statistics *)

Lemma filter_either {A : Type} (p q : A -> bool) (l : list A) :
  (forall a, p a = true -> q a = false) ->
  List.length (filter (fun a => p a || q a) l)
  = List.length (filter p l) + List.length (filter q l).
Proof.
  intros Hpq. induction l as [|a l IH]; simpl; [reflexivity|].
  destruct (p a) eqn:P; simpl.
  - rewrite (Hpq a P). simpl. now rewrite IH.
  - destruct (q a); simpl; rewrite IH; lia.
Qed.

Lemma clicks_by_user (cs : list Click) (us : list User) :
  NoDup (map user_id us) ->
  list_sum
    (map (fun u => List.length (filter (fun c => N.eqb (click_userId c) (user_id u)) cs)) us)
  = List.length (filter (fun c => oidIn (click_userId c) (map user_id us)) cs).
Proof.
  induction us as [|u rest IH]; simpl; intros Hnd.
  - induction cs as [|c cs IHc]; simpl; [reflexivity|exact IHc].
  - apply NoDup_cons_iff in Hnd as [Hfresh Hrest].
    rewrite (IH Hrest).
    change (fun c => oidIn (click_userId c) (user_id u :: map user_id rest))
      with (fun c => N.eqb (click_userId c) (user_id u)
                     || oidIn (click_userId c) (map user_id rest)).
    rewrite filter_either; [reflexivity|].
    intros c E. apply N.eqb_eq in E.
    destruct (oidIn (click_userId c) (map user_id rest)) eqn:O; [|reflexivity].
    apply oidIn_In in O. rewrite E in O. contradiction.
Qed.

(** With distinct user ids, the click counts of the per-user statistics
    add up to the number of Click events whose user is stored, which is
    at most the number of all Click events: a Click stored for a user
    id that nobody has is in nobody's statistics. *)
Theorem userStatistics_clicks_total (db : Db) :
  NoDup (map user_id (Users db)) ->
  list_sum (map stat_clicks (userStatistics db)) = clicksOfKnownUsers db
  /\ clicksOfKnownUsers db <= List.length (Clicks db).
Proof.
  intros Hnd. split.
  - unfold userStatistics, clicksOfKnownUsers. rewrite map_map. cbn [stat_clicks].
    unfold clicksOf. now apply clicks_by_user.
  - unfold clicksOfKnownUsers. apply filter_length_le.
Qed.

Lemma userStatistics_clicks_total_witness :
  list_sum (map stat_clicks (userStatistics Scenario.clicking))
  = clicksOfKnownUsers Scenario.clicking
  /\ clicksOfKnownUsers Scenario.clicking <= List.length (Clicks Scenario.clicking).
Proof.
  apply (userStatistics_clicks_total Scenario.clicking).
  simpl. repeat constructor; simpl; intuition discriminate.
Defined.

Example userStatistics_stray_click :
  list_sum (map stat_clicks (userStatistics Scenario.clicking)) = 5
  /\ List.length (Clicks Scenario.clicking) = 6.
Proof. split; reflexivity. Qed.

(** ** Education progress *)

Lemma findProgress_userId (userId : ObjectId) (edu : Education) (p : EducationProgress) :
  findProgress userId edu = Some p -> edu_userId p = userId.
Proof.
  unfold findProgress. intros H. apply find_some in H as [_ E]. now apply N.eqb_eq.
Qed.

Lemma findProgress_saveFound (p : EducationProgress) (edu : Education) (userId : ObjectId) :
  findProgress userId (saveFound p edu)
  = if N.eqb (edu_userId p) userId
    then match findProgress userId edu with Some _ => Some p | None => None end
    else findProgress userId edu.
Proof.
  unfold findProgress. induction edu as [|q rest IH]; simpl.
  - now destruct (N.eqb (edu_userId p) userId).
  - destruct (N.eqb (edu_userId q) (edu_userId p)) eqn:E; simpl.
    + apply N.eqb_eq in E. rewrite E.
      destruct (N.eqb (edu_userId p) userId); reflexivity.
    + destruct (N.eqb (edu_userId q) userId) eqn:F.
      * apply N.eqb_eq in F. apply N.eqb_neq in E.
        assert (N.eqb (edu_userId p) userId = false) as ->
          by (apply N.eqb_neq; congruence).
        reflexivity.
      * exact IH.
Qed.

Lemma findProgress_appended (p : EducationProgress) (edu : Education) (userId : ObjectId) :
  findProgress userId (edu ++ [p])%list
  = match findProgress userId edu with
    | Some q => Some q
    | None => if N.eqb (edu_userId p) userId then Some p else None
    end.
Proof.
  unfold findProgress. induction edu as [|q rest IH]; simpl; [reflexivity|].
  destruct (N.eqb (edu_userId q) userId); [reflexivity|exact IH].
Qed.

(** A saved record is the one found afterwards under its user, and the
    records of the other users are found as before. *)
Lemma findProgress_saved (p : EducationProgress) (edu : Education) (userId : ObjectId) :
  findProgress userId (saveProgress p edu)
  = if N.eqb (edu_userId p) userId then Some p else findProgress userId edu.
Proof.
  unfold saveProgress.
  destruct (findProgress (edu_userId p) edu) as [q|] eqn:F.
  - rewrite findProgress_saveFound.
    destruct (N.eqb (edu_userId p) userId) eqn:E; [|reflexivity].
    apply N.eqb_eq in E. subst userId. now rewrite F.
  - rewrite findProgress_appended.
    destruct (N.eqb (edu_userId p) userId) eqn:E.
    + apply N.eqb_eq in E. subst userId. now rewrite F.
    + now destruct (findProgress userId edu).
Qed.

Lemma includes_In (m : nat) (ms : list nat) : includes m ms = true <-> In m ms.
Proof.
  unfold includes. rewrite existsb_exists. split.
  - intros (x & Hx & E). apply Nat.eqb_eq in E. now subst.
  - intros H. exists m. split; [exact H|apply Nat.eqb_refl].
Qed.

(** The record in the answer is the stored one, and it lists the
    module. *)
Lemma completeModule_stored (clock : nat) (userId : ObjectId) (moduleId : nat)
    (edu : Education) :
  findProgress userId (snd (completeModule clock userId moduleId edu))
  = Some (snd (fst (completeModule clock userId moduleId edu)))
  /\ includes moduleId
       (completedModules (snd (fst (completeModule clock userId moduleId edu)))) = true.
Proof.
  unfold completeModule.
  destruct (findProgress userId edu) as [p|] eqn:F.
  - pose proof (findProgress_userId _ _ _ F) as Eid.
    destruct (includes moduleId (completedModules p)) eqn:I; cbn [fst snd].
    + now split.
    + rewrite findProgress_saved. cbn [edu_userId completedModules].
      rewrite Eid, N.eqb_refl. split; [reflexivity|].
      apply includes_In, in_or_app. right. now left.
  - cbn [completedModules includes existsb fst snd].
    rewrite findProgress_saved. cbn [edu_userId completedModules].
    rewrite N.eqb_refl. split; [reflexivity|]. apply includes_In. now left.
Qed.

(** Completing a module answers 200 with the record as it is stored
    afterwards.  The module is added at the end of the user's list when
    it is not in it, and the list is left as it is when it is; the
    certificate flag is kept, and the records of all other users are
    untouched. *)
Theorem completeModule_effect (clock : nat) (userId : ObjectId) (moduleId : nat)
    (edu : Education) :
  fst (fst (completeModule clock userId moduleId edu)) = 200
  /\ findProgress userId (snd (completeModule clock userId moduleId edu))
     = Some (snd (fst (completeModule clock userId moduleId edu)))
  /\ modulesOf userId (snd (completeModule clock userId moduleId edu))
     = (if includes moduleId (modulesOf userId edu) then modulesOf userId edu
        else (modulesOf userId edu ++ [moduleId])%list)
  /\ certificateGenerated (snd (fst (completeModule clock userId moduleId edu)))
     = match findProgress userId edu with
       | Some p => certificateGenerated p
       | None => false
       end
  /\ (forall other, other <> userId ->
        findProgress other (snd (completeModule clock userId moduleId edu))
        = findProgress other edu).
Proof.
  unfold completeModule, modulesOf.
  destruct (findProgress userId edu) as [p|] eqn:F.
  - pose proof (findProgress_userId _ _ _ F) as Eid.
    destruct (includes moduleId (completedModules p)) eqn:I; cbn [fst snd].
    + rewrite F. repeat split.
    + rewrite !findProgress_saved. cbn [edu_userId]. rewrite Eid, N.eqb_refl.
      repeat split. intros other Hne. rewrite findProgress_saved. cbn [edu_userId].
      apply not_eq_sym in Hne. now apply N.eqb_neq in Hne as ->.
  - cbn [completedModules includes existsb fst snd].
    rewrite !findProgress_saved. cbn [edu_userId]. rewrite N.eqb_refl.
    repeat split. intros other Hne. rewrite findProgress_saved. cbn [edu_userId].
    apply not_eq_sym in Hne. now apply N.eqb_neq in Hne as ->.
Qed.

(** Completing the same module a second time changes nothing, not even
    the time of the last update, and answers with the same record. *)
Theorem completeModule_idempotent (clock clock' : nat) (userId : ObjectId)
    (moduleId : nat) (edu : Education) :
  completeModule clock' userId moduleId (snd (completeModule clock userId moduleId edu))
  = (200, snd (fst (completeModule clock userId moduleId edu)),
     snd (completeModule clock userId moduleId edu)).
Proof.
  assert (Hagain : forall p e,
             findProgress userId e = Some p ->
             includes moduleId (completedModules p) = true ->
             completeModule clock' userId moduleId e = (200, p, e)).
  { intros p e F I. unfold completeModule. now rewrite F, I. }
  destruct (completeModule_stored clock userId moduleId edu) as [Hf Hi].
  now apply Hagain.
Qed.

(** Reading the progress of a user answers 200 with the record that is
    stored afterwards.  A user who has a record gets it and nothing is
    written; for any other id, whether a user has it or not, an empty
    record is created and stored last.  A second read answers the same
    and writes nothing, and no other user's record is touched. *)
Theorem getEducation_lazy (clock clock' : nat) (userId : ObjectId) (edu : Education) :
  fst (fst (getEducation clock userId edu)) = 200
  /\ findProgress userId (snd (getEducation clock userId edu))
     = Some (snd (fst (getEducation clock userId edu)))
  /\ (forall p, findProgress userId edu = Some p ->
                getEducation clock userId edu = (200, p, edu))
  /\ (findProgress userId edu = None ->
      getEducation clock userId edu
      = (200, mkProgress userId [] false clock,
         (edu ++ [mkProgress userId [] false clock])%list))
  /\ getEducation clock' userId (snd (getEducation clock userId edu))
     = (200, snd (fst (getEducation clock userId edu)),
        snd (getEducation clock userId edu))
  /\ (forall other, other <> userId ->
        findProgress other (snd (getEducation clock userId edu))
        = findProgress other edu).
Proof.
  assert (Hread : forall c p e, findProgress userId e = Some p ->
                                getEducation c userId e = (200, p, e)).
  { intros c p e F. unfold getEducation. now rewrite F. }
  destruct (findProgress userId edu) as [p|] eqn:F.
  - rewrite (Hread clock p edu F). cbn [fst snd].
    split; [reflexivity|]. split; [exact F|]. split; [now intros q [= <-]|].
    split; [discriminate|]. split; [now apply Hread|reflexivity].
  - assert (Fs : findProgress userId (saveProgress (mkProgress userId [] false clock) edu)
                 = Some (mkProgress userId [] false clock)).
    { rewrite findProgress_saved. cbn [edu_userId]. now rewrite N.eqb_refl. }
    assert (E : getEducation clock userId edu
                = (200, mkProgress userId [] false clock,
                   saveProgress (mkProgress userId [] false clock) edu)).
    { unfold getEducation. now rewrite F. }
    rewrite E. cbn [fst snd].
    split; [reflexivity|]. split; [exact Fs|]. split; [discriminate|].
    split.
    { intros _. unfold saveProgress. cbn [edu_userId]. now rewrite F. }
    split; [now apply Hread|].
    intros other Hne. rewrite findProgress_saved. cbn [edu_userId].
    apply not_eq_sym in Hne. now apply N.eqb_neq in Hne as ->.
Qed.

(** *** One record per user, no module twice *)

Lemma saveFound_ids (p : EducationProgress) (edu : Education) :
  map edu_userId (saveFound p edu) = map edu_userId edu.
Proof.
  induction edu as [|q rest IH]; simpl; [reflexivity|].
  destruct (N.eqb (edu_userId q) (edu_userId p)) eqn:E; simpl.
  - apply N.eqb_eq in E. now rewrite E.
  - now rewrite IH.
Qed.

Lemma saveFound_all (P : EducationProgress -> Prop) (p : EducationProgress)
    (edu : Education) :
  P p -> Forall P edu -> Forall P (saveFound p edu).
Proof.
  intros Hp H. induction edu as [|q rest IH]; simpl; [constructor|].
  inversion H as [|? ? Hq Hrest]; subst.
  destruct (N.eqb (edu_userId q) (edu_userId p)); constructor; auto.
Qed.

Lemma findProgress_None_notin (userId : ObjectId) (edu : Education) :
  findProgress userId edu = None -> ~ In userId (map edu_userId edu).
Proof.
  unfold findProgress. intros H Hin. apply in_map_iff in Hin as (q & E & Hq).
  apply (find_none _ _ H) in Hq. apply N.eqb_neq in Hq. contradiction.
Qed.

Lemma findProgress_In (userId : ObjectId) (edu : Education) (p : EducationProgress) :
  findProgress userId edu = Some p -> In p edu.
Proof. unfold findProgress. intros H. now apply find_some in H. Qed.

Lemma saveProgress_tidy (p : EducationProgress) (edu : Education) :
  NoDup (completedModules p) -> tidy edu -> tidy (saveProgress p edu).
Proof.
  intros Hp [Hids Hmods]. unfold saveProgress.
  destruct (findProgress (edu_userId p) edu) as [q|] eqn:F.
  - split; [now rewrite saveFound_ids|now apply saveFound_all].
  - split.
    + rewrite map_app. simpl. apply NoDup_app; [exact Hids|repeat constructor; intros []|].
      intros id Hin [<-|[]]. now apply (findProgress_None_notin (edu_userId p) edu).
    + apply Forall_app. split; [exact Hmods|]. constructor; [exact Hp|constructor].
Qed.

Lemma tidy_found (userId : ObjectId) (edu : Education) (p : EducationProgress) :
  tidy edu -> findProgress userId edu = Some p -> NoDup (completedModules p).
Proof.
  intros [_ Hmods] F. rewrite Forall_forall in Hmods.
  apply Hmods. now apply (findProgress_In userId).
Qed.

(** The education and certificate routes keep the collection tidy: if
    no user has two records and no record lists a module twice before
    a call, the same holds after it, whichever of the four routes is
    called and whatever it answers. *)
Theorem education_stays_tidy (edu : Education) :
  tidy edu ->
  (forall clock userId, tidy (snd (getEducation clock userId edu)))
  /\ (forall clock userId moduleId, tidy (snd (completeModule clock userId moduleId edu)))
  /\ (forall today bytes userId db,
        tidy (snd (generateCertificate today bytes userId db edu)))
  /\ (forall today bytes userId db,
        tidy (snd (downloadCertificate today bytes userId db edu))).
Proof.
  intros Ht. split; [|split; [|split]].
  - intros clock userId. unfold getEducation.
    destruct (findProgress userId edu); cbn [snd]; [exact Ht|].
    apply saveProgress_tidy; [constructor|exact Ht].
  - intros clock userId moduleId. unfold completeModule.
    destruct (findProgress userId edu) as [p|] eqn:F.
    + destruct (includes moduleId (completedModules p)) eqn:I; cbn [snd]; [exact Ht|].
      apply saveProgress_tidy; [|exact Ht]. cbn [completedModules].
      apply NoDup_app; [now apply (tidy_found userId edu)|repeat constructor; intros []|].
      intros m Hm [<-|[]]. apply includes_In in Hm. congruence.
    + cbn [completedModules includes existsb snd].
      apply saveProgress_tidy; [|exact Ht]. repeat constructor. intros [].
  - intros today bytes userId db. unfold generateCertificate.
    destruct (findProgress userId edu) as [p|] eqn:F; [|exact Ht].
    destruct (List.length (completedModules p) <? 3)%nat; [exact Ht|].
    assert (Hs : tidy (saveProgress (markGenerated p) edu)).
    { apply saveProgress_tidy; [|exact Ht]. simpl. now apply (tidy_found userId edu). }
    destruct (findUser userId db); exact Hs.
  - intros today bytes userId db. unfold downloadCertificate.
    destruct (findUser userId db); [|exact Ht].
    destruct (findProgress userId edu) as [p|] eqn:F; [|exact Ht].
    destruct (List.length (completedModules p) <? 3)%nat; [exact Ht|].
    destruct (allChars validHeaderChar (contentDisposition u)); [|exact Ht].
    cbn [snd]. destruct (certificateGenerated p); [exact Ht|].
    apply saveProgress_tidy; [|exact Ht]. simpl. now apply (tidy_found userId edu).
Qed.

Lemma records_tidy : tidy Classroom.records.
Proof.
  split.
  - simpl. repeat constructor; simpl; intuition discriminate.
  - repeat constructor; simpl; intuition discriminate.
Qed.

Lemma education_stays_tidy_witness :
  (forall clock userId, tidy (snd (getEducation clock userId Classroom.records)))
  /\ (forall clock userId moduleId,
        tidy (snd (completeModule clock userId moduleId Classroom.records)))
  /\ (forall today bytes userId db,
        tidy (snd (generateCertificate today bytes userId db Classroom.records)))
  /\ (forall today bytes userId db,
        tidy (snd (downloadCertificate today bytes userId db Classroom.records))).
Proof.
  apply (education_stays_tidy Classroom.records). exact records_tidy.
Defined.

(** ** Certificates *)

Lemma markGenerated_flagged (p : EducationProgress) :
  certificateGenerated p = true -> markGenerated p = p.
Proof. destruct p as [u ms g t]. simpl. now intros ->. Qed.

Lemma notEligible_modules (userId : ObjectId) (edu : Education) :
  notEligible (findProgress userId edu)
  = (List.length (modulesOf userId edu) <? 3)%nat.
Proof. unfold modulesOf. now destruct (findProgress userId edu). Qed.

(** POST /api/certificates/generate.  Without a record, or with fewer
    than three modules in it, the answer is 400 with the message that
    not all modules are completed, and nothing is written.  With three
    or more the record is flagged as certified; if the user is stored
    the answer is 200 with the user's name and e-mail, the number of
    modules, the date and the certificate id. *)
Theorem generateCertificate_contract (today : string) (bytes : N) (userId : ObjectId)
    (db : Db) (edu : Education) :
  (notEligible (findProgress userId edu) = true ->
   generateCertificate today bytes userId db edu = (400, CertError notAllModules, edu))
  /\ (forall p u,
        findProgress userId edu = Some p ->
        3 <= List.length (completedModules p) ->
        findUser userId db = Some u ->
        generateCertificate today bytes userId db edu
        = (200,
           CertIssued
             (mkCertificate (user_name u) (user_email u)
                (List.length (completedModules p)) today (certificateIdOf bytes)),
           saveProgress (markGenerated p) edu)
        /\ findProgress userId (saveProgress (markGenerated p) edu)
           = Some (markGenerated p)
        /\ forall other, other <> userId ->
             findProgress other (saveProgress (markGenerated p) edu)
             = findProgress other edu).
Proof.
  unfold generateCertificate, notEligible. split.
  - destruct (findProgress userId edu) as [p|]; [|reflexivity]. now intros ->.
  - intros p u F Hlen Eu. rewrite F, Eu.
    assert ((List.length (completedModules p) <? 3)%nat = false) as ->
      by (apply Nat.ltb_ge; lia).
    pose proof (findProgress_userId _ _ _ F) as Eid.
    split; [reflexivity|]. rewrite findProgress_saved. cbn [markGenerated edu_userId].
    rewrite Eid, N.eqb_refl. split; [reflexivity|].
    intros other Hne. rewrite findProgress_saved.
    assert (N.eqb (edu_userId (markGenerated p)) other = false) as ->
      by (apply N.eqb_neq; simpl; congruence).
    reflexivity.
Qed.

(** A record with three modules of an id that no user has: the record
    is flagged as certified before the user's name is read, so the
    answer is 400 and yet the flag stays set. *)
Theorem generateCertificate_flags_before_user (today : string) (bytes : N)
    (userId : ObjectId) (db : Db) (edu : Education) (p : EducationProgress) :
  findProgress userId edu = Some p ->
  3 <= List.length (completedModules p) ->
  findUser userId db = None ->
  fst (generateCertificate today bytes userId db edu) = (400, CertTypeError)
  /\ findProgress userId (snd (generateCertificate today bytes userId db edu))
     = Some (markGenerated p)
  /\ certificateGenerated (markGenerated p) = true.
Proof.
  intros F Hlen Eu. unfold generateCertificate. rewrite F, Eu.
  assert ((List.length (completedModules p) <? 3)%nat = false) as ->
    by (apply Nat.ltb_ge; lia).
  pose proof (findProgress_userId _ _ _ F) as Eid.
  cbn [fst snd]. rewrite findProgress_saved. cbn [markGenerated edu_userId].
  rewrite Eid, N.eqb_refl. repeat split.
Qed.

Lemma generateCertificate_flags_before_user_witness :
  fst (generateCertificate "1/1/2026" 255 9 Scenario.running Classroom.records)
  = (400, CertTypeError)
  /\ findProgress 9
       (snd (generateCertificate "1/1/2026" 255 9 Scenario.running Classroom.records))
     = Some (markGenerated Classroom.orphan)
  /\ certificateGenerated (markGenerated Classroom.orphan) = true.
Proof.
  apply (generateCertificate_flags_before_user "1/1/2026" 255 9 Scenario.running
           Classroom.records Classroom.orphan).
  - reflexivity.
  - simpl. lia.
  - reflexivity.
Defined.

Lemma allChars_app (p : ascii -> bool) (s t : string) :
  allChars p (s ++ t) = allChars p s && allChars p t.
Proof.
  induction s as [|c r IH]; simpl; [reflexivity|]. now rewrite IH, andb_assoc.
Qed.

Lemma hyphenate_solid (s : string) :
  forall inRun, allChars (fun c => negb (JS.isWhiteSpace c)) (hyphenate inRun s) = true.
Proof.
  induction s as [|c r IH]; intros inRun; simpl; [reflexivity|].
  destruct (JS.isWhiteSpace c) eqn:W.
  - destruct inRun; simpl; apply IH.
  - simpl. rewrite W. simpl. apply IH.
Qed.

(** The header value is accepted exactly when every character of the
    user's name is white space, which the file name replaces, or a
    character that a header value may hold. *)
Lemma hyphenate_header (s : string) :
  forall inRun,
    allChars validHeaderChar (hyphenate inRun s)
    = allChars (fun c => JS.isWhiteSpace c || validHeaderChar c) s.
Proof.
  induction s as [|c r IH]; intros inRun; simpl; [reflexivity|].
  destruct (JS.isWhiteSpace c) eqn:W; simpl.
  - destruct inRun; simpl; apply IH.
  - now rewrite IH.
Qed.

Lemma contentDisposition_valid (u : User) :
  allChars validHeaderChar (contentDisposition u)
  = allChars (fun c => JS.isWhiteSpace c || validHeaderChar c) (user_name u).
Proof.
  unfold contentDisposition, pdfFileName.
  rewrite !allChars_app, hyphenate_header.
  replace (allChars validHeaderChar "attachment; filename=") with true by reflexivity.
  replace (allChars validHeaderChar dquote) with true by reflexivity.
  replace (allChars validHeaderChar "certificado-") with true by reflexivity.
  replace (allChars validHeaderChar ".pdf") with true by reflexivity.
  cbn [andb]. now rewrite !andb_true_r.
Qed.

(** GET /api/certificates/download/:userId, the whole handler.  A
    parameter that cannot be cast is answered with 500; an id that no
    user has with 404, before the record is looked at; a user without a
    record or with fewer than three modules with 400; a user whose name
    holds a character that is neither white space nor allowed in a
    header value (a control character) with 500.  In these four cases
    nothing is written.  Otherwise the answer is the PDF for the user,
    under a file name without white space, the record is flagged as
    certified afterwards and the records of other users are as they
    were. *)
Theorem downloadRoute_contract (today : string) (bytes : N) (userId : IdParam)
    (db : Db) (edu : Education) :
  match userId with
  | Uncastable text =>
      downloadRoute today bytes userId db edu = (500, CertCastError text, edu)
  | Castable id =>
      match findUser id db with
      | None =>
          downloadRoute today bytes userId db edu
          = (404, CertError "Usuario no encontrado", edu)
      | Some u =>
          if (List.length (modulesOf id edu) <? 3)%nat then
            downloadRoute today bytes userId db edu
            = (400, CertError notAllModules, edu)
          else if allChars (fun c => JS.isWhiteSpace c || validHeaderChar c) (user_name u)
          then
            exists p,
              findProgress id edu = Some p
              /\ fst (downloadRoute today bytes userId db edu)
                 = (200,
                    CertPdf ("certificado-" ++ hyphenate false (user_name u) ++ ".pdf")
                      (user_name u) (List.length (completedModules p)) today
                      (certificateIdOf bytes))
              /\ allChars (fun c => negb (JS.isWhiteSpace c))
                    ("certificado-" ++ hyphenate false (user_name u) ++ ".pdf") = true
              /\ findProgress id (snd (downloadRoute today bytes userId db edu))
                 = Some (markGenerated p)
              /\ forall other, other <> id ->
                   findProgress other (snd (downloadRoute today bytes userId db edu))
                   = findProgress other edu
          else
            downloadRoute today bytes userId db edu
            = (500,
               CertError ("Invalid character in header content [" ++ dquote
                            ++ "Content-Disposition" ++ dquote ++ "]"),
               edu)
      end
  end.
Proof.
  destruct userId as [id|text]; [|reflexivity].
  unfold downloadRoute, downloadCertificate.
  destruct (findUser id db) as [u|] eqn:Eu; [|reflexivity].
  rewrite <- notEligible_modules. unfold notEligible.
  destruct (findProgress id edu) as [p|] eqn:F; [|reflexivity].
  destruct (List.length (completedModules p) <? 3)%nat eqn:L; [reflexivity|].
  rewrite contentDisposition_valid.
  destruct (allChars _ (user_name u)); [|reflexivity].
  pose proof (findProgress_userId _ _ _ F) as Eid.
  exists p. cbn [fst snd]. split; [reflexivity|]. split; [reflexivity|]. split.
  { rewrite !allChars_app, hyphenate_solid. reflexivity. }
  destruct (certificateGenerated p) eqn:G.
  - rewrite markGenerated_flagged by exact G. split; [exact F|reflexivity].
  - split.
    + rewrite findProgress_saved. cbn [markGenerated edu_userId].
      now rewrite Eid, N.eqb_refl.
    + intros other Hne. rewrite findProgress_saved.
      assert (N.eqb (edu_userId (markGenerated p)) other = false) as ->
        by (apply N.eqb_neq; simpl; congruence).
      reflexivity.
Qed.

(** A graduate whose name holds the control character U+0001: the
    header is refused, the answer is 500 and the record stays
    unflagged. *)
Example downloadRoute_control_character :
  let db := mkDb [mkUser 2 ("Ju" ++ String (ascii_of_nat 1) "an") "juan@empresa.com" None]
              [] [] [] in
  fst (fst (downloadRoute "1 de enero de 2026" 255 (Castable 2) db Classroom.records)) = 500
  /\ snd (downloadRoute "1 de enero de 2026" 255 (Castable 2) db Classroom.records)
     = Classroom.records.
Proof. split; reflexivity. Qed.

Example pdfFileName_example :
  pdfFileName (mkUser 5 ("Ana  Mar" ++ String (ascii_of_nat 237) "a" ++ newline ++ "Ruiz")
                 "a@b.c" None)
  = "certificado-Ana-Mar" ++ String (ascii_of_nat 237) "a-Ruiz.pdf".
Proof. reflexivity. Qed.

Lemma length_append (s t : string) :
  String.length (s ++ t) = String.length s + String.length t.
Proof. induction s as [|c r IH]; simpl; [reflexivity|]. now rewrite IH. Qed.

Lemma hexString_length (digits : nat) : forall n, String.length (JS.hexString digits n) = digits.
Proof.
  induction digits as [|d IH]; intros n; simpl; [reflexivity|].
  rewrite length_append, IH. simpl. lia.
Qed.

Lemma toUpperCase_length (s : string) : String.length (toUpperCase s) = String.length s.
Proof. induction s as [|c r IH]; simpl; [reflexivity|]. now rewrite IH. Qed.

Lemma toUpperCase_app (s t : string) : toUpperCase (s ++ t) = toUpperCase s ++ toUpperCase t.
Proof. induction s as [|c r IH]; simpl; [reflexivity|]. now rewrite IH. Qed.

Lemma upper_hexDigit (m : N) : (m < 16)%N -> isUpperHex (upperChar (JS.hexDigit m)) = true.
Proof.
  intros H. destruct m as [|p]; [reflexivity|].
  do 4 (destruct p as [p|p|]; try reflexivity; try lia).
Qed.

Lemma upper_hexString (digits : nat) :
  forall n, allChars isUpperHex (toUpperCase (JS.hexString digits n)) = true.
Proof.
  induction digits as [|d IH]; intros n; simpl; [reflexivity|].
  rewrite toUpperCase_app, allChars_app, IH. simpl.
  rewrite upper_hexDigit; [reflexivity|]. apply N.mod_lt. discriminate.
Qed.

(** A certificate id is sixteen characters, each a digit or a capital
    letter from A to F, whatever bytes are drawn. *)
Theorem certificateId_format (bytes : N) :
  String.length (certificateIdOf bytes) = 16
  /\ allChars isUpperHex (certificateIdOf bytes) = true.
Proof.
  unfold certificateIdOf. split.
  - now rewrite toUpperCase_length, hexString_length.
  - apply upper_hexString.
Qed.

Example certificateId_example : certificateIdOf 48879 = "000000000000BEEF".
Proof. reflexivity. Qed.

(** *** From completed modules to the certificate *)

Lemma completeModule_modules (clock : nat) (userId : ObjectId) (moduleId : nat)
    (edu : Education) :
  modulesOf userId (snd (completeModule clock userId moduleId edu))
  = if includes moduleId (modulesOf userId edu) then modulesOf userId edu
    else (modulesOf userId edu ++ [moduleId])%list.
Proof.
  destruct (completeModule_stored clock userId moduleId edu) as [Hf _].
  unfold modulesOf at 1. rewrite Hf. unfold completeModule, modulesOf.
  destruct (findProgress userId edu) as [p|].
  - now destruct (includes moduleId (completedModules p)).
  - reflexivity.
Qed.

(** Starting without completed modules, three completions make the
    user eligible for the certificate exactly when the three module
    numbers differ from each other; which numbers they are does not
    matter. *)
Theorem three_different_modules (c1 c2 c3 : nat) (userId : ObjectId) (m1 m2 m3 : nat)
    (edu : Education) :
  modulesOf userId edu = [] ->
  notEligible
    (findProgress userId
       (snd (completeModule c3 userId m3
               (snd (completeModule c2 userId m2
                       (snd (completeModule c1 userId m1 edu)))))))
  = negb (negb (Nat.eqb m2 m1) && negb (Nat.eqb m3 m1) && negb (Nat.eqb m3 m2)).
Proof.
  intros H0. rewrite notEligible_modules, !completeModule_modules, H0.
  unfold includes. simpl.
  destruct (Nat.eqb m2 m1) eqn:E21; simpl.
  - destruct (Nat.eqb m3 m1); reflexivity.
  - destruct (Nat.eqb m3 m1) eqn:E31; simpl; [reflexivity|].
    destruct (Nat.eqb m3 m2); reflexivity.
Qed.

Lemma three_different_modules_witness :
  notEligible
    (findProgress 3
       (snd (completeModule 30 3 9
               (snd (completeModule 20 3 8
                       (snd (completeModule 10 3 7 Classroom.records)))))))
  = negb (negb (Nat.eqb 8 7) && negb (Nat.eqb 9 7) && negb (Nat.eqb 9 8)).
Proof.
  apply (three_different_modules 10 20 30 3 7 8 9 Classroom.records).
  reflexivity.
Defined.

(** ** Risk labels over time *)

Lemma filter_more {A : Type} (p : A -> bool) (old more : list A) :
  List.length (filter p old) <= List.length (filter p (old ++ more)).
Proof. rewrite filter_app, length_app. lia. Qed.

Lemma reportLabel_rank (k k' d d' : nat) :
  k <= k' -> d <= d' ->
  riskRank (if (1 <? d)%nat then "high" else if (2 <? k)%nat then "medium" else "low")
  <= riskRank (if (1 <? d')%nat then "high" else if (2 <? k')%nat then "medium" else "low").
Proof.
  intros Hk Hd.
  destruct (1 <? d)%nat eqn:D; destruct (1 <? d')%nat eqn:D';
    destruct (2 <? k)%nat eqn:K; destruct (2 <? k')%nat eqn:K';
    repeat match goal with
           | H : (_ <? _)%nat = true |- _ => apply (proj1 (Nat.ltb_lt _ _)) in H
           | H : (_ <? _)%nat = false |- _ => apply (proj1 (Nat.ltb_ge _ _)) in H
           end;
    vm_compute; lia.
Qed.

Lemma extends_notLower (db db' : Db) :
  extends db db' -> notLower (reportStats db) (reportStats db').
Proof.
  intros (EU & [mk EK] & [md ED] & _). unfold notLower, reportStats. rewrite EU.
  clear EU. induction (Users db) as [|u rest IH]; simpl; constructor; [|exact IH].
  simpl. split; [reflexivity|].
  apply reportLabel_rank; unfold clicksOf, credsOf.
  - rewrite EK. apply filter_more.
  - rewrite ED. apply filter_more.
Qed.

(** Whatever calls of the campaign and tracking routes are made, no
    user's label in the vulnerability report goes down: low may become
    medium or high and medium may become high, never the reverse. *)
Theorem risk_never_drops (db db' : Db) :
  steps db db' -> notLower (reportStats db) (reportStats db').
Proof. intros H. now apply extends_notLower, extends_of_steps. Qed.

Lemma risk_never_drops_witness :
  notLower (reportStats Scenario.running) (reportStats Scenario.adopted).
Proof.
  apply (risk_never_drops Scenario.running Scenario.adopted).
  apply (steps_more _ Scenario.strayed).
  - apply (steps_more _ Scenario.running); [apply steps_none|].
    exact (step_apiTrackClick Scenario.running 2000 (Scenario.manual 42 2)).
  - exact (step_createCampaign Scenario.strayed simulated (Scenario.calm 11) Scenario.adopt).
Defined.
